(** * Real-time student attendance: ingestion pipeline and analytics engine

    A shallow embedding of [attendance_processor.py] (the Pulsar consumer that
    validates, persists and aggregates check-in events) and of
    [attendance_analysis.py] (the pandas report over the persisted log),
    followed by the properties of both that the design document states.
    After them come the messages [data_generator.py] sends and further
    properties of the three programs, of each alone and of one feeding the
    next.

    The three backing services are modelled by what the code observes of them:
    - Cassandra: the [attendance] table is a finite map from its primary key
      [((lecture_id), timestamp, student_id)] to the remaining column
      [is_valid]; [INSERT] is an upsert on that key.
    - Redis: the Bloom filter is the membership answer it gives; the
      HyperLogLog keys form a finite map from key to sketch.
    - Pulsar: the calls [acknowledge] and [negative_acknowledge] are recorded,
      in order, in a trace together with the completed backend calls and the
      log records. *)

From Stdlib Require Import QArith.
From stdpp Require Import base numbers list strings gmap sorting pretty.

Local Open Scope Z_scope.
Local Set Warnings "-register-all".

(** ** Python values and exceptions *)

(** What [json.loads] can return. A float is kept as its [repr]. A dict is the
    list of its items; lookup takes the first item with the key. *)
Inductive pyval : Type :=
  | PyNone
  | PyBool (b : bool)
  | PyInt (z : Z)
  | PyFloat (repr : string)
  | PyStr (s : string)
  | PyList (l : list pyval)
  | PyDict (items : list (string * pyval)).

(** The exceptions the processor can meet. All are subclasses of
    [Exception]. [ResponseError] is [redis.exceptions.ResponseError] or one
    of its subclasses; [DriverError] stands for whatever else a client
    library raises when its service cannot serve the call (connection loss,
    timeout, ...). *)
Inductive exn : Type :=
  | UnicodeDecodeError (msg : string)
  | JSONDecodeError (msg : string)
  | RecursionError (msg : string)
  | KeyError (key : string)
  | TypeError (msg : string)
  | ValueError (msg : string)
  | OverflowError (msg : string)
  | DataError (msg : string)
  | ResponseError (msg : string)
  | InvalidRequest (msg : string)
  | DriverError (cls msg : string).

(** [repr] of a [str], without Python's escaping of quotes and control
    characters. *)
Definition py_repr_str (s : string) : string := "'" +:+ s +:+ "'".

(** [str(e)], as the f-string in the [except] clause formats it. *)
Definition py_str_exn (e : exn) : string :=
  match e with
  | KeyError k => py_repr_str k
  | UnicodeDecodeError m | JSONDecodeError m | RecursionError m | TypeError m
  | ValueError m | OverflowError m | DataError m | ResponseError m
  | InvalidRequest m | DriverError _ m => m
  end.

(** [needle in s] on two [str]. *)
Fixpoint py_in (needle s : string) : bool :=
  String.prefix needle s
  || match s with
     | EmptyString => false
     | String _ rest => py_in needle rest
     end.

(** [type(v).__name__] *)
Definition py_type_name (v : pyval) : string :=
  match v with
  | PyNone => "NoneType"
  | PyBool _ => "bool"
  | PyInt _ => "int"
  | PyFloat _ => "float"
  | PyStr _ => "str"
  | PyList _ => "list"
  | PyDict _ => "dict"
  end.

Fixpoint dict_get (k : string) (items : list (string * pyval)) : option pyval :=
  match items with
  | [] => None
  | (k', v) :: rest => if decide (k' = k) then Some v else dict_get k rest
  end.

(** [data[k]] for a string literal [k]. *)
Definition py_getitem (data : pyval) (k : string) : exn + pyval :=
  match data with
  | PyDict items =>
      match dict_get k items with
      | Some v => inr v
      | None => inl (KeyError k)
      end
  | PyList _ => inl (TypeError "list indices must be integers or slices, not str")
  | PyStr _ => inl (TypeError "string indices must be integers, not 'str'")
  | v => inl (TypeError ("'" +:+ py_type_name v +:+ "' object is not subscriptable"))
  end.

(** [str(v)] inside an f-string, for the values the loop body formats after
    the store accepted them: an [int] student id, a [str] lecture id. The
    other scalars are formatted as Python does; a container is shown by its
    type name only. *)
Definition py_format (v : pyval) : string :=
  match v with
  | PyNone => "None"
  | PyBool true => "True"
  | PyBool false => "False"
  | PyInt z => pretty z
  | PyFloat r => r
  | PyStr s => s
  | PyList _ => "[...]"
  | PyDict _ => "{...}"
  end.

(** ** Timestamps *)

(** The fields of a [datetime.datetime] apart from its [tzinfo]. *)
Record datetime : Type := mk_datetime {
  year : Z; month : Z; day : Z;
  hour : Z; minute : Z; second : Z; microsecond : Z
}.

(** A [datetime.datetime] with its [tzinfo]: the fields of the local time
    and [utcoffset()], [None] for a naive datetime and else the offset from
    UTC, in microseconds. *)
Record datetime_tz : Type := mk_datetime_tz {
  local : datetime;
  utcoffset : option Z
}.

(** A naive datetime. *)
Definition naive (dt : datetime) : datetime_tz := mk_datetime_tz dt None.
Coercion naive : datetime >-> datetime_tz.

Definition is_leap (y : Z) : bool :=
  (y mod 4 =? 0) && (negb (y mod 100 =? 0) || (y mod 400 =? 0)).

Definition days_in_month (y m : Z) : Z :=
  if m =? 2 then (if is_leap y then 29 else 28)
  else if (m =? 4) || (m =? 6) || (m =? 9) || (m =? 11) then 30
  else 31.

Definition days_before_year (y : Z) : Z :=
  let y1 := y - 1 in y1 * 365 + y1 / 4 - y1 / 100 + y1 / 400.

Definition days_before_month (y m : Z) : Z :=
  let cum := nth (Z.to_nat m) [0; 0; 31; 59; 90; 120; 151; 181; 212; 243; 273; 304; 334] 0 in
  cum + (if (2 <? m) && is_leap y then 1 else 0).

(** [date(y, m, d).toordinal()] *)
Definition toordinal (y m d : Z) : Z :=
  days_before_year y + days_before_month y m + d.

(** [calendar.timegm] of the year, month, day, hour, minute and second of
    [dt]: seconds since 1970-01-01. *)
Definition timegm (dt : datetime) : Z :=
  (toordinal (year dt) (month dt) (day dt) - 719163) * 86400
  + hour dt * 3600 + minute dt * 60 + second dt.

(** [calendar.timegm(val.utctimetuple())]: the fields of a naive datetime
    are taken as they are; from an aware one the offset is subtracted first,
    which raises when the result leaves the years 1 to 9999, and the
    microseconds are dropped. *)
Definition timegm_utctimetuple (val : datetime_tz) : exn + Z :=
  match utcoffset val with
  | None => inr (timegm (local val))
  | Some offset =>
      let s := (timegm (local val) * 1000000 + microsecond (local val) - offset)
               / 1000000 in
      if (-62135596800 <=? s) && (s <=? 253402300799) then inr s
      else inl (OverflowError "date value out of range")
  end.

(** *** Python's [float]

    A double is the rational it stands for. [round_double q] is the double
    nearest to [q], ties to even, for a [q] of a magnitude that neither
    overflows nor is subnormal, which is all the encoder below meets. *)

(** [a / b] rounded to the nearest integer, ties to even, for [0 ≤ a] and
    [0 < b]. *)
Definition round_half_even (a b : Z) : Z :=
  let q := a / b in
  let r := a mod b in
  if 2 * r <? b then q
  else if b <? 2 * r then q + 1
  else if Z.even q then q else q + 1.

(** With [2 ^ e ≤ |q| < 2 ^ (e + 1)] the doubles around [q] are the
    multiples of [2 ^ (e - 52)]. *)
Definition round_double (q : Q) : Q :=
  let n := Z.abs (Qnum q) in
  let d := Zpos (Qden q) in
  if n =? 0 then 0%Q else
  let e0 := Z.log2 n - Z.log2 d in
  let e := if n * 2 ^ Z.max 0 (- e0) <? d * 2 ^ Z.max 0 e0 then e0 - 1 else e0 in
  let s := e - 52 in
  let m := Z.sgn (Qnum q) * round_half_even (n * 2 ^ Z.max 0 (- s)) (d * 2 ^ Z.max 0 s) in
  Qred (if 0 <=? s then inject_Z (m * 2 ^ s) else Qmake m (Z.to_pos (2 ^ (- s)))).

(** [float(z)], [x * y], [x / y], [x + y] and [int(x)], which truncates
    toward zero. *)
Definition float_of_int (z : Z) : Q := round_double (inject_Z z).
Definition float_mul (x y : Q) : Q := round_double (Qmult x y).
Definition float_div (x y : Q) : Q := round_double (Qdiv x y).
Definition float_add (x y : Q) : Q := round_double (Qplus x y).
Definition int_of_float (x : Q) : Z := Z.quot (Qnum x) (Zpos (Qden x)).

(** The driver's [cql_encode_datetime], which makes the CQL [timestamp]
    literal sent for a datetime, milliseconds since the epoch:
    [int(calendar.timegm(val.utctimetuple()) * 1e3 + val.microsecond / 1e3)]. *)
Definition cql_encode_datetime (val : datetime_tz) : exn + Z :=
  match timegm_utctimetuple val with
  | inl e => inl e
  | inr timestamp =>
      inr (int_of_float
             (float_add (float_mul (float_of_int timestamp) (inject_Z 1000))
                        (float_div (float_of_int (microsecond (local val)))
                                   (inject_Z 1000))))
  end.

(** The datetime the driver hands back for a stored [timestamp] is fixed by
    the milliseconds; pandas reads hour and weekday off it. *)
Definition hour_of (ms : Z) : Z := (ms / 3600000) mod 24.

(** Monday is 0, as in [datetime.weekday]. *)
Definition weekday_of (ms : Z) : Z := (ms / 86400000 + 3) mod 7.

Definition day_name (ms : Z) : string :=
  nth (Z.to_nat (weekday_of ms))
    ["Monday"; "Tuesday"; "Wednesday"; "Thursday"; "Friday"; "Saturday"; "Sunday"]
    "Monday".

(** ** Interfaces of what lies outside the repository *)

(** The constants of [config/config.py] the modelled code uses. *)
Class Config : Type := {
  BLOOM_FILTER_KEY : string;
  HLL_KEY_PREFIX : string
}.

(** [datetime.fromisoformat] on a [str]: [None] stands for [ValueError]. *)
Class IsoFormat : Type := {
  fromisoformat : string → option datetime_tz
}.

(** The sketch behind a Redis HyperLogLog key. *)
Class HyperLogLog : Type := {
  sketch : Type;
  sketch_empty : sketch;
  sketch_add : string → sketch → sketch;
  sketch_count : sketch → Z
}.

(** A parser for the one shape [data_generator.py] emits,
    [YYYY-MM-DDTHH:MM:SS], with the range checks of [datetime]; what it
    reads is a naive datetime. *)
Definition digit (c : Ascii.ascii) : option Z :=
  let n := Z.of_nat (Ascii.nat_of_ascii c) - 48 in
  if (0 <=? n) && (n <=? 9) then Some n else None.

Fixpoint number (acc : Z) (cs : list Ascii.ascii) : option Z :=
  match cs with
  | [] => Some acc
  | c :: cs' => d ← digit c; number (acc * 10 + d) cs'
  end.

Fixpoint chars (s : string) : list Ascii.ascii :=
  match s with
  | EmptyString => []
  | String c s' => c :: chars s'
  end.

Definition isoformat_seconds (s : string) : option datetime :=
  match chars s with
  | [y1; y2; y3; y4; d1; m1; m2; d2; a1; a2; t; h1; h2; c1; i1; i2; c2; s1; s2] =>
      if decide ([d1; d2; c1; c2] = chars "--::") then
        y ← number 0 [y1; y2; y3; y4];
        m ← number 0 [m1; m2];
        d ← number 0 [a1; a2];
        h ← number 0 [h1; h2];
        mi ← number 0 [i1; i2];
        se ← number 0 [s1; s2];
        if (1 <=? y) && (1 <=? m) && (m <=? 12) && (1 <=? d) && (d <=? days_in_month y m)
           && (h <? 24) && (mi <? 60) && (se <? 60)
        then Some (mk_datetime y m d h mi se 0)
        else None
      else None
  | _ => None
  end.

Definition generator_isoformat : IsoFormat :=
  {| fromisoformat := λ s, naive <$> isoformat_seconds s |}.

(** An exact sketch: the set of items added, counted without error. *)
Definition exact_sketch : HyperLogLog := {|
  sketch := gset string;
  sketch_empty := ∅;
  sketch_add := λ x s, {[x]} ∪ s;
  sketch_count := λ s, Z.of_nat (size s)
|}.

(** ** The [attendance] table

    [CREATE TABLE attendance (student_id int, lecture_id text,
    timestamp timestamp, is_valid boolean,
    PRIMARY KEY ((lecture_id), timestamp, student_id))]:
    one row per primary key, a CQL [timestamp] being milliseconds since the
    epoch and a CQL [int] 32 bits wide. *)
Record row : Type := mk_row {
  student_id : Z;
  lecture_id : string;
  timestamp : Z;
  is_valid : bool
}.

Abbreviation table := (gmap (string * Z * Z) bool).

(** [((lecture_id), timestamp, student_id)] *)
Definition primary_key (r : row) : string * Z * Z :=
  (lecture_id r, timestamp r, student_id r).

(** The row stored under a key. *)
Definition row_of (kv : string * Z * Z * bool) : row :=
  let '(l, t, s, v) := kv in mk_row s l t v.

(** [INSERT INTO attendance (...) VALUES (...)] *)
Definition cql_insert (r : row) (t : table) : table :=
  <[primary_key r := is_valid r]> t.

(** Rows of a partition come back in clustering order: by [timestamp], then
    by [student_id]. *)
Definition clustering_le (a b : row) : Prop :=
  timestamp a < timestamp b ∨ (timestamp a = timestamp b ∧ student_id a ≤ student_id b).

Global Instance clustering_le_dec a b : Decision (clustering_le a b).
Proof. unfold clustering_le. apply _. Defined.

(** [SELECT ... FROM attendance WHERE lecture_id = %s] *)
Definition cql_select_lecture (l : string) (t : table) : list row :=
  merge_sort clustering_le
    (row_of <$> map_to_list (filter (λ kv, kv.1.1.1 = l) t)).

(** [SELECT DISTINCT lecture_id FROM attendance]: the partition keys, in the
    order of the cluster's token ring (here: the order [elements] gives). *)
Definition cql_select_distinct_lecture (t : table) : list string :=
  elements (set_map (λ k : string * Z * Z, k.1.1) (dom t) : gset string).

(** ** Messages, faults and the observable trace *)

(** A Pulsar message, by what [json.loads(msg.data().decode())] does on it:
    it raises [e] (a [UnicodeDecodeError] for bytes that are not UTF-8, a
    [JSONDecodeError] for text that is not JSON, a [RecursionError] for JSON
    nested too deep, a [ValueError] for an integer of too many digits, ...)
    or it returns [v]. *)
Inductive payload : Type :=
  | Unreadable (e : exn)
  | Json (v : pyval).

Record message : Type := mk_message {
  message_id : nat;
  msg_data : payload
}.

(** Completed backend calls, log records, acknowledgment calls and the
    clients closed ([pulsar_client], [redis_client], [cassandra_cluster]). *)
Inductive event : Type :=
  | BF_EXISTS (key item : string) (reply : bool)
  | BF_RESERVE (key : string)
  | CQL_INSERT (r : row)
  | PFADD (key item : string)
  | LogInfo (text : string)
  | LogError (text : string)
  | Acknowledge (id : nat)
  | NegativeAcknowledge (id : nat)
  | Closed (client : string).

(** What the services do to the calls made for one message: [None] lets the
    call through, [Some e] makes the client raise [e] and leaves the service's
    state as it was. [insert_refusal] is the exception the driver raises
    when Cassandra refuses the [INSERT] for one of its literals. *)
Record faults : Type := mk_faults {
  bf_exists_fault : option exn;
  insert_fault : option exn;
  pfadd_fault : option exn;
  acknowledge_fault : option exn;
  negative_acknowledge_fault : option exn;
  insert_refusal : exn
}.

Definition no_faults : faults :=
  mk_faults None None None None None (InvalidRequest "Invalid query").

(** The same for the calls [process_attendance] makes before and after the
    loop, and for the [receive] call that does not return a message: with
    [receive_fault] [None] the operator interrupts it ([KeyboardInterrupt]),
    with [Some e] it raises [e]. *)
Record session : Type := mk_session {
  probe_fault : option exn;
  reserve_fault : option exn;
  receive_fault : option exn;
  pulsar_close_fault : option exn;
  redis_close_fault : option exn;
  cassandra_shutdown_fault : option exn
}.

(** Every call before and after the loop is answered, and the operator's
    interrupt ends the loop. *)
Definition interrupted : session := mk_session None None None None None None.

(** The same for the two calls of [get_attendance_stats]. *)
Record read_faults : Type := mk_read_faults {
  pfcount_fault : option exn;
  select_fault : option exn
}.

(** The value [get_attendance_stats] returns. *)
Record stats : Type := mk_stats {
  unique_attendees : Z;
  attendance_records : list (Z * Z)
}.

Global Instance row_eq_dec : EqDecision row.
Proof. solve_decision. Defined.

Global Instance event_eq_dec : EqDecision event.
Proof. solve_decision. Defined.

(** [json.loads(msg.data().decode())] *)
Definition json_loads (p : payload) : exn + pyval :=
  match p with
  | Unreadable e => inl e
  | Json v => inr v
  end.

(** redis-py's argument encoder: [bytes], [str], [int] and [float] go through,
    a [bool] and everything else is refused. *)
Definition redis_encode (v : pyval) : exn + string :=
  match v with
  | PyInt z => inr (pretty z)
  | PyFloat r => inr r
  | PyStr s => inr s
  | _ => inl (DataError ("Invalid input of type: '" +:+ py_type_name v
                         +:+ "'. Convert to a bytes, string, int or float first."))
  end.

(** The literal sent for an [int] column must be an integer in range;
    [None] when Cassandra refuses it. *)
Definition cql_int (v : pyval) : option Z :=
  match v with
  | PyInt z => if (-2147483648 <=? z) && (z <=? 2147483647) then Some z else None
  | _ => None
  end.

(** The literal sent for the [text] column that is the partition key must
    be a string, and not the empty one. *)
Definition cql_key_text (v : pyval) : option string :=
  match v with
  | PyStr s => if decide (s = "") then None else Some s
  | _ => None
  end.

Section Processor.
Context `{Config, IsoFormat, HyperLogLog}.

(** [datetime.fromisoformat(v)] *)
Definition datetime_fromisoformat (v : pyval) : exn + datetime_tz :=
  match v with
  | PyStr s =>
      match fromisoformat s with
      | Some dt => inr dt
      | None => inl (ValueError ("Invalid isoformat string: " +:+ py_repr_str s))
      end
  | _ => inl (TypeError "fromisoformat: argument must be str")
  end.

(** The state the processor acts on: the table, the Bloom filter's answers,
    the HyperLogLog keys, and what has been observed so far. The Bloom
    filter's key and the HyperLogLog keys are taken to be distinct Redis
    keys. *)
Record world : Type := mk_world {
  attendance : table;
  bloom : string → bool;
  hll : gmap string sketch;
  trace : list event
}.

Definition fresh_world (known : string → bool) : world :=
  mk_world ∅ known ∅ [].

(** *** A state-and-exception monad for the loop body

    A computation takes the world, returns the world it leaves and either
    the exception it raised or its value. Nothing is rolled back when an
    exception is raised. The exceptions are those [except Exception]
    catches; the operator's interrupt is taken to arrive while the loop
    waits in [receive], between two turns. *)
Definition M (A : Type) : Type := world → world * (exn + A).

Definition ret {A} (a : A) : M A := λ w, (w, inr a).

Definition bind {A B} (m : M A) (k : A → M B) : M B :=
  λ w, match m w with
       | (w', inr a) => k a w'
       | (w', inl e) => (w', inl e)
       end.

Definition raise {A} (e : exn) : M A := λ w, (w, inl e).

Definition lift {A} (r : exn + A) : M A := λ w, (w, r).

(** [try: body / except Exception as e: handler e] *)
Definition try_except {A} (body : M A) (handler : exn → M A) : M A :=
  λ w, match body w with
       | (w', inl e) => handler e w'
       | (w', inr a) => (w', inr a)
       end.

Definition is_response_error (e : exn) : bool :=
  match e with ResponseError _ => true | _ => false end.

(** [try: body / except redis.exceptions.ResponseError as e: handler e] *)
Definition try_except_response {A} (body : M A) (handler : exn → M A) : M A :=
  λ w, match body w with
       | (w', inl e) => if is_response_error e then handler e w' else (w', inl e)
       | (w', inr a) => (w', inr a)
       end.

(** [try: body / finally: cleanup]: what [cleanup] raises replaces what
    [body] raised or returned. *)
Definition try_finally {A} (body : M A) (cleanup : M unit) : M A :=
  λ w, match body w with
       | (w', r) =>
           match cleanup w' with
           | (w'', inl e) => (w'', inl e)
           | (w'', inr _) => (w'', r)
           end
       end.

(** Reading and changing the world. *)
Definition gets {A} (p : world → A) : M A := λ w, (w, inr (p w)).

Definition modify (g : world → world) : M unit := λ w, (g w, inr tt).

Definition emit (e : event) : M unit :=
  modify (λ w, mk_world (attendance w) (bloom w) (hll w) (trace w ++ [e])).

Definition fail_on (f : option exn) : M unit :=
  match f with
  | Some e => raise e
  | None => ret tt
  end.
End Processor.

Declare Scope M_scope.
Notation "'let*' x ':=' m 'in' k" := (bind m (λ x, k))
  (at level 10, x name, m at level 100, k at level 200, only parsing) : M_scope.
Notation "m >> k" := (bind m (λ _, k))
  (at level 100, k at level 200, right associativity, only parsing) : M_scope.
Delimit Scope M_scope with M.

Section ProcessorCalls.
Context `{Config, IsoFormat, HyperLogLog}.
Local Open Scope M_scope.

(** [redis_client.execute_command('BF.EXISTS', BLOOM_FILTER_KEY, item)],
    wrapped in [bool]. *)
Definition bf_exists (f : faults) (item : pyval) : M bool :=
  let* arg := lift (redis_encode item) in
  fail_on (bf_exists_fault f) >>
  let* reply := gets (λ w, bloom w arg) in
  emit (BF_EXISTS BLOOM_FILTER_KEY arg reply) >>
  ret reply.

(** What Cassandra refuses raises [insert_refusal]. *)
Definition accepted {A} (f : faults) (literal : option A) : M A :=
  match literal with
  | Some a => ret a
  | None => raise (insert_refusal f)
  end.

(** [cassandra_session.execute(query, (student_id, lecture_id, timestamp,
    is_valid))] with the [INSERT] statement: the driver encodes the
    parameters into the statement, sends it, and Cassandra checks the
    literals against the columns. *)
Definition execute_insert (f : faults) (student_id lecture_id : pyval)
    (timestamp : datetime_tz) (is_valid : bool) : M unit :=
  let* ms := lift (cql_encode_datetime timestamp) in
  fail_on (insert_fault f) >>
  let* sid := accepted f (cql_int student_id) in
  let* lid := accepted f (cql_key_text lecture_id) in
  let r := mk_row sid lid ms is_valid in
  modify (λ w, mk_world (cql_insert r (attendance w)) (bloom w) (hll w) (trace w)) >>
  emit (CQL_INSERT r).

(** [redis_client.pfadd(key, item)]: a missing key is created. *)
Definition pfadd (f : faults) (key : string) (item : pyval) : M unit :=
  let* arg := lift (redis_encode item) in
  fail_on (pfadd_fault f) >>
  modify (λ w, mk_world (attendance w) (bloom w)
                (<[key := sketch_add arg (default sketch_empty (hll w !! key))]> (hll w))
                (trace w)) >>
  emit (PFADD key arg).

(** [redis_client.pfcount(key)]: [0] for a key that does not exist. *)
Definition pfcount (f : read_faults) (key : string) : M Z :=
  fail_on (pfcount_fault f) >>
  gets (λ w, from_option sketch_count 0 (hll w !! key)).

(** [cassandra_session.execute(query, (lecture_id,))] with the [SELECT]
    statement of [get_attendance_stats]. *)
Definition execute_select (f : read_faults) (lecture_id : string) : M (list row) :=
  fail_on (select_fault f) >>
  gets (λ w, cql_select_lecture lecture_id (attendance w)).

Definition logger_info (text : string) : M unit := emit (LogInfo text).
Definition logger_error (text : string) : M unit := emit (LogError text).

(** [consumer.acknowledge(msg)]: the call is recorded when it is made. *)
Definition acknowledge (f : faults) (msg : message) : M unit :=
  emit (Acknowledge (message_id msg)) >>
  fail_on (acknowledge_fault f).

(** [consumer.negative_acknowledge(msg)] *)
Definition negative_acknowledge (f : faults) (msg : message) : M unit :=
  emit (NegativeAcknowledge (message_id msg)) >>
  fail_on (negative_acknowledge_fault f).

(** *** [process_attendance]: one turn of the [while True] loop, after
    [msg = self.consumer.receive()] *)
Definition process_message (msg : message) (f : faults) : M unit :=
  try_except
    (let* data := lift (json_loads (msg_data msg)) in
     let* student_id := lift (py_getitem data "student_id") in
     let* lecture_id := lift (py_getitem data "lecture_id") in
     let* ts := lift (py_getitem data "timestamp") in
     let* timestamp := lift (datetime_fromisoformat ts) in
     let* is_valid := bf_exists f student_id in
     execute_insert f student_id lecture_id timestamp is_valid >>
     (if is_valid : bool
      then pfadd f (HLL_KEY_PREFIX +:+ py_format lecture_id) student_id
      else ret tt) >>
     logger_info ("Processed attendance for student " +:+ py_format student_id
                  +:+ " (valid: " +:+ py_format (PyBool is_valid) +:+ ")") >>
     acknowledge f msg)
    (λ e,
     logger_error ("Error processing message: " +:+ py_str_exn e) >>
     negative_acknowledge f msg).

(** The turns of the loop for the messages [receive] returns; an exception
    that escapes a turn ends the loop. *)
Fixpoint receive_loop (deliveries : list (message * faults)) : M unit :=
  match deliveries with
  | [] => ret tt
  | (msg, f) :: rest => process_message msg f >> receive_loop rest
  end.

(** [_setup_bloom_filter]: the probe asks the filter for the item ['test'];
    when it raises a [ResponseError] the filter is reserved, and a
    [ResponseError] of the reservation is passed over when its text holds
    "already exists". A reservation that goes through finds no filter under
    the key and leaves an empty one, which answers as the missing one did. *)
Definition _setup_bloom_filter (s : session) : M unit :=
  try_except_response
    (fail_on (probe_fault s) >>
     let* exists_ := gets (λ w, bloom w "test") in
     emit (BF_EXISTS BLOOM_FILTER_KEY "test" exists_) >>
     logger_info "Bloom Filter already exists")
    (λ _,
     try_except_response
       (fail_on (reserve_fault s) >>
        emit (BF_RESERVE BLOOM_FILTER_KEY) >>
        logger_info "Created new Bloom Filter")
       (λ e, if py_in "already exists" (py_str_exn e) then ret tt else raise e)).

(** [_cleanup] *)
Definition _cleanup (s : session) : M unit :=
  fail_on (pulsar_close_fault s) >>
  emit (Closed "pulsar_client") >>
  fail_on (redis_close_fault s) >>
  emit (Closed "redis_client") >>
  fail_on (cassandra_shutdown_fault s) >>
  emit (Closed "cassandra_cluster").

(** The [receive] call that returns no message: the operator's interrupt,
    which the [except KeyboardInterrupt] clause logs, or an exception. *)
Definition receive_ends (s : session) : M unit :=
  match receive_fault s with
  | None => logger_info "Stopping attendance processing..."
  | Some e => raise e
  end.

(** [process_attendance], for the messages received before the loop ends. *)
Definition process_attendance (s : session)
    (deliveries : list (message * faults)) : M unit :=
  logger_info "Starting attendance processing..." >>
  _setup_bloom_filter s >>
  try_finally (receive_loop deliveries >> receive_ends s) (_cleanup s).

(** *** [get_attendance_stats] *)
Definition get_attendance_stats (f : read_faults) (lecture_id : string) : M stats :=
  let hll_key := HLL_KEY_PREFIX +:+ lecture_id in
  let* unique_attendees := pfcount f hll_key in
  let* rows := execute_select f lecture_id in
  ret (mk_stats unique_attendees ((λ r, (student_id r, timestamp r)) <$> rows)).
End ProcessorCalls.

(** Key names for the examples; [config/config.py] is not part of the
    sources at hand. *)
Definition demo_config : Config :=
  {| BLOOM_FILTER_KEY := "valid_students"; HLL_KEY_PREFIX := "attendance:hll:" |}.

(** ** The vocabulary of the pipeline's properties *)

Section ProcessorVocabulary.
Context `{Config, IsoFormat, HyperLogLog}.
Local Open Scope M_scope.

(** Steps 1 to 4 of the loop body: deserialize, ask the Bloom filter, write
    the row, add to the lecture's HyperLogLog when valid. The value is the
    student id and the computed validity, which the rest of the body logs. *)
Definition ingest (msg : message) (f : faults) : M (pyval * bool) :=
  let* data := lift (json_loads (msg_data msg)) in
  let* student_id := lift (py_getitem data "student_id") in
  let* lecture_id := lift (py_getitem data "lecture_id") in
  let* ts := lift (py_getitem data "timestamp") in
  let* timestamp := lift (datetime_fromisoformat ts) in
  let* is_valid := bf_exists f student_id in
  execute_insert f student_id lecture_id timestamp is_valid >>
  (if is_valid : bool
   then pfadd f (HLL_KEY_PREFIX +:+ py_format lecture_id) student_id
   else ret tt) >>
  ret (student_id, is_valid).

(** What the body does once steps 1 to 4 are through. *)
Definition conclude (msg : message) (f : faults) (r : pyval * bool) : M unit :=
  logger_info ("Processed attendance for student " +:+ py_format r.1
               +:+ " (valid: " +:+ py_format (PyBool r.2) +:+ ")") >>
  acknowledge f msg.

(** The [except] clause. *)
Definition on_error (msg : message) (f : faults) (e : exn) : M unit :=
  logger_error ("Error processing message: " +:+ py_str_exn e) >>
  negative_acknowledge f msg.

(** The events a computation added to the trace. *)
Definition new_events (w w' : world) : list event :=
  drop (length (trace w)) (trace w').

(** The two acknowledgment calls. *)
Definition is_ack (e : event) : bool :=
  match e with Acknowledge _ => true | _ => false end.

Definition is_nack (e : event) : bool :=
  match e with NegativeAcknowledge _ => true | _ => false end.

(** The computation returned a value: it raised nothing. *)
Definition completed {A} (r : exn + A) : Prop :=
  match r with inr _ => True | inl _ => False end.

(** The world with more events recorded. *)
Definition extend (w : world) (evs : list event) : world :=
  mk_world (attendance w) (bloom w) (hll w) (trace w ++ evs).

(** The message carries an event the statement can be made for: an integer
    student id, a lecture id string, and a timestamp string that parses to a
    datetime the driver encodes as [ms] milliseconds. *)
Definition decodes (msg : message) (z : Z) (lid : string) (ms : Z) : Prop :=
  ∃ data ts dt,
    msg_data msg = Json data ∧
    py_getitem data "student_id" = inr (PyInt z) ∧
    py_getitem data "lecture_id" = inr (PyStr lid) ∧
    py_getitem data "timestamp" = inr (PyStr ts) ∧
    fromisoformat ts = Some dt ∧
    cql_encode_datetime dt = inr ms.

(** The row written for a decoded event whose student id the Bloom filter
    answered [v] for. *)
Definition row_for (z : Z) (lid : string) (ms : Z) (v : bool) : row :=
  mk_row z lid ms v.

(** The lecture's HyperLogLog after the student id was added. *)
Definition hll_added (lid : string) (z : Z) (h : gmap string sketch) : gmap string sketch :=
  let k := HLL_KEY_PREFIX +:+ lid in
  <[k := sketch_add (pretty z) (default sketch_empty (h !! k))]> h.

(** Nothing in the table or among the HyperLogLog keys belongs to [l]. *)
Definition unseen (l : string) (w : world) : Prop :=
  (∀ k : string * Z * Z, k.1.1 = l → attendance w !! k = None) ∧
  hll w !! (HLL_KEY_PREFIX +:+ l) = None.

(** The message does not carry the lecture id [l]. *)
Definition other_lecture (l : string) (msg : message) : Prop :=
  ∀ data, msg_data msg = Json data → py_getitem data "lecture_id" ≠ inr (PyStr l).

End ProcessorVocabulary.

(** ** pandas: the Series operations [generate_insights] uses

    A Series of counts is the list of its (index, value) pairs, in order. *)

(** The number of entries of a column that hold [k]. *)
Definition count_rows {K} `{EqDecision K} (column : list K) (k : K) : Z :=
  Z.of_nat (length (filter (k =.) column)).

(** [df.groupby(col).size()]: for each value the column takes, in ascending
    order, the number of rows that hold it. *)
Definition groupby_size {K} `{EqDecision K} (le : relation K)
    `{∀ x y, Decision (le x y)} (column : list K) : list (K * Z) :=
  (λ k, (k, count_rows column k)) <$> merge_sort le (remove_dups column).

(** [a < b] on rationals. *)
Definition Qltb (a b : Q) : bool := negb (Qle_bool b a).

(** [Series.median()]: [None] is NaN, the median of an empty Series. The
    value is an integer or a half-integer, which a float represents exactly. *)
Definition median (values : list Z) : option Q :=
  let s := merge_sort Z.le values in
  let n := length s in
  if Nat.even n then
    a ← s !! (n / 2 - 1)%nat; b ← s !! (n / 2)%nat; Some (Qmake (a + b) 2)
  else inject_Z <$> s !! (n / 2)%nat.

Definition sum_Z (values : list Z) : Z := foldr Z.add 0 values.

(** [Series.mean()], exactly. *)
Definition mean (values : list Z) : Q :=
  Qdiv (inject_Z (sum_Z values)) (inject_Z (Z.of_nat (length values))).

(** The square of [Series.std()], the sample standard deviation (one degree
    of freedom removed): [None] is NaN, for fewer than two values. *)
Definition var (values : list Z) : option Q :=
  if (length values <? 2)%nat then None
  else
    let m := mean values in
    let sq := foldr (λ x acc, Qplus (Qmult (Qminus (inject_Z x) m) (Qminus (inject_Z x) m)) acc)
                    (inject_Z 0) values in
    Some (Qdiv sq (inject_Z (Z.of_nat (length values) - 1))).

(** [value > threshold] against a float threshold; false against NaN. *)
Definition gt_threshold (threshold : option Q) (value : Z) : bool :=
  match threshold with
  | Some q => Qltb q (inject_Z value)
  | None => false
  end.

(** [value > median + std], decided on the squares over the rationals (the
    rounding of the float square root is not modelled); false when either
    is NaN. *)
Definition gt_median_plus_std (values : list Z) (value : Z) : bool :=
  match median values, var values with
  | Some m, Some v =>
      let d := Qminus (inject_Z value) m in
      Qltb (inject_Z 0) d && Qltb v (Qmult d d)
  | _, _ => false
  end.

(** [s.head(n)] and [s.tail(n)] *)
Definition head {A} (n : nat) (s : list A) : list A := take n s.
Definition tail {A} (n : nat) (s : list A) : list A := drop (length s - n) s.

(** [Series.sort_values(ascending=False)] with the default [kind]: the
    result holds the same entries, the values in descending order. Which of
    two entries with equal values comes first is left to the sort: the
    default kind, quicksort, is documented as not stable. *)
Class SortValues : Type := {
  sort_values_desc : list (string * Z) → list (string * Z);
  sort_values_desc_perm s : sort_values_desc s ≡ₚ s;
  sort_values_desc_sorted s : Sorted (λ a b, b.2 ≤ a.2) (sort_values_desc s)
}.

(** A sort that keeps entries with equal values in the order it found them:
    the values are put in descending order by insertion. *)
Fixpoint insert_desc (x : string * Z) (s : list (string * Z)) : list (string * Z) :=
  match s with
  | [] => [x]
  | y :: rest => if y.2 <=? x.2 then x :: y :: rest else y :: insert_desc x rest
  end.

Definition stable_desc (s : list (string * Z)) : list (string * Z) :=
  foldr insert_desc [] s.

(** The values put in ascending order by insertion, read backwards: a sort
    that meets the contract above and leaves entries with equal values in
    the reverse of the order they had. *)
Fixpoint insert_asc (x : string * Z) (s : list (string * Z)) : list (string * Z) :=
  match s with
  | [] => [x]
  | y :: rest => if x.2 <=? y.2 then x :: y :: rest else y :: insert_asc x rest
  end.

Definition reversed_asc (s : list (string * Z)) : list (string * Z) :=
  reverse (foldr insert_asc [] s).

(** ** [attendance_analysis.py] *)

(** A key of a result dict: a student id, or a string. *)
Inductive key : Type :=
  | KInt (z : Z)
  | KStr (s : string).

(** A value of a result dict: a count, or a nested dict of counts. *)
Inductive dval : Type :=
  | Count (n : Z)
  | Nested (d : list (key * Z)).

Record insight : Type := mk_insight {
  title : string;
  description : string;
  data : list (key * dval)
}.

(** [Series.to_dict()], the dict as the list of its items in order. *)
Definition to_dict {K} (mk : K → key) (s : list (K * Z)) : list (key * Z) :=
  (λ kv, (mk kv.1, kv.2)) <$> s.

(** A dict of counts as the [data] of an insight. *)
Definition counts (d : list (key * Z)) : list (key * dval) :=
  (λ kv, (kv.1, Count kv.2)) <$> d.

(** [_fetch_attendance_data]: the whole table as a DataFrame, a list of rows;
    the empty list is the empty DataFrame. *)
Definition _fetch_attendance_data (t : table) : list row :=
  let lecture_ids := cql_select_distinct_lecture t in
  match lecture_ids with
  | [] => []
  | _ =>
      let all_records := lecture_ids ≫= (λ l, cql_select_lecture l t) in
      match all_records with
      | [] => []
      | _ => all_records
      end
  end.

Definition late_threshold : Z := 9.

(** [df[df['hour'] >= late_threshold].groupby('student_id').size()] *)
Definition late_students (df : list row) : list (Z * Z) :=
  groupby_size Z.le
    (student_id <$> filter (λ r, late_threshold ≤ hour_of (timestamp r)) df).

(** [late_students[late_students > late_students.median()]] *)
Definition frequent_late (df : list row) : list (Z * Z) :=
  let late := late_students df in
  filter (λ kv, gt_threshold (median (late.*2)) kv.2 = true) late.

(** [df.groupby('day_of_week').size()] *)
Definition day_patterns (df : list row) : list (string * Z) :=
  groupby_size String.le (day_name ∘ timestamp <$> df).

Section Analyzer.
Context `{SortValues}.

(** [df.groupby('lecture_id').size().sort_values(ascending=False)] *)
Definition lecture_attendance (df : list row) : list (string * Z) :=
  sort_values_desc (groupby_size String.le (lecture_id <$> df)).

(** [lecture_attendance.head(3)] and [lecture_attendance.tail(3)] *)
Definition most_attended (df : list row) : list (string * Z) :=
  head 3 (lecture_attendance df).

Definition least_attended (df : list row) : list (string * Z) :=
  tail 3 (lecture_attendance df).

(** [student_consistency[student_consistency > median + std]] *)
Definition consistent_students (df : list row) : list (Z * Z) :=
  let student_consistency := groupby_size Z.le (student_id <$> df) in
  filter (λ kv, gt_median_plus_std (student_consistency.*2) kv.2 = true)
         student_consistency.

(** [df[~df['is_valid']].groupby('student_id').size()] *)
Definition invalid_attempts (df : list row) : list (Z * Z) :=
  groupby_size Z.le (student_id <$> filter (λ r, is_valid r = false) df).

(** [generate_insights], on the table the session reads. *)
Definition generate_insights (t : table) : list insight :=
  let df := _fetch_attendance_data t in
  match df with
  | [] => []
  | _ =>
      [ mk_insight "Habitual Latecomers"
          ("Found " +:+ pretty (length (frequent_late df))
           +:+ " students who frequently arrive after " +:+ pretty late_threshold
           +:+ ":00 AM")
          (counts (to_dict KInt (frequent_late df)));
        mk_insight "Attendance by Day"
          "Distribution of attendance across different days"
          (counts (to_dict KStr (day_patterns df)));
        mk_insight "Lecture Attendance Rankings"
          "Most and least attended lectures"
          [ (KStr "most_attended", Nested (to_dict KStr (most_attended df)));
            (KStr "least_attended", Nested (to_dict KStr (least_attended df))) ];
        mk_insight "Most Consistent Attendees"
          "Students with above-average attendance"
          (counts (to_dict KInt (consistent_students df)));
        mk_insight "Invalid Attendance Attempts"
          "Number of invalid attendance attempts by student ID"
          (match invalid_attempts df with
           | [] => []
           | s => counts (to_dict KInt s)
           end) ]
  end.
End Analyzer.

(** The line feed character. *)
Definition newline : string := String (Ascii.ascii_of_nat 10) "".

(** [str] of a dict key inside an f-string. *)
Definition py_str_key (k : key) : string :=
  match k with
  | KInt z => pretty z
  | KStr s => s
  end.

(** The lines [print_insights] prints for one item of an insight's data. *)
Definition print_item (item : key * dval) : list string :=
  match item.2 with
  | Nested d =>
      (newline +:+ py_str_key item.1 +:+ ":")
      :: ((λ kv, "  " +:+ py_str_key kv.1 +:+ ": " +:+ pretty kv.2) <$> d)
  | Count n => [py_str_key item.1 +:+ ": " +:+ pretty n]
  end.

(** The lines printed for one insight. *)
Definition print_insight (i : insight) : list string :=
  [newline +:+ "=== " +:+ title i +:+ " ==="; description i; "Data:"]
  ++ (match data i with
      | [] => ["No data available"]
      | d => d ≫= print_item
      end)
  ++ [String.concat "" (replicate 50 "-")].

(** [print_insights]: the text of each [print] call, in order. *)
Definition print_insights (insights : list insight) : list string :=
  match insights with
  | [] => [newline +:+ "No insights available - no attendance data found."]
  | _ => insights ≫= print_insight
  end.

(** ** The vocabulary of the rankings' properties *)

(** Descending order of the counts. *)
Definition desc (a b : string * Z) : Prop := b.2 ≤ a.2.

(** Ascending order of the counts. *)
Definition asc (a b : string * Z) : Prop := a.2 ≤ b.2.

(** Lectures with equal counts stand in ascending order of [lecture_id]. *)
Definition ties_by_lecture_id (s : list (string * Z)) : Prop :=
  StronglySorted (λ a b, a.2 = b.2 → strict String.le a.1 b.1) s.

(** The per-lecture tally the rankings are cut from. *)
Definition lecture_tally (df : list row) : list (string * Z) :=
  groupby_size String.le (lecture_id <$> df).

(** ** Example data *)

(** The one student the Bloom filter knows. *)
Definition known_students (item : string) : bool := bool_decide (item = "12345").

(** Payloads in the shape [data_generator.py] sends them. *)
Definition entry_payload (flag rest : list (string * pyval)) : pyval :=
  PyDict ([("student_id", PyInt 12345);
           ("timestamp", PyStr "2024-03-04T09:15:00");
           ("lecture_id", PyStr "LECTURE_20240304")] ++ flag ++ rest).

(** A known student's entry that the producer flagged invalid. *)
Definition generated_entry : pyval :=
  entry_payload [("is_valid", PyBool false)] [("event_type", PyStr "entry")].

Definition entry_without_flag : pyval :=
  entry_payload [] [("event_type", PyStr "entry")].

Definition entry_without_event_type : pyval := entry_payload [] [].

(** An empty table and no HyperLogLog key. *)
Definition demo_world : @world exact_sketch := @fresh_world exact_sketch known_students.

(** The row persisted for the example entry. *)
Definition demo_row : row :=
  mk_row 12345 "LECTURE_20240304" 1709543700000 true.

(** One turn of the loop with every service reachable. *)
Definition run (msg : message) (w : @world exact_sketch) : @world exact_sketch :=
  (@process_message demo_config generator_isoformat exact_sketch msg no_faults w).1.

(** Minute [i] of hour [h] on 2024-03-04, in milliseconds since the epoch. *)
Definition at_hour (h i : Z) : Z := 1709510400000 + h * 3600000 + i * 60000.

(** [n] events of one student in one lecture, a minute apart. *)
Definition events (sid : Z) (lecture : string) (h : Z) (n : nat) : list row :=
  (λ i, mk_row sid lecture (at_hour h (Z.of_nat i)) true) <$> seq 0 n.

(** The table after the rows were inserted. *)
Definition load (rows : list row) : table := foldr cql_insert ∅ rows.

(** Five events after nine for each of the students 101 and 102, one for
    student 103 and four earlier ones. *)
Definition late_5_5_1 : table :=
  load (events 101 "LECTURE_20240304" 10 5 ++ events 102 "LECTURE_20240304" 11 5
        ++ events 103 "LECTURE_20240304" 9 1 ++ events 103 "LECTURE_20240304" 8 4).

(** Four lectures with 1, 1, 2 and 2 events. *)
Definition four_lectures : list row :=
  events 101 "L0" 10 1 ++ events 102 "L1" 10 1 ++ events 103 "L2" 10 2
  ++ events 104 "L3" 10 2.

(** Five lectures with 10, 8, 6, 4 and 2 events. *)
Definition five_lectures : list row :=
  events 101 "L1" 10 10 ++ events 102 "L2" 10 8 ++ events 103 "L3" 10 6
  ++ events 104 "L4" 10 4 ++ events 105 "L5" 10 2.

(** ** Further vocabulary of the pipeline *)

(** The time of day of a [datetime] is in range. *)
Definition time_of_day_ok (dt : datetime) : Prop :=
  0 ≤ hour dt < 24 ∧ 0 ≤ minute dt < 60 ∧ 0 ≤ second dt < 60 ∧
  0 ≤ microsecond dt < 1000000.

(** The date of a [datetime] is a day of the calendar. *)
Definition date_ok (dt : datetime) : Prop :=
  1 ≤ year dt ≤ 9999 ∧ 1 ≤ month dt ≤ 12 ∧
  1 ≤ day dt ≤ days_in_month (year dt) (month dt).

(** [dt.weekday()]: Monday is 0. *)
Definition weekday (dt : datetime) : Z :=
  (toordinal (year dt) (month dt) (day dt) + 6) mod 7.

Section OutcomeVocabulary.
Context `{Config, IsoFormat, HyperLogLog}.

(** The three services answer every call made for the message. *)
Definition services_answer (f : faults) : Prop :=
  bf_exists_fault f = None ∧ insert_fault f = None ∧ pfadd_fault f = None.

(** The two worlds hold the same table, Bloom filter and HyperLogLog keys;
    their traces may differ. *)
Definition same_stores (w w' : world) : Prop :=
  attendance w = attendance w' ∧ bloom w = bloom w' ∧ hll w = hll w'.

(** A decoded event whose student id fits the table's [int] column and
    whose lecture id can be a partition key. *)
Definition storable (msg : message) (z : Z) (lid : string) (ms : Z) : Prop :=
  decodes msg z lid ms ∧ -2147483648 ≤ z ≤ 2147483647 ∧ lid ≠ "".

End OutcomeVocabulary.

Section ExactCountVocabulary.
Context `{Config}.
Local Existing Instance exact_sketch.

(** Every item an exact sketch holds is the student id of a row of the
    sketch's lecture. *)
Definition counted_are_recorded (w : world) : Prop :=
  ∀ l (s : gset string) item,
    hll w !! (HLL_KEY_PREFIX +:+ l) = Some s → item ∈ s →
    ∃ z ts, item = pretty z ∧ (l, ts, z) ∈ dom (attendance w).

End ExactCountVocabulary.

(** ** [data_generator.py] *)

(** The decimal digit [d] as a character. *)
Definition digit_char (d : Z) : Ascii.ascii := Ascii.ascii_of_nat (48 + Z.to_nat d).

(** [n] in two, four and six decimal digits, zero-padded, before [rest]. *)
Definition pad2 (n : Z) (rest : string) : string :=
  String (digit_char (n / 10)) (String (digit_char (n mod 10)) rest).

Definition pad4 (n : Z) (rest : string) : string :=
  pad2 (n / 100) (pad2 (n mod 100) rest).

Definition pad6 (n : Z) (rest : string) : string :=
  pad2 (n / 10000) (pad4 (n mod 10000) rest).

(** [dt.isoformat()] of a naive datetime: the fraction is left out when the
    microseconds are zero. *)
Definition isoformat (dt : datetime) : string :=
  pad4 (year dt) ("-" +:+ pad2 (month dt) ("-" +:+ pad2 (day dt) ("T" +:+
  pad2 (hour dt) (":" +:+ pad2 (minute dt) (":" +:+ pad2 (second dt)
  (if microsecond dt =? 0 then "" else "." +:+ pad6 (microsecond dt) "")))))).

(** [dt.strftime('%Y%m%d')], for a year of four digits. *)
Definition strftime_Ymd (dt : datetime) : string :=
  pad4 (year dt) (pad2 (month dt) (pad2 (day dt) "")).

(** [d.replace(hour=h, minute=mi, second=0, microsecond=0)] *)
Definition replace_time (d : datetime) (h mi : Z) : datetime :=
  mk_datetime (year d) (month d) (day d) h mi 0 0.

(** The calendar day after [y]-[m]-[d]. *)
Definition next_day (y m d : Z) : Z * Z * Z :=
  if d <? days_in_month y m then (y, m, d + 1)
  else if m <? 12 then (y, m + 1, 1)
  else (y + 1, 1, 1).

(** [dt + timedelta(hours=h, minutes=mi)] for a delta that is not negative
    and less than a day. *)
Definition add_timedelta (dt : datetime) (h mi : Z) : datetime :=
  let total := (hour dt + h) * 60 + minute dt + mi in
  let '(y, m, d) :=
    if total <? 1440 then (year dt, month dt, day dt)
    else next_day (year dt) (month dt) (day dt) in
  mk_datetime y m d ((total / 60) mod 24) (total mod 60) (second dt) (microsecond dt).

(** A day of the calendar, in a year [strftime] writes with four digits. *)
Definition calendar_day (d : datetime) : Prop :=
  1000 ≤ year d ≤ 9999 ∧ 1 ≤ month d ≤ 12 ∧
  1 ≤ day d ≤ days_in_month (year d) (month d).

(** One message body, as [json.dumps] receives it. *)
Definition attendance_record (sid : Z) (t : datetime) (flag : bool)
    (event_type : string) : pyval :=
  PyDict [("student_id", PyInt sid);
          ("timestamp", PyStr (isoformat t));
          ("lecture_id", PyStr ("LECTURE_" +:+ strftime_Ymd t));
          ("is_valid", PyBool flag);
          ("event_type", PyStr event_type)].

(** What the random number generator returned for one attendance day of a
    student: the day, the entry hour and minute, the hours and minutes
    stayed, and the invalid id chosen when an invalid attempt is made. *)
Record day_draws : Type := mk_day_draws {
  on_day : datetime;
  entry_hour : Z;
  entry_minute : Z;
  stay_hours : Z;
  stay_minutes : Z;
  invalid_attempt : option Z
}.

(** The same for one student: the id, the punctuality, the days attended. *)
Record student_draws : Type := mk_student_draws {
  the_student : Z;
  is_punctual : bool;
  attendance_days : list day_draws
}.

(** The same for one standalone invalid attempt. *)
Record standalone_draws : Type := mk_standalone_draws {
  invalid_id : Z;
  random_day : datetime;
  random_hour : Z;
  random_minute : Z
}.

Definition entry_time (d : day_draws) : datetime :=
  replace_time (on_day d) (entry_hour d) (entry_minute d).

Definition exit_time (d : day_draws) : datetime :=
  add_timedelta (entry_time d) (stay_hours d) (stay_minutes d).

(** The messages sent for one attendance day: entry, exit, and the invalid
    attempt if there is one. *)
Definition day_messages (sid : Z) (d : day_draws) : list pyval :=
  [attendance_record sid (entry_time d) true "entry";
   attendance_record sid (exit_time d) true "exit"]
  ++ match invalid_attempt d with
     | Some invalid_id => [attendance_record invalid_id (entry_time d) false "entry"]
     | None => []
     end.

(** [generate_student_data]: the message bodies sent, in order, when nothing
    interrupts the run. [json.dumps] and the consumer's [json.loads] are
    inverse on these bodies, so a body is also what the processor reads. *)
Definition generate_student_data (students : list student_draws)
    (standalone : list standalone_draws) : list pyval :=
  (students ≫= λ s, attendance_days s ≫= day_messages (the_student s))
  ++ ((λ a, attendance_record (invalid_id a)
              (replace_time (random_day a) (random_hour a) (random_minute a))
              false "entry") <$> standalone).

(** The draws [random] and [faker] can return; how many students, days and
    standalone attempts there are is left open. *)
Definition day_draws_ok (punctual : bool) (d : day_draws) : Prop :=
  calendar_day (on_day d) ∧
  (if punctual then 8 ≤ entry_hour d ≤ 9 else 9 ≤ entry_hour d ≤ 11) ∧
  0 ≤ entry_minute d ≤ 59 ∧
  3 ≤ stay_hours d ≤ 4 ∧ 0 ≤ stay_minutes d ≤ 59 ∧
  ∀ i, invalid_attempt d = Some i → 100000 ≤ i ≤ 999999.

Definition student_draws_ok (s : student_draws) : Prop :=
  10000 ≤ the_student s ≤ 99999 ∧
  Forall (day_draws_ok (is_punctual s)) (attendance_days s).

Definition standalone_draws_ok (a : standalone_draws) : Prop :=
  100000 ≤ invalid_id a ≤ 999999 ∧ calendar_day (random_day a) ∧
  8 ≤ random_hour a ≤ 17 ∧ 0 ≤ random_minute a ≤ 59.

(** A timestamp the generator sends: a calendar day, a time of day, no
    microseconds. *)
Definition sendable (t : datetime) : Prop :=
  calendar_day t ∧ time_of_day_ok t ∧ microsecond t = 0.

(** The Bloom filter behind [BF.ADD] and [BF.EXISTS]: the set of the bits
    that are set, for hash functions that give each item its bit positions.
    An item is answered true when all its bits are set. *)
Section BloomFilter.
Context (positions : string → list nat).

Definition bf_add (item : string) (bits : gset nat) : gset nat :=
  list_to_set (positions item) ∪ bits.

Definition bf_answer (bits : gset nat) (item : string) : bool :=
  bool_decide (Forall (λ i, i ∈ bits) (positions item)).

(** The loop that adds every valid student id to the filter. *)
Definition add_valid_ids (ids : list Z) (bits : gset nat) : gset nat :=
  foldr (λ z, bf_add (pretty z)) bits ids.
End BloomFilter.

(** ** Further example data *)


(** Every call to Redis for the HyperLogLog fails. *)
Definition pfadd_down : faults :=
  mk_faults None None (Some (DriverError "ConnectionError" "Connection refused")) None None
    (InvalidRequest "Invalid query").

(** 2024-03-04 09:15:00, a Monday. *)
Definition monday_morning : datetime := mk_datetime 2024 3 4 9 15 0 0.

(** One punctual student who attends on 2024-03-04 from 09:15 for three and
    a half hours, with an invalid attempt made at the same time. *)
Definition one_day : day_draws :=
  mk_day_draws (mk_datetime 2024 3 4 14 23 11 123456) 9 15 3 30 (Some 100001).

Definition one_student : list student_draws := [mk_student_draws 12345 true [one_day]].

(** A filter with one hash function, the length of the item. *)
Definition by_length (item : string) : list nat := [String.length item].

(** * Facts about the table *)

Lemma filter_none {A} (P : A → Prop) `{∀ x, Decision (P x)} (l : list A) :
  (∀ x, x ∈ l → ¬ P x) → filter P l = [].
Proof.
  induction l as [|x l IH]; intros Hl; [done|].
  rewrite filter_cons_False by (apply Hl; left).
  apply IH. intros y Hy. apply Hl. by right.
Qed.

Lemma primary_key_row_of kv : primary_key (row_of kv) = kv.1.
Proof. by destruct kv as [[[l t] s] v]. Qed.

Lemma count_key (l : list (string * Z * Z * bool)) k v :
  NoDup l.*1 → (k, v) ∈ l →
  length (filter (λ x, primary_key x = k) (row_of <$> l)) = 1%nat.
Proof.
  induction l as [|[k' v'] l IH]; intros Hnd Hin; [by apply elem_of_nil in Hin|].
  rewrite fmap_cons in Hnd. apply NoDup_cons in Hnd as [Hk' Hnd]. rewrite fmap_cons.
  destruct (decide (k' = k)) as [->|Hne].
  - rewrite filter_cons_True by apply primary_key_row_of.
    cbn [length]. f_equal.
    rewrite filter_none; [done|].
    intros x (kv & -> & Hkv)%list_elem_of_fmap. rewrite primary_key_row_of.
    intros <-. apply Hk'. apply list_elem_of_fmap. by exists kv.
  - rewrite filter_cons_False by (rewrite primary_key_row_of; done).
    apply IH; [done|]. apply elem_of_cons in Hin as [?|?]; [by simplify_eq|done].
Qed.

(** A key present in the table is the key of exactly one of the rows its
    partition's [SELECT] returns. *)
Lemma select_count (t : table) k :
  is_Some (t !! k) →
  length (filter (λ x, primary_key x = k) (cql_select_lecture k.1.1 t)) = 1%nat.
Proof.
  intros [v Hv]. unfold cql_select_lecture.
  rewrite merge_sort_Permutation.
  apply (count_key _ k v).
  - apply NoDup_fst_map_to_list.
  - apply elem_of_map_to_list, map_lookup_filter_Some. done.
Qed.

(** A partition no key belongs to is empty. *)
Lemma select_empty (t : table) l :
  (∀ k, k.1.1 = l → t !! k = None) → cql_select_lecture l t = [].
Proof.
  intros Hl. unfold cql_select_lecture.
  rewrite (map_empty_filter_2 _ t); [by rewrite map_to_list_empty|].
  intros k v Hk Heq. rewrite (Hl k) in Hk; done.
Qed.

(** * Properties of the ingestion pipeline *)

Section ProcessorFacts.
Context `{Config, IsoFormat, HyperLogLog}.
Local Open Scope M_scope.

Lemma bind_assoc {A B C} (m : M A) (k1 : A → M B) (k2 : B → M C) w :
  bind (bind m k1) k2 w = bind m (λ a, bind (k1 a) k2) w.
Proof. unfold bind. destruct (m w) as [w1 [e|a]]; done. Qed.

Lemma bind_ext {A B} (m : M A) (k k' : A → M B) w :
  (∀ a w1, k a w1 = k' a w1) → bind m k w = bind m k' w.
Proof. intros Hk. unfold bind. destruct (m w) as [w1 [e|a]]; auto. Qed.

Lemma bind_ret_l {A B} (a : A) (k : A → M B) w : bind (ret a) k w = k a w.
Proof. done. Qed.

(** The loop body is steps 1 to 4, then the log record and the
    acknowledgment, all under the one [except] clause. *)
Lemma process_message_ingest msg f w :
  process_message msg f w =
  try_except (let* r := ingest msg f in conclude msg f r) (on_error msg f) w.
Proof.
  unfold process_message, try_except.
  match goal with
  | |- match ?a with _ => _ end = match ?b with _ => _ end =>
      replace b with a; [done|]
  end.
  symmetry. unfold ingest.
  repeat (rewrite bind_assoc; apply bind_ext; intros).
  by rewrite bind_ret_l.
Qed.

(** Inversion of the monad's operations. *)
Lemma bind_inr {A B} (m : M A) (k : A → M B) w w' b :
  bind m k w = (w', inr b) → ∃ a w1, m w = (w1, inr a) ∧ k a w1 = (w', inr b).
Proof. unfold bind. destruct (m w) as [w1 [e|a]]; [done|eauto]. Qed.

Lemma bind_inl {A B} (m : M A) (k : A → M B) w w' e :
  bind m k w = (w', inl e) →
  m w = (w', inl e) ∨ ∃ a w1, m w = (w1, inr a) ∧ k a w1 = (w', inl e).
Proof. unfold bind. destruct (m w) as [w1 [e'|a]]; [intros [= -> ->]|]; eauto. Qed.

Lemma lift_inr {A} (r : exn + A) w w' a : lift r w = (w', inr a) → w' = w ∧ r = inr a.
Proof. by intros [= -> ->]. Qed.

Lemma lift_inl {A} (r : exn + A) w w' e : lift r w = (w', inl e) → w' = w ∧ r = inl e.
Proof. by intros [= -> ->]. Qed.

Lemma fail_on_inr o w w' u : fail_on o w = (w', inr u) → w' = w ∧ o = None.
Proof. destruct o; [done|]. by intros [= ->]. Qed.

Lemma fail_on_inl o w w' e : fail_on o w = (w', inl e) → w' = w ∧ o = Some e.
Proof. destruct o; [|done]. by intros [= -> ->]. Qed.

Lemma gets_inv {A} (p : world → A) w w' r : gets p w = (w', r) → w' = w ∧ r = inr (p w).
Proof. by intros [= <- <-]. Qed.

Lemma modify_inv g w w' r : modify g w = (w', r) → w' = g w ∧ r = inr tt.
Proof. by intros [= <- <-]. Qed.

Lemma ret_inv {A} (a : A) w w' r : ret a w = (w', r) → w' = w ∧ r = inr a.
Proof. by intros [= <- <-]. Qed.

Lemma accepted_inr {A} f (literal : option A) w w' a :
  accepted f literal w = (w', inr a) → w' = w ∧ literal = Some a.
Proof. destruct literal; [|done]. by intros [= -> ->]. Qed.

Lemma accepted_inl {A} f (literal : option A) w w' e :
  accepted f literal w = (w', inl e) → w' = w.
Proof. destruct literal; [done|]. by intros [= ->]. Qed.

(** Inversion of a run, whichever way it ended. *)
Ltac invert_run :=
  repeat match goal with
  | Hr : bind _ _ _ = (_, inr _) |- _ =>
      apply bind_inr in Hr as (? & ? & ? & ?)
  | Hr : bind _ _ _ = (_, inl _) |- _ =>
      apply bind_inl in Hr as [?|(? & ? & ? & ?)]
  | Hr : lift _ _ = (_, inr _) |- _ => apply lift_inr in Hr as [-> ?]
  | Hr : lift _ _ = (_, inl _) |- _ => apply lift_inl in Hr as [-> ?]
  | Hr : fail_on _ _ = (_, inr _) |- _ => apply fail_on_inr in Hr as [-> ?]
  | Hr : fail_on _ _ = (_, inl _) |- _ => apply fail_on_inl in Hr as [-> ?]
  | Hr : accepted _ _ _ = (_, inr _) |- _ => apply accepted_inr in Hr as [-> ?]
  | Hr : accepted _ _ _ = (_, inl _) |- _ => apply accepted_inl in Hr as ->
  | Hr : ret _ _ = _ |- _ => apply ret_inv in Hr as [-> ?]
  | Hr : gets _ _ = _ |- _ => apply gets_inv in Hr as [-> ?]
  | Hr : modify _ _ = _ |- _ => apply modify_inv in Hr as [-> ?]
  | Hr : emit _ _ = _ |- _ => apply modify_inv in Hr as [-> ?]
  end; simplify_eq.

Lemma bf_exists_inr f item w w' v :
  bf_exists f item w = (w', inr v) →
  ∃ arg, redis_encode item = inr arg ∧ bf_exists_fault f = None ∧
    v = bloom w arg ∧
    w' = mk_world (attendance w) (bloom w) (hll w)
           (trace w ++ [BF_EXISTS BLOOM_FILTER_KEY arg v]).
Proof.
  unfold bf_exists. intros Hr. invert_run.
  eexists; split_and!; eauto.
Qed.

Lemma bf_exists_inl f item w w' e :
  bf_exists f item w = (w', inl e) → w' = w.
Proof. unfold bf_exists. intros Hr. by invert_run. Qed.

Lemma execute_insert_inr f sid lid dt v w w' u :
  execute_insert f sid lid dt v w = (w', inr u) →
  ∃ z l ms, sid = PyInt z ∧ lid = PyStr l ∧ cql_encode_datetime dt = inr ms ∧
    insert_fault f = None ∧
    let r := mk_row z l ms v in
    w' = mk_world (cql_insert r (attendance w)) (bloom w) (hll w)
           (trace w ++ [CQL_INSERT r]).
Proof.
  unfold execute_insert. intros Hr. invert_run.
  destruct sid; try done. destruct lid; try done.
  unfold cql_int, cql_key_text in *. repeat case_match; simplify_eq/=.
  eexists _, _, _. split_and!; eauto.
Qed.

Lemma execute_insert_inl f sid lid dt v w w' e :
  execute_insert f sid lid dt v w = (w', inl e) → w' = w.
Proof. unfold execute_insert. intros Hr. by invert_run. Qed.

Lemma pfadd_inr f key item w w' u :
  pfadd f key item w = (w', inr u) →
  ∃ arg, redis_encode item = inr arg ∧ pfadd_fault f = None ∧
    w' = mk_world (attendance w) (bloom w)
           (<[key := sketch_add arg (default sketch_empty (hll w !! key))]> (hll w))
           (trace w ++ [PFADD key arg]).
Proof.
  unfold pfadd. intros Hr. invert_run.
  eexists; split_and!; eauto.
Qed.

Lemma pfadd_inl f key item w w' e :
  pfadd f key item w = (w', inl e) → w' = w.
Proof. unfold pfadd. intros Hr. by invert_run. Qed.

Lemma decodes_fun msg z lid ms z' lid' ms' :
  decodes msg z lid ms → decodes msg z' lid' ms' → z' = z ∧ lid' = lid ∧ ms' = ms.
Proof.
  intros (d & ts & dt & Hd & Hs & Hl & Ht & Hf & He)
         (d' & ts' & dt' & Hd' & Hs' & Hl' & Ht' & Hf' & He').
  assert (d' = d) as -> by congruence.
  assert (ts' = ts) as -> by congruence.
  assert (dt' = dt) as -> by congruence.
  split_and!; congruence.
Qed.

Lemma datetime_fromisoformat_inr x dt :
  datetime_fromisoformat x = inr dt → ∃ ts, x = PyStr ts ∧ fromisoformat ts = Some dt.
Proof.
  unfold datetime_fromisoformat. destruct x as [| | | |ts| |]; try done.
  destruct (fromisoformat ts) eqn:Hf; [|done]. intros [= ->]. eauto.
Qed.

Lemma json_loads_inr p data : json_loads p = inr data → p = Json data.
Proof. destruct p; by intros [= ->]. Qed.

(** The shape of a completed run of steps 1 to 4: the Bloom filter answered
    [v] for the encoded student id, the row with that [is_valid] is in the
    table, and the lecture's HyperLogLog got the id exactly when [v] holds. *)
Lemma ingest_completed msg f w w1 sid v :
  ingest msg f w = (w1, inr (sid, v)) →
  ∃ z lid ms,
    decodes msg z lid ms ∧ sid = PyInt z ∧ v = bloom w (pretty z) ∧
    w1 = mk_world (cql_insert (row_for z lid ms v) (attendance w)) (bloom w)
           (if v then hll_added lid z (hll w) else hll w)
           (trace w ++ BF_EXISTS BLOOM_FILTER_KEY (pretty z) v
              :: CQL_INSERT (row_for z lid ms v)
              :: (if v then [PFADD (HLL_KEY_PREFIX +:+ lid) (pretty z)] else [])).
Proof.
  unfold ingest. intros Hr.
  do 5 (apply bind_inr in Hr as (? & ? & Hl & Hr); apply lift_inr in Hl as [-> ?]).
  apply bind_inr in Hr as (v' & ? & Hb & Hr).
  apply bf_exists_inr in Hb as (arg & Harg & _ & Hv & ->).
  apply bind_inr in Hr as (? & ? & Hi & Hr).
  apply execute_insert_inr in Hi as (z & lid & ms & -> & -> & Hms & _ & ->).
  apply bind_inr in Hr as (? & ? & Hp & Hr).
  apply ret_inv in Hr as [-> [= -> ->]].
  injection Harg as <-.
  match goal with Hd : datetime_fromisoformat _ = _ |- _ =>
    apply datetime_fromisoformat_inr in Hd as (ts & -> & Hiso) end.
  match goal with Hj : json_loads _ = _ |- _ => apply json_loads_inr in Hj end.
  eexists z, lid, ms. split; [by eexists _, ts, _|]. split; [done|]. split; [done|].
  cbn [attendance bloom hll trace] in *. clear Hv.
  destruct v'.
  - apply pfadd_inr in Hp as (arg & [= <-] & _ & ->).
    cbn [attendance bloom hll trace py_format]. by rewrite <- !app_assoc.
  - apply ret_inv in Hp as [-> _].
    cbn [attendance bloom hll trace]. by rewrite <- !app_assoc.
Qed.

(** A failed run of steps 1 to 4 leaves the Bloom filter and every
    HyperLogLog as they were and records no acknowledgment call; whatever it
    recorded is a Bloom filter answer, possibly followed by the write of a
    valid row whose HyperLogLog update then failed. *)
Lemma ingest_failed msg f w w1 e :
  ingest msg f w = (w1, inl e) →
  bloom w1 = bloom w ∧ hll w1 = hll w ∧
  ((attendance w1 = attendance w ∧
    (trace w1 = trace w ∨ ∃ arg v, trace w1 = trace w ++ [BF_EXISTS BLOOM_FILTER_KEY arg v]))
   ∨ ∃ z lid ms,
       decodes msg z lid ms ∧ bloom w (pretty z) = true ∧
       attendance w1 = cql_insert (row_for z lid ms true) (attendance w) ∧
       trace w1 = trace w ++ [BF_EXISTS BLOOM_FILTER_KEY (pretty z) true;
                              CQL_INSERT (row_for z lid ms true)]).
Proof.
  unfold ingest. intros Hr.
  do 5 (apply bind_inl in Hr as [Hr|(? & ? & Hl & Hr)];
        [apply lift_inl in Hr as [-> _]; by auto 10
        |apply lift_inr in Hl as [-> ?]]).
  apply bind_inl in Hr as [Hr|(v & ? & Hb & Hr)].
  { apply bf_exists_inl in Hr as ->. by auto 10. }
  apply bf_exists_inr in Hb as (arg & Harg & _ & Hv & ->).
  apply bind_inl in Hr as [Hr|(? & ? & Hi & Hr)].
  { apply execute_insert_inl in Hr as ->. cbn [attendance bloom hll trace].
    split_and!; [done..|]. left. split; [done|]. right. eauto. }
  apply execute_insert_inr in Hi as (z & lid & ms & -> & -> & Hms & _ & ->).
  apply bind_inl in Hr as [Hr|(? & ? & Hp & Hr)]; [|done].
  destruct v; [|done].
  apply pfadd_inl in Hr as ->. cbn [attendance bloom hll trace].
  split_and!; [done..|].
  injection Harg as <-.
  match goal with Hd : datetime_fromisoformat _ = _ |- _ =>
    apply datetime_fromisoformat_inr in Hd as (ts & -> & Hiso) end.
  match goal with Hj : json_loads _ = _ |- _ => apply json_loads_inr in Hj end.
  right. eexists z, lid, ms. split; [by eexists _, ts, _|].
  split; [done|]. split; [done|]. by rewrite <- app_assoc.
Qed.

Lemma new_events_extend w w' evs :
  trace w' = trace w ++ evs → new_events w w' = evs.
Proof. intros Ht. unfold new_events. by rewrite Ht, drop_app_length. Qed.

(** After a completed run of steps 1 to 4 the body logs, acknowledges, and
    only if the acknowledgment call itself raises goes through the [except]
    clause. *)
Lemma process_message_completed msg f w w1 r :
  ingest msg f w = (w1, inr r) →
  (process_message msg f w).1 =
  extend w1
    (LogInfo ("Processed attendance for student " +:+ py_format r.1
              +:+ " (valid: " +:+ py_format (PyBool r.2) +:+ ")")
     :: Acknowledge (message_id msg)
     :: match acknowledge_fault f with
        | Some e => [LogError ("Error processing message: " +:+ py_str_exn e);
                     NegativeAcknowledge (message_id msg)]
        | None => []
        end).
Proof.
  intros Hi. rewrite process_message_ingest.
  unfold try_except, bind at 1. rewrite Hi.
  unfold conclude, on_error, logger_info, logger_error, acknowledge,
    negative_acknowledge, emit, modify, bind, fail_on, raise, ret, extend.
  destruct (acknowledge_fault f), (negative_acknowledge_fault f); simpl;
    by rewrite <- ?app_assoc.
Qed.

(** After a failed run of steps 1 to 4 the [except] clause logs the
    exception's text and calls [negative_acknowledge]. *)
Lemma process_message_failed msg f w w1 e :
  ingest msg f w = (w1, inl e) →
  (process_message msg f w).1 =
  extend w1 [LogError ("Error processing message: " +:+ py_str_exn e);
             NegativeAcknowledge (message_id msg)].
Proof.
  intros Hi. rewrite process_message_ingest.
  unfold try_except, bind at 1. rewrite Hi.
  unfold on_error, logger_error, negative_acknowledge, emit, modify, bind,
    fail_on, raise, ret, extend.
  destruct (negative_acknowledge_fault f); simpl; by rewrite <- ?app_assoc.
Qed.

Lemma ingest_failed_events msg f w w1 e :
  ingest msg f w = (w1, inl e) →
  ∃ evs, trace w1 = trace w ++ evs ∧
    ∀ ev, ev ∈ evs → is_ack ev = false ∧ is_nack ev = false.
Proof.
  intros Hi. apply ingest_failed in Hi as (_ & _ & [[_ [->|(? & ? & ->)]]|(? & ? & ? & _ & _ & _ & ->)]).
  - exists []. rewrite app_nil_r. split; [done|]. by intros ? ?%elem_of_nil.
  - eexists. split; [done|]. intros ev ?%list_elem_of_singleton. by subst.
  - eexists. split; [done|]. intros ev Hev.
    apply elem_of_cons in Hev as [->|Hev%list_elem_of_singleton]; by subst.
Qed.

(** C1. For every inbound message the body calls [acknowledge] exactly when
    deserialization, validation, persistence and the conditional aggregate
    update all completed without raising; when one of them raised it calls
    [negative_acknowledge] exactly once and never [acknowledge]; and every
    [acknowledge] call comes after the completed table write of the row and,
    for a valid row, after the completed HyperLogLog update. *)
Theorem acknowledge_iff_steps_complete msg f w :
  let r := (ingest msg f w).2 in
  let w' := (process_message msg f w).1 in
  let new := new_events w w' in
  let id := message_id msg in
  (Acknowledge id ∈ new ↔ completed r) ∧
  (¬ completed r →
     length (filter (λ ev, is_nack ev = true) new) = 1%nat ∧
     ∀ ev, ev ∈ new → is_ack ev = false) ∧
  (∀ pre post, new = pre ++ Acknowledge id :: post →
     ∃ row, CQL_INSERT row ∈ pre ∧
       attendance w' !! primary_key row = Some (is_valid row) ∧
       (is_valid row = true →
          PFADD (HLL_KEY_PREFIX +:+ lecture_id row) (pretty (student_id row)) ∈ pre ∧
          is_Some (hll w' !! (HLL_KEY_PREFIX +:+ lecture_id row)))).
Proof.
  intros r w' new id. subst r w' new id.
  destruct (ingest msg f w) as [w1 [e|[sid v]]] eqn:Hi; simpl.
  - pose proof (process_message_failed _ _ _ _ _ Hi) as Hw.
    apply ingest_failed_events in Hi as (evs & Hevs & Hnone).
    rewrite Hw.
    set (tl := [LogError ("Error processing message: " +:+ py_str_exn e);
                NegativeAcknowledge (message_id msg)]).
    rewrite (new_events_extend w _ (evs ++ tl)); [|by simpl; rewrite Hevs, <- app_assoc].
    assert (∀ ev, ev ∈ evs ++ tl → is_ack ev = false) as Hnoack.
    { intros ev [Hev|Hev]%elem_of_app; [by apply Hnone|].
      apply elem_of_cons in Hev as [->|Hev%list_elem_of_singleton]; by subst. }
    split_and!.
    + split; [|done]. by intros Hack%Hnoack.
    + intros _. split; [|done].
      rewrite filter_app, length_app, filter_none; [done|].
      intros ev Hev. destruct (Hnone _ Hev) as [_ Hn]. by rewrite Hn.
    + intros pre post Heq.
      assert (Acknowledge (message_id msg) ∈ evs ++ tl) as Hack%Hnoack; [|done].
      rewrite Heq. apply elem_of_app. right. by left.
  - pose proof (process_message_completed _ _ _ _ _ Hi) as Hw.
    apply ingest_completed in Hi as (z & lid & ms & _ & -> & Hv & Hw1).
    rewrite Hw, Hw1. clear Hw Hw1.
    erewrite new_events_extend; [|by unfold extend; cbn [trace]; rewrite <- app_assoc].
    unfold extend; cbn [attendance hll trace fst snd].
    split_and!.
    + split; [done|]. intros _. destruct v; cbn [app]; rewrite !elem_of_cons; auto 10.
    + by intros [].
    + intros pre post Heq.
      exists (row_for z lid ms v). unfold row_for in *. cbn [is_valid lecture_id student_id].
      split_and!.
      * destruct v, (acknowledge_fault f); cbn [app] in Heq;
          repeat (destruct pre as [|? pre]; cbn [app] in *; simplify_eq);
          rewrite !elem_of_cons; auto.
      * unfold cql_insert. by rewrite lookup_insert_eq.
      * intros ->. unfold hll_added. rewrite lookup_insert_eq. split; [|done].
        destruct (acknowledge_fault f); cbn [app] in Heq;
          repeat (destruct pre as [|? pre]; cbn [app] in *; simplify_eq);
          rewrite !elem_of_cons; auto.
Qed.

Lemma world_eta w : w = mk_world (attendance w) (bloom w) (hll w) (trace w).
Proof. by destruct w. Qed.

(** Steps 1 to 4 either write nothing, recording at most the Bloom filter's
    answer, or write the row of the decoded event with the validity the
    filter gave, and then add the student to the lecture's HyperLogLog when
    that validity is true and the call goes through. *)
Lemma ingest_effect msg f w :
  (∃ evs, (ingest msg f w).1 = extend w evs ∧ ¬ completed (ingest msg f w).2 ∧
     ∀ ev, ev ∈ evs → ∃ arg v, ev = BF_EXISTS BLOOM_FILTER_KEY arg v)
  ∨ ∃ z lid ms (added : bool),
      decodes msg z lid ms ∧
      (added = bloom w (pretty z) ↔ completed (ingest msg f w).2) ∧
      (added = true → bloom w (pretty z) = true) ∧
      (ingest msg f w).1 =
        mk_world (cql_insert (row_for z lid ms (bloom w (pretty z))) (attendance w))
          (bloom w)
          (if added then hll_added lid z (hll w) else hll w)
          (trace w ++ BF_EXISTS BLOOM_FILTER_KEY (pretty z) (bloom w (pretty z))
             :: CQL_INSERT (row_for z lid ms (bloom w (pretty z)))
             :: (if added then [PFADD (HLL_KEY_PREFIX +:+ lid) (pretty z)] else [])).
Proof.
  destruct (ingest msg f w) as [w1 [e|[sid v]]] eqn:Hi; cbn [fst snd].
  - apply ingest_failed in Hi as (Hb & Hh & [[Ha Ht]|(z & lid & ms & Hd & Hv & Ha & Ht)]).
    + left. destruct Ht as [Ht|(arg & v & Ht)].
      * exists []. split; [|split; [by intros []|by intros ? ?%elem_of_nil]].
        rewrite (world_eta w1). unfold extend. by rewrite Ha, Hb, Hh, Ht, app_nil_r.
      * exists [BF_EXISTS BLOOM_FILTER_KEY arg v].
        split; [|split; [by intros []|intros ? ->%list_elem_of_singleton; eauto]].
        rewrite (world_eta w1). unfold extend. by rewrite Ha, Hb, Hh, Ht.
    + right. exists z, lid, ms, false. rewrite Hv. split_and!; [done|..|done|].
      * split; [done|by intros []].
      * rewrite (world_eta w1). by rewrite Ha, Hb, Hh, Ht.
  - apply ingest_completed in Hi as (z & lid & ms & Hd & -> & -> & ->).
    right. exists z, lid, ms, (bloom w (pretty z)). by split_and!.
Qed.

(** The body adds to what steps 1 to 4 left only log records and
    acknowledgment calls, and leaves the table, the Bloom filter and the
    HyperLogLog keys as steps 1 to 4 left them. *)
Lemma process_message_effect msg f w :
  ∃ tl, (process_message msg f w).1 = extend (ingest msg f w).1 tl ∧
    (Acknowledge (message_id msg) ∈ tl ↔ completed (ingest msg f w).2) ∧
    ∀ ev, ev ∈ tl →
      match ev with
      | LogInfo _ | LogError _ | Acknowledge _ | NegativeAcknowledge _ => True
      | _ => False
      end.
Proof.
  destruct (ingest msg f w) as [w1 [e|r]] eqn:Hi; cbn [fst snd].
  - eexists. split; [by apply process_message_failed|].
    split; [|intros ev; rewrite !elem_of_cons, elem_of_nil; by intros [->|[->|[]]]].
    rewrite !elem_of_cons, elem_of_nil. split; [|done]. by intros [|[|]].
  - eexists. split; [by apply process_message_completed|].
    split; [split; [done|intros _; rewrite !elem_of_cons; auto]|].
    intros ev. destruct (acknowledge_fault f);
      rewrite !elem_of_cons, elem_of_nil; intros; destruct_or!; by subst.
Qed.



(** What one turn of the loop recorded and left behind, in the two shapes
    [ingest_effect] distinguishes. *)
Lemma process_message_cases msg f w :
  let w' := (process_message msg f w).1 in
  let new := new_events w w' in
  (hll w' = hll w ∧ attendance w' = attendance w ∧ bloom w' = bloom w ∧
   ∀ ev, ev ∈ new →
     match ev with CQL_INSERT _ | PFADD _ _ => False | _ => True end)
  ∨ ∃ z lid ms (added : bool) tl,
      decodes msg z lid ms ∧
      (Acknowledge (message_id msg) ∈ tl ↔ added = bloom w (pretty z)) ∧
      (added = true → bloom w (pretty z) = true) ∧
      (∀ ev, ev ∈ tl →
         match ev with
         | LogInfo _ | LogError _ | Acknowledge _ | NegativeAcknowledge _ => True
         | _ => False
         end) ∧
      attendance w' = cql_insert (row_for z lid ms (bloom w (pretty z))) (attendance w) ∧
      bloom w' = bloom w ∧
      hll w' = (if added then hll_added lid z (hll w) else hll w) ∧
      new = BF_EXISTS BLOOM_FILTER_KEY (pretty z) (bloom w (pretty z))
            :: CQL_INSERT (row_for z lid ms (bloom w (pretty z)))
            :: (if added then [PFADD (HLL_KEY_PREFIX +:+ lid) (pretty z)] else []) ++ tl.
Proof.
  intros w' new. subst w' new.
  destruct (process_message_effect msg f w) as (tl & Hw' & Hack & Htl).
  destruct (ingest_effect msg f w)
    as [(evs & Hw1 & Hnc & Hevs)|(z & lid & ms & added & Hd & Hc & Hadd & Hw1)];
    rewrite Hw', Hw1; unfold extend; cbn [attendance bloom hll trace].
  - left. split_and!; [done..|].
    erewrite new_events_extend; [|by cbn [trace]; rewrite <- app_assoc].
    intros ev [Hev|Hev]%elem_of_app.
    + by destruct (Hevs _ Hev) as (? & ? & ->).
    + specialize (Htl _ Hev). by destruct ev.
  - right. exists z, lid, ms, added, tl.
    split_and!; [done|by rewrite Hack, Hc|done..|].
    erewrite new_events_extend; [done|].
    cbn [trace]. by rewrite <- app_assoc.
Qed.

(** For a processed (acknowledged) event the student id is added to the
    HyperLogLog of the event's lecture if and only if the validity computed
    for the event is true, and to no other key; and a turn in which the Bloom
    filter did not answer true leaves every HyperLogLog key as it was, so
    that every lecture's count is what it was. *)
Lemma estimator_updated_when_acknowledged msg f w :
  let w' := (process_message msg f w).1 in
  let new := new_events w w' in
  (∀ row, CQL_INSERT row ∈ new → Acknowledge (message_id msg) ∈ new →
     BF_EXISTS BLOOM_FILTER_KEY (pretty (student_id row)) (is_valid row) ∈ new ∧
     (∀ key item, PFADD key item ∈ new ↔
        is_valid row = true ∧ key = HLL_KEY_PREFIX +:+ lecture_id row ∧
        item = pretty (student_id row)) ∧
     hll w' = (if is_valid row
               then hll_added (lecture_id row) (student_id row) (hll w)
               else hll w)) ∧
  ((∀ key item, BF_EXISTS key item true ∉ new) →
     hll w' = hll w ∧
     (∀ key item, PFADD key item ∉ new) ∧
     ∀ rf lecture,
       (pfcount rf (HLL_KEY_PREFIX +:+ lecture) w').2
       = (pfcount rf (HLL_KEY_PREFIX +:+ lecture) w).2).
Proof.
  intros w' new.
  destruct (process_message_cases msg f w)
    as [(Hh & _ & _ & Hnew)|(z & lid & ms & added & tl & _ & Hack & Hadd & Htl & _ & _ & Hh & Hnew)];
    fold w' in Hh; fold w' new in Hnew.
  - split.
    + intros row Hrow%Hnew. done.
    + intros _. split_and!; [done|by intros key item ?%Hnew|].
      intros rf lecture. unfold pfcount, bind, gets.
      destruct (pfcount_fault rf); cbn [fail_on raise ret snd]; by rewrite ?Hh.
  - set (v := bloom w (pretty z)) in *.
    assert (∀ r, CQL_INSERT r ∉ tl) as Htl1 by (intros r Hr; by apply Htl in Hr).
    assert (∀ k i, PFADD k i ∉ tl) as Htl2 by (intros k i Hr; by apply Htl in Hr).
    split.
    + intros row Hrow Hacked. rewrite Hnew in Hrow, Hacked.
      assert (row = row_for z lid ms v) as ->.
      { rewrite !elem_of_cons, elem_of_app in Hrow.
        destruct Hrow as [?|[?|[Hrow|Hrow]]]; simplify_eq; [done| |by destruct (Htl1 _ Hrow)].
        destruct added; rewrite ?elem_of_cons, ?elem_of_nil in Hrow; by destruct_or!. }
      assert (added = v) as ->.
      { apply Hack. rewrite !elem_of_cons, elem_of_app in Hacked.
        destruct Hacked as [?|[?|[Ha|Ha]]]; simplify_eq; [|done].
        destruct added; rewrite ?elem_of_cons, ?elem_of_nil in Ha; by destruct_or!. }
      cbn [row_for is_valid lecture_id student_id]. rewrite Hnew.
      split_and!; [by left| |done].
      intros key item. rewrite !elem_of_cons, elem_of_app. split.
      * intros [?|[?|[Hp|Hp]]]; simplify_eq; [|by destruct (Htl2 _ _ Hp)].
        destruct v; rewrite ?elem_of_cons, ?elem_of_nil in Hp; destruct_or!; by simplify_eq.
      * intros (-> & -> & ->). do 2 right. left. by left.
    + intros Hnone.
      assert (v = false) as Hv.
      { destruct v eqn:Hv; [|done]. destruct (Hnone BLOOM_FILTER_KEY (pretty z)).
        rewrite Hnew. by left. }
      assert (added = false) as ->.
      { destruct added; [|done]. rewrite Hadd in Hv; done. }
      split_and!; [done| |].
      * intros key item. rewrite Hnew, !elem_of_cons, elem_of_app, elem_of_nil.
        intros [?|[?|[[]|Hp]]]; simplify_eq. by destruct (Htl2 _ _ Hp).
      * intros rf lecture. unfold pfcount, bind, gets.
        destruct (pfcount_fault rf); cbn [fail_on raise ret snd]; by rewrite ?Hh.
Qed.

Lemma bind_lift_inr {A B} (a : A) (k : A → M B) w : bind (lift (inr a)) k w = k a w.
Proof. done. Qed.

(** C4. Two payloads that agree on [student_id], [lecture_id] and
    [timestamp] are processed alike whatever else they carry, an [is_valid]
    field included: the same world results, so the same row is persisted; and
    the [is_valid] of a persisted row is the Bloom filter's answer for the
    row's student id. *)
Theorem validity_is_computed id d1 d2 f w :
  py_getitem d1 "student_id" = py_getitem d2 "student_id" →
  py_getitem d1 "lecture_id" = py_getitem d2 "lecture_id" →
  py_getitem d1 "timestamp" = py_getitem d2 "timestamp" →
  process_message (mk_message id (Json d1)) f w
  = process_message (mk_message id (Json d2)) f w ∧
  ∀ row,
    CQL_INSERT row ∈ new_events w (process_message (mk_message id (Json d1)) f w).1 →
    is_valid row = bloom w (pretty (student_id row)) ∧
    BF_EXISTS BLOOM_FILTER_KEY (pretty (student_id row)) (is_valid row)
      ∈ new_events w (process_message (mk_message id (Json d1)) f w).1.
Proof.
  intros Hs Hl Ht. split.
  - unfold process_message, try_except.
    cbn [msg_data json_loads message_id].
    unfold negative_acknowledge, acknowledge. cbn [message_id].
    rewrite !bind_lift_inr. by rewrite Hs, Hl, Ht.
  - intros row Hrow.
    destruct (process_message_cases (mk_message id (Json d1)) f w)
      as [(_ & _ & _ & Hnew)|(z & lid & ms & added & tl & _ & _ & _ & Htl & _ & _ & _ & Hnew)].
    + by apply Hnew in Hrow.
    + rewrite Hnew in Hrow |- *.
      assert (row = row_for z lid ms (bloom w (pretty z))) as ->.
      { rewrite !elem_of_cons, elem_of_app in Hrow.
        destruct Hrow as [?|[?|[Hrow|Hrow]]]; simplify_eq; [done| |by apply Htl in Hrow].
        destruct added; rewrite ?elem_of_cons, ?elem_of_nil in Hrow; by destruct_or!. }
      split; [done|]. by left.
Qed.

(** The one row a turn can have written is the row of the decoded event. *)
Lemma written_row msg f w row :
  CQL_INSERT row ∈ new_events w (process_message msg f w).1 →
  ∃ z lid ms,
    decodes msg z lid ms ∧ row = row_for z lid ms (bloom w (pretty z)) ∧
    attendance (process_message msg f w).1 = cql_insert row (attendance w).
Proof.
  intros Hrow.
  destruct (process_message_cases msg f w)
    as [(_ & _ & _ & Hnew)|(z & lid & ms & added & tl & Hd & _ & _ & Htl & Ha & _ & _ & Hnew)].
  { by apply Hnew in Hrow. }
  rewrite Hnew in Hrow.
  assert (row = row_for z lid ms (bloom w (pretty z))) as ->; [|by eauto 10].
  rewrite !elem_of_cons, elem_of_app in Hrow.
  destruct Hrow as [?|[?|[Hrow|Hrow]]]; simplify_eq; [done| |by apply Htl in Hrow].
  destruct added; rewrite ?elem_of_cons, ?elem_of_nil in Hrow; by destruct_or!.
Qed.

(** C2. When a message whose event was persisted is delivered again, the
    table keeps the same set of primary keys, whatever the Bloom filter
    answers the second time and whether or not the second turn succeeds: the
    partition still holds exactly one row under the event's key
    [(lecture_id, timestamp, student_id)], and the table is unchanged when
    the filter's answer for the student is. *)
Theorem redelivery_is_idempotent msg f1 f2 known' w row :
  let w1 := (process_message msg f1 w).1 in
  let w2 := (process_message msg f2
               (mk_world (attendance w1) known' (hll w1) (trace w1))).1 in
  CQL_INSERT row ∈ new_events w w1 →
  dom (attendance w2) = dom (attendance w1) ∧
  length (filter (λ r, primary_key r = primary_key row)
            (cql_select_lecture (lecture_id row) (attendance w2))) = 1%nat ∧
  (known' (pretty (student_id row)) = is_valid row → attendance w2 = attendance w1).
Proof.
  intros w1 w2 Hrow.
  apply written_row in Hrow as (z & lid & ms & Hd & -> & Ha). fold w1 in Ha.
  set (v := bloom w (pretty z)) in *.
  assert (attendance w1 !! primary_key (row_for z lid ms v) = Some v) as Hk.
  { rewrite Ha. unfold cql_insert. by rewrite lookup_insert_eq. }
  destruct (process_message_cases msg f2 (mk_world (attendance w1) known' (hll w1) (trace w1)))
    as [(_ & Ha2 & _ & _)|(z' & lid' & ms' & added & tl & Hd' & _ & _ & _ & Ha2 & _ & _ & _)];
    fold w2 in Ha2; cbn [attendance bloom] in Ha2.
  - rewrite Ha2. split_and!; [done| |done].
    apply (select_count _ (primary_key (row_for z lid ms v))). by exists v.
  - destruct (decodes_fun _ _ _ _ _ _ _ Hd Hd') as (-> & -> & ->).
    rewrite Ha2. unfold cql_insert. cbn [row_for primary_key lecture_id timestamp student_id is_valid] in *.
    split_and!.
    + rewrite dom_insert_L. apply elem_of_dom_2 in Hk.
      by apply subseteq_union_1_L, singleton_subseteq_l.
    + apply (select_count _ (lid, ms, z)).
      rewrite lookup_insert_eq. by eexists.
    + intros Hsame. rewrite Hsame. by apply insert_id.
Qed.

Lemma py_getitem_inl data k e :
  py_getitem data k = inl e → (∃ m, e = KeyError m) ∨ (∃ m, e = TypeError m).
Proof.
  unfold py_getitem. destruct data; try (intros [= <-]; eauto).
  destruct (dict_get k items); intros [= <-]; eauto.
Qed.

(** C9 (as amended). A payload on which [json.loads(msg.data().decode())]
    raises, or from which one of [student_id], [lecture_id], [timestamp]
    cannot be read, makes the body raise before any service is called: the
    exception is the one decoding or parsing raised, whatever its class, or
    the [KeyError] or [TypeError] of the failed subscription. And whatever
    exception steps 1 to 4 raise, malformed payload and backend failure
    alike, the one [except] clause logs "Error processing message: "
    followed by the exception's text and calls [negative_acknowledge]. *)
Theorem unreadable_payload_is_nacked msg f w :
  ((∀ data, msg_data msg = Json data →
      ∃ k, k ∈ ["student_id"; "lecture_id"; "timestamp"] ∧
           ¬ completed (py_getitem data k)) →
   ∃ e,
     (msg_data msg = Unreadable e ∨
      (∃ m, e = KeyError m) ∨ (∃ m, e = TypeError m)) ∧
     ingest msg f w = (w, inl e)) ∧
  (∀ w1 e, ingest msg f w = (w1, inl e) →
     (process_message msg f w).1 =
     extend w1 [LogError ("Error processing message: " +:+ py_str_exn e);
                NegativeAcknowledge (message_id msg)] ∧
     new_events w1 (process_message msg f w).1 =
       [LogError ("Error processing message: " +:+ py_str_exn e);
        NegativeAcknowledge (message_id msg)]).
Proof.
  split.
  - intros Hbad. unfold ingest.
    destruct (msg_data msg) as [e0|data] eqn:Hdata; cbn [json_loads].
    + exists e0. split; [by left|done].
    + destruct (Hbad data eq_refl) as (k & Hk & Hfail).
      rewrite bind_lift_inr.
      destruct (py_getitem data "student_id") as [e|sid] eqn:Hs.
      { exists e. split; [|done]. apply py_getitem_inl in Hs. tauto. }
      rewrite bind_lift_inr.
      destruct (py_getitem data "lecture_id") as [e|lid] eqn:Hl.
      { exists e. split; [|done]. apply py_getitem_inl in Hl. tauto. }
      rewrite bind_lift_inr.
      destruct (py_getitem data "timestamp") as [e|ts] eqn:Ht.
      { exists e. split; [|done]. apply py_getitem_inl in Ht. tauto. }
      rewrite !elem_of_cons, elem_of_nil in Hk.
      destruct Hk as [->|[->|[->|[]]]]; destruct Hfail;
        [by rewrite Hs|by rewrite Hl|by rewrite Ht].
  - intros w1 e Hi. pose proof (process_message_failed _ _ _ _ _ Hi) as Hw.
    split; [done|]. rewrite Hw. by apply new_events_extend.
Qed.

(** ** Before and after the loop *)

Lemma extend_extend w evs evs' : extend (extend w evs) evs' = extend w (evs ++ evs').
Proof. unfold extend. cbn [attendance bloom hll trace]. by rewrite <- app_assoc. Qed.

Lemma extend_nil w : extend w [] = w.
Proof. destruct w. unfold extend. cbn [attendance bloom hll trace]. by rewrite app_nil_r. Qed.

(** The setup only records: the probe's answer and a log line, or the
    reservation and a log line, or nothing. *)
Lemma setup_bloom_filter_extends s w :
  ∃ evs, (_setup_bloom_filter s w).1 = extend w evs ∧
    ∀ ev, ev ∈ evs →
      match ev with BF_EXISTS _ _ _ | BF_RESERVE _ | LogInfo _ => True | _ => False end.
Proof.
  unfold _setup_bloom_filter, try_except_response, logger_info, emit, modify, gets, bind.
  destruct (probe_fault s) as [e|]; cbn [fail_on raise ret fst].
  - destruct (is_response_error e); cbn [fst];
      [|exists []; split; [by rewrite extend_nil|by intros ? ?%elem_of_nil]].
    destruct (reserve_fault s) as [e'|]; cbn [fail_on raise ret fst].
    + exists []. split; [|by intros ? ?%elem_of_nil]. rewrite extend_nil.
      destruct (is_response_error e'); [|done].
      by destruct (py_in "already exists" (py_str_exn e')).
    + exists [BF_RESERVE BLOOM_FILTER_KEY; LogInfo "Created new Bloom Filter"].
      split; [unfold extend; cbn [attendance bloom hll trace]; by rewrite <- app_assoc|].
      intros ev. rewrite !elem_of_cons, elem_of_nil. intros; destruct_or!; by subst.
  - exists [BF_EXISTS BLOOM_FILTER_KEY "test" (bloom w "test");
            LogInfo "Bloom Filter already exists"].
    split; [unfold extend; cbn [attendance bloom hll trace]; by rewrite <- app_assoc|].
    intros ev. rewrite !elem_of_cons, elem_of_nil. intros; destruct_or!; by subst.
Qed.

(** What the setup returns does not depend on the world. *)
Lemma setup_bloom_filter_result s w w' :
  (_setup_bloom_filter s w).2 = (_setup_bloom_filter s w').2.
Proof.
  unfold _setup_bloom_filter, try_except_response, logger_info, emit, modify, gets, bind.
  destruct (probe_fault s) as [e|]; cbn [fail_on raise ret snd]; [|done].
  destruct (is_response_error e); [|done].
  destruct (reserve_fault s) as [e'|]; cbn [fail_on raise ret snd]; [|done].
  destruct (is_response_error e'); [|done].
  by destruct (py_in "already exists" (py_str_exn e')).
Qed.

(** The cleanup records each client it closed, in order, up to the first
    call that raises. *)
Lemma cleanup_run s w :
  _cleanup s w =
  match pulsar_close_fault s with
  | Some e => (w, inl e)
  | None =>
      match redis_close_fault s with
      | Some e => (extend w [Closed "pulsar_client"], inl e)
      | None =>
          match cassandra_shutdown_fault s with
          | Some e => (extend w [Closed "pulsar_client"; Closed "redis_client"], inl e)
          | None =>
              (extend w [Closed "pulsar_client"; Closed "redis_client";
                         Closed "cassandra_cluster"], inr tt)
          end
      end
  end.
Proof.
  unfold _cleanup, emit, modify, bind, extend.
  destruct (pulsar_close_fault s); cbn [fail_on raise ret]; [done|].
  destruct (redis_close_fault s); cbn [fail_on raise ret attendance bloom hll trace]; [done|].
  destruct (cassandra_shutdown_fault s); cbn [fail_on raise ret attendance bloom hll trace];
    by rewrite <- ?app_assoc.
Qed.

Lemma cleanup_extends s w :
  ∃ evs, (_cleanup s w).1 = extend w evs ∧
    ∀ ev, ev ∈ evs → match ev with Closed _ => True | _ => False end.
Proof.
  rewrite cleanup_run.
  destruct (pulsar_close_fault s); [|destruct (redis_close_fault s);
    [|destruct (cassandra_shutdown_fault s)]]; cbn [fst].
  1: exists []; split; [by rewrite extend_nil|by intros ? ?%elem_of_nil].
  all: eexists; split; [done|]; intros ev; rewrite !elem_of_cons, elem_of_nil;
    intros; destruct_or!; by subst.
Qed.

(** [process_attendance] is the loop between records: the world it leaves
    is the one the setup left, when the setup raised, or the one the loop
    left, with what the end of [receive] and the cleanup recorded. *)
Lemma process_attendance_world s deliveries w :
  ∃ evs0 evs1,
    (∀ ev, ev ∈ evs0 ++ evs1 →
       match ev with
       | BF_EXISTS _ _ _ | BF_RESERVE _ | LogInfo _ | Closed _ => True
       | _ => False
       end) ∧
    (((process_attendance s deliveries w).1 = extend w evs0 ∧
      (process_attendance s deliveries w).2 = (_setup_bloom_filter s w).2 ∧
      ¬ completed (_setup_bloom_filter s w).2 ∧
      evs1 = [] ∧ ∀ ev, ev ∈ evs0 → match ev with Closed _ => False | _ => True end)
    ∨ (completed (_setup_bloom_filter s w).2 ∧
       (process_attendance s deliveries w).1
       = extend (receive_loop deliveries (extend w evs0)).1 evs1)).
Proof.
  set (w00 := extend w [LogInfo "Starting attendance processing..."]).
  assert (process_attendance s deliveries w =
          bind (_setup_bloom_filter s)
            (λ _, try_finally (receive_loop deliveries >> receive_ends s) (_cleanup s))
            w00) as -> by done.
  unfold bind.
  destruct (setup_bloom_filter_extends s w00) as (evs & Hs & Hevs).
  rewrite (setup_bloom_filter_result s w w00).
  destruct (_setup_bloom_filter s w00) as [w0 [e|[]]]; cbn [fst snd] in *; subst w0.
  - exists (LogInfo "Starting attendance processing..." :: evs), [].
    split; [|left; unfold w00; rewrite extend_extend; split_and!;
                [done|done|by intros []|done|]].
    + rewrite app_nil_r. intros ev [->|Hev]%elem_of_cons; [done|].
      specialize (Hevs _ Hev). by destruct ev.
    + intros ev [->|Hev]%elem_of_cons; [done|]. specialize (Hevs _ Hev). by destruct ev.
  - unfold try_finally, receive_ends, bind.
    destruct (receive_loop deliveries (extend w00 evs)) as [w1 [e|[]]] eqn:Hloop.
    + destruct (cleanup_extends s w1) as (evs1 & Hc & Hevs1).
      exists (LogInfo "Starting attendance processing..." :: evs), evs1.
      split; [|right; split; [done|]].
      * intros ev [[->|Hev]%elem_of_cons|Hev]%elem_of_app; [done|..].
        -- specialize (Hevs _ Hev). by destruct ev.
        -- specialize (Hevs1 _ Hev). by destruct ev.
      * unfold w00 in Hloop. rewrite extend_extend in Hloop. cbn [app] in Hloop.
        rewrite Hloop. cbn [fst]. rewrite <- Hc. by destruct (_cleanup s w1) as [? [?|?]].
    + destruct (receive_fault s) as [e|].
      * destruct (cleanup_extends s w1) as (evs1 & Hc & Hevs1).
        exists (LogInfo "Starting attendance processing..." :: evs), evs1.
        split; [|right; split; [done|]].
        -- intros ev [[->|Hev]%elem_of_cons|Hev]%elem_of_app; [done|..].
           ++ specialize (Hevs _ Hev). by destruct ev.
           ++ specialize (Hevs1 _ Hev). by destruct ev.
        -- unfold w00 in Hloop. rewrite extend_extend in Hloop. cbn [app] in Hloop.
           rewrite Hloop. cbn [fst raise]. rewrite <- Hc.
           by destruct (_cleanup s w1) as [? [?|?]].
      * cbn [logger_info emit modify].
        change (mk_world (attendance w1) (bloom w1) (hll w1)
                  (trace w1 ++ [LogInfo "Stopping attendance processing..."]))
          with (extend w1 [LogInfo "Stopping attendance processing..."]).
        destruct (cleanup_extends s (extend w1 [LogInfo "Stopping attendance processing..."]))
          as (evs1 & Hc & Hevs1).
        exists (LogInfo "Starting attendance processing..." :: evs),
               (LogInfo "Stopping attendance processing..." :: evs1).
        split; [|right; split; [done|]].
        -- intros ev [[->|Hev]%elem_of_cons|[->|Hev]%elem_of_cons]%elem_of_app; [done| |done|].
           ++ specialize (Hevs _ Hev). by destruct ev.
           ++ specialize (Hevs1 _ Hev). by destruct ev.
        -- unfold w00 in Hloop. rewrite extend_extend in Hloop. cbn [app] in Hloop.
           rewrite Hloop. cbn [fst]. rewrite extend_extend in Hc. cbn [app] in Hc.
           rewrite <- Hc. by destruct (_cleanup s _) as [? [?|?]].
Qed.

(** ** Lectures no event was processed for *)

Lemma process_message_unseen msg f w l :
  other_lecture l msg → unseen l w → unseen l (process_message msg f w).1.
Proof.
  intros Hother [Ht Hh].
  destruct (process_message_cases msg f w)
    as [(Hh' & Ha' & _ & _)|(z & lid & ms & added & tl & Hd & _ & _ & _ & Ha' & _ & Hh' & _)].
  { split; [by rewrite Ha'|by rewrite Hh']. }
  assert (lid ≠ l) as Hne.
  { destruct Hd as (data & ts & dt' & Hdata & _ & Hl & _). intros ->. by apply (Hother data). }
  split.
  - intros k Hk. rewrite Ha'. unfold cql_insert.
    rewrite lookup_insert_ne; [by apply Ht|].
    cbn [row_for primary_key lecture_id timestamp student_id]. intros <-. by apply Hne.
  - rewrite Hh'. destruct added; [|done]. unfold hll_added.
    rewrite lookup_insert_ne; [done|]. intros Heq. by apply String.app_inj in Heq.
Qed.

Lemma receive_loop_unseen deliveries w l :
  (∀ msg f, (msg, f) ∈ deliveries → other_lecture l msg) →
  unseen l w → unseen l (receive_loop deliveries w).1.
Proof.
  revert w. induction deliveries as [|[msg f] rest IH]; intros w Hall Hw; [done|].
  cbn [receive_loop]. unfold bind.
  pose proof (process_message_unseen msg f w l (Hall _ _ (list_elem_of_here _ _)) Hw) as Hw'.
  destruct (process_message msg f w) as [w' [e|[]]]; [done|].
  apply IH; [|done]. intros msg' f' Hin. apply (Hall msg' f'). by right.
Qed.

(** C10. When none of the messages the processor received carried the
    lecture id [l], [get_attendance_stats] with both services reachable
    returns normally: zero unique attendees and no attendance records. *)
Theorem stats_of_unseen_lecture known s deliveries rf l :
  (∀ msg f, (msg, f) ∈ deliveries → other_lecture l msg) →
  pfcount_fault rf = None → select_fault rf = None →
  (get_attendance_stats rf l (process_attendance s deliveries (fresh_world known)).1).2
  = inr (mk_stats 0 []).
Proof.
  intros Hall Hp Hs.
  assert (unseen l (process_attendance s deliveries (fresh_world known)).1) as [Ht Hh].
  { assert (∀ evs, unseen l (extend (fresh_world known) evs)) as Hw0
      by (intros evs; split; intros; apply lookup_empty).
    destruct (process_attendance_world s deliveries (fresh_world known))
      as (evs0 & evs1 & _ & [(-> & _)|(_ & ->)]); [done|].
    exact (receive_loop_unseen deliveries _ l Hall (Hw0 evs0)). }
  unfold get_attendance_stats, pfcount, execute_select, bind, gets, ret.
  rewrite Hp, Hs. cbn [fail_on ret snd]. rewrite Hh.
  by rewrite (select_empty _ l Ht).
Qed.

(** Any number of events whose student the Bloom filter does not know leave
    every HyperLogLog key, and with it every lecture's count, as it was. *)
Lemma receive_loop_invalid_events deliveries w :
  (∀ msg f z lid ms, (msg, f) ∈ deliveries → decodes msg z lid ms →
     bloom w (pretty z) = false) →
  hll (receive_loop deliveries w).1 = hll w ∧ bloom (receive_loop deliveries w).1 = bloom w.
Proof.
  revert w. induction deliveries as [|[msg f] rest IH]; intros w Hall; [done|].
  cbn [receive_loop]. unfold bind.
  assert (hll (process_message msg f w).1 = hll w ∧
          bloom (process_message msg f w).1 = bloom w) as [Hh Hb].
  { destruct (process_message_cases msg f w)
      as [(Hh' & _ & Hb' & _)|(z & lid & ms & added & tl & Hd & _ & Hadd & _ & _ & Hb' & Hh' & _)];
      [done|].
    split; [|done]. rewrite Hh'. destruct added; [|done].
    rewrite (Hall msg f z lid ms) in Hadd; [by specialize (Hadd eq_refl)|by left|done]. }
  destruct (process_message msg f w) as [w' [e|[]]]; [done|]. cbn [fst] in *.
  destruct (IH w') as [Hh' Hb'].
  { intros msg' f' z lid ms Hin Hd. rewrite Hb. apply (Hall msg' f' z lid ms); [by right|done]. }
  split; congruence.
Qed.

End ProcessorFacts.

(** * Facts about the sorts *)

Lemma insert_desc_perm x s : insert_desc x s ≡ₚ x :: s.
Proof.
  induction s as [|y s IH]; [done|]. cbn [insert_desc].
  destruct (y.2 <=? x.2); [done|]. rewrite IH. apply Permutation_swap.
Qed.

Lemma stable_desc_perm s : stable_desc s ≡ₚ s.
Proof.
  induction s as [|x s IH]; [done|].
  unfold stable_desc in *. cbn [foldr]. by rewrite insert_desc_perm, IH.
Qed.

Lemma insert_desc_sorted x s :
  StronglySorted desc s → StronglySorted desc (insert_desc x s).
Proof.
  induction s as [|y s IH]; intros Hs; cbn [insert_desc].
  { repeat constructor. }
  apply StronglySorted_cons in Hs as [Hy Hs].
  destruct (Z.leb_spec y.2 x.2) as [Hle|Hlt].
  - apply StronglySorted_cons. split; [|by apply StronglySorted_cons].
    constructor; [done|]. eapply Forall_impl; [done|]. unfold desc. intros; lia.
  - apply StronglySorted_cons. split; [|by apply IH].
    rewrite insert_desc_perm. constructor; [unfold desc; lia|done].
Qed.

Lemma stable_desc_sorted s : Sorted (λ a b, b.2 ≤ a.2) (stable_desc s).
Proof.
  apply (StronglySorted_Sorted (R:=desc)).
  induction s as [|x s IH]; [constructor|].
  unfold stable_desc in *. cbn [foldr]. by apply insert_desc_sorted.
Qed.

Lemma insert_asc_perm x s : insert_asc x s ≡ₚ x :: s.
Proof.
  induction s as [|y s IH]; [done|]. cbn [insert_asc].
  destruct (x.2 <=? y.2); [done|]. rewrite IH. apply Permutation_swap.
Qed.

Lemma insert_asc_sorted x s :
  StronglySorted asc s → StronglySorted asc (insert_asc x s).
Proof.
  induction s as [|y s IH]; intros Hs; cbn [insert_asc].
  { repeat constructor. }
  apply StronglySorted_cons in Hs as [Hy Hs].
  destruct (Z.leb_spec x.2 y.2) as [Hle|Hlt].
  - apply StronglySorted_cons. split; [|by apply StronglySorted_cons].
    constructor; [done|]. eapply Forall_impl; [done|]. unfold asc. intros; lia.
  - apply StronglySorted_cons. split; [|by apply IH].
    rewrite insert_asc_perm. constructor; [unfold asc; lia|done].
Qed.

Lemma reversed_asc_perm s : reversed_asc s ≡ₚ s.
Proof.
  unfold reversed_asc. rewrite reverse_Permutation.
  induction s as [|x s IH]; [done|]. cbn [foldr]. by rewrite insert_asc_perm, IH.
Qed.

Lemma reversed_asc_sorted s : Sorted (λ a b, b.2 ≤ a.2) (reversed_asc s).
Proof.
  unfold reversed_asc. apply (Sorted_reverse asc).
  apply (StronglySorted_Sorted (R:=asc)).
  induction s as [|x s IH]; [constructor|]. cbn [foldr]. by apply insert_asc_sorted.
Qed.

(** [sort_values] with a stable [kind]: ties keep the order of the index. *)
Definition stable_sort_values : SortValues := {|
  sort_values_desc := stable_desc;
  sort_values_desc_perm := stable_desc_perm;
  sort_values_desc_sorted := stable_desc_sorted
|}.

(** A sort within the contract of [sort_values] under which ties come
    reversed. *)
Definition reversed_sort_values : SortValues := {|
  sort_values_desc := reversed_asc;
  sort_values_desc_perm := reversed_asc_perm;
  sort_values_desc_sorted := reversed_asc_sorted
|}.

(** * Facts about [groupby] *)

Lemma count_rows_pos {K} `{EqDecision K} (column : list K) k :
  0 < count_rows column k ↔ k ∈ column.
Proof.
  unfold count_rows. induction column as [|x column IH].
  { cbn. split; [lia|by intros ?%elem_of_nil]. }
  rewrite elem_of_cons, <- IH. destruct (decide (k = x)) as [->|Hne].
  - rewrite filter_cons_True by done. cbn [length]. split; [auto|lia].
  - rewrite filter_cons_False by done. split; [auto|]. by intros [?|?].
Qed.

(** The tally has an entry for exactly the values the column takes, with the
    number of rows that hold the value. *)
Lemma elem_of_groupby_size {K} `{EqDecision K} (le : relation K)
    `{∀ x y, Decision (le x y)} (column : list K) k c :
  (k, c) ∈ groupby_size le column ↔ c = count_rows column k ∧ 0 < c.
Proof.
  unfold groupby_size. rewrite list_elem_of_fmap. split.
  - intros (k' & [= -> ->] & Hk).
    rewrite merge_sort_Permutation, elem_of_remove_dups in Hk.
    split; [done|]. by apply count_rows_pos.
  - intros [-> Hc]. exists k. split; [done|].
    rewrite merge_sort_Permutation, elem_of_remove_dups. by apply count_rows_pos.
Qed.

(** Counting a projected, filtered column counts the rows behind it. *)
Lemma count_rows_fmap_filter {A K} `{EqDecision K} (f : A → K) (P : A → Prop)
    `{∀ x, Decision (P x)} (l : list A) k :
  count_rows (f <$> filter P l) k
  = Z.of_nat (length (filter (λ x, P x ∧ f x = k) l)).
Proof.
  unfold count_rows. f_equal.
  induction l as [|x l IH]; [done|].
  destruct (decide (P x)) as [HP|HP].
  - rewrite (filter_cons_True P) by done. rewrite fmap_cons.
    destruct (decide (f x = k)) as [Hk|Hk].
    + rewrite !filter_cons_True by done. cbn [length]. by rewrite IH.
    + rewrite filter_cons_False by done.
      rewrite filter_cons_False by (by intros [_ ?]). done.
  - rewrite (filter_cons_False P) by done.
    rewrite (filter_cons_False (λ x, P x ∧ f x = k)) by (by intros [? _]). done.
Qed.

(** The index of a tally is strictly ascending. *)
Lemma groupby_size_index_sorted {K} `{EqDecision K} (le : relation K)
    `{∀ x y, Decision (le x y)} `{!PartialOrder le, !Total le} (column : list K) :
  StronglySorted (strict le) (groupby_size le column).*1.
Proof.
  unfold groupby_size.
  assert (∀ l : list K, ((λ k, (k, count_rows column k)) <$> l).*1 = l) as ->.
  { induction l as [|x l IHl]; [done|]. cbn. by rewrite IHl. }
  assert (NoDup (merge_sort le (remove_dups column))) as Hnd.
  { rewrite merge_sort_Permutation. apply NoDup_remove_dups. }
  assert (StronglySorted le (merge_sort le (remove_dups column))) as Hs.
  { apply StronglySorted_merge_sort; apply _. }
  induction Hs as [|x l Hs IH Hx]; [constructor|].
  apply NoDup_cons in Hnd as [Hx' Hnd].
  constructor; [by apply IH|].
  apply Forall_forall. intros y Hy. rewrite Forall_forall in Hx.
  split; [by apply Hx|]. intros Hyx.
  assert (x = y) as -> by (apply (anti_symm le); [by apply Hx|done]). done.
Qed.

(** * Facts about the median *)

Lemma merge_sort_perm_eq (l1 l2 : list Z) :
  l1 ≡ₚ l2 → merge_sort Z.le l1 = merge_sort Z.le l2.
Proof.
  intros Hp. apply (Sorted_unique Z.le).
  - apply Sorted_merge_sort, _.
  - apply Sorted_merge_sort, _.
  - by rewrite !merge_sort_Permutation.
Qed.

Lemma median_perm l1 l2 : l1 ≡ₚ l2 → median l1 = median l2.
Proof. intros Hp. unfold median. by rewrite (merge_sort_perm_eq l1 l2). Qed.

(** * Properties of the analytics engine *)

(** The DataFrame holds exactly the rows of the table. *)
Lemma elem_of_select_lecture (t : table) l r :
  r ∈ cql_select_lecture l t ↔ t !! primary_key r = Some (is_valid r) ∧ lecture_id r = l.
Proof.
  unfold cql_select_lecture. rewrite merge_sort_Permutation, list_elem_of_fmap. split.
  - intros ([k v] & -> & Hkv).
    apply elem_of_map_to_list, map_lookup_filter_Some in Hkv as [Hkv Hl].
    by destruct k as [[l' ts] s].
  - intros [Hr <-]. exists (primary_key r, is_valid r). split; [by destruct r|].
    by apply elem_of_map_to_list, map_lookup_filter_Some.
Qed.

Lemma elem_of_select_distinct_lecture (t : table) l :
  l ∈ cql_select_distinct_lecture t ↔ ∃ k, is_Some (t !! k) ∧ k.1.1 = l.
Proof.
  unfold cql_select_distinct_lecture. rewrite elem_of_elements, elem_of_map.
  split; intros (k & Hk1 & Hk2); exists k.
  - by apply elem_of_dom in Hk2.
  - by apply elem_of_dom in Hk1.
Qed.

Lemma elem_of_fetch (t : table) r :
  r ∈ _fetch_attendance_data t ↔ t !! primary_key r = Some (is_valid r).
Proof.
  unfold _fetch_attendance_data.
  assert (r ∈ cql_select_distinct_lecture t ≫= (λ l, cql_select_lecture l t)
          ↔ t !! primary_key r = Some (is_valid r)) as Hbind.
  { rewrite list_elem_of_bind. split.
    - intros (l & Hr & _). by apply elem_of_select_lecture in Hr as [? _].
    - intros Hr. exists (lecture_id r). split; [by apply elem_of_select_lecture|].
      apply elem_of_select_distinct_lecture. exists (primary_key r). by rewrite Hr. }
  destruct (cql_select_distinct_lecture t) as [|l ls] eqn:Hls.
  { rewrite <- Hbind. done. }
  destruct ((l :: ls) ≫= (λ l, cql_select_lecture l t)) eqn:Hrows; [|done].
  by rewrite <- Hbind.
Qed.

Lemma gt_threshold_spec m c :
  gt_threshold (Some m) c = true ↔ (m < inject_Z c)%Q.
Proof.
  unfold gt_threshold, Qltb. rewrite negb_true_iff, <- not_true_iff_false, Qle_bool_iff.
  split; [apply Qnot_le_lt|apply Qlt_not_le].
Qed.

(** C6 (as amended). Habitual Latecomers reports exactly the subjects whose
    number of events at hour 9 or later is positive and strictly above the
    median of these per-subject numbers; on late counts 5, 5 and 1 the median
    is 5, no count is strictly above it, and nobody is reported. *)
Theorem latecomers_exceed_median df :
  (∀ sid c, (sid, c) ∈ frequent_late df ↔
     c = Z.of_nat (length (filter
           (λ r, late_threshold ≤ hour_of (timestamp r) ∧ student_id r = sid) df)) ∧
     0 < c ∧
     ∃ m, median (late_students df).*2 = Some m ∧ (m < inject_Z c)%Q) ∧
  ((late_students df).*2 ≡ₚ [5; 5; 1] →
     median (late_students df).*2 = Some (inject_Z 5) ∧ frequent_late df = []).
Proof.
  split.
  - intros sid c. unfold frequent_late. rewrite list_elem_of_filter. cbn [snd].
    unfold late_students at 2. rewrite elem_of_groupby_size, count_rows_fmap_filter.
    destruct (median (late_students df).*2) as [m|].
    + rewrite gt_threshold_spec. split.
      * intros [Hm [-> Hc]]. split_and!; [done..|]. by exists m.
      * intros (-> & Hc & m' & [= <-] & Hm). done.
    + cbn [gt_threshold]. split; [by intros [? _]|]. by intros (_ & _ & m & ? & _).
  - intros Hp. rewrite (median_perm _ _ Hp). split; [done|].
    unfold frequent_late. rewrite (median_perm _ _ Hp).
    apply filter_none. intros [sid c] Hin. cbn [snd].
    assert (c ∈ [5; 5; 1]) as Hc.
    { rewrite <- Hp. apply list_elem_of_fmap. by exists (sid, c). }
    rewrite !elem_of_cons, elem_of_nil in Hc. by destruct Hc as [->|[->|[->|[]]]].
Qed.

Lemma StronglySorted_take {A} (R : relation A) n l :
  StronglySorted R l → StronglySorted R (take n l).
Proof. rewrite <- (take_drop n l) at 1. apply StronglySorted_app_1_l. Qed.

Lemma StronglySorted_drop {A} (R : relation A) n l :
  StronglySorted R l → StronglySorted R (drop n l).
Proof. rewrite <- (take_drop n l) at 1. apply StronglySorted_app_1_r. Qed.

Global Instance desc_trans : Transitive desc.
Proof. unfold desc. intros a b c ??. lia. Qed.

Global Instance flip_Zle_trans : Transitive (flip Z.le).
Proof. unfold flip. intros a b c ??. lia. Qed.

Global Instance flip_Zle_antisymm : AntiSymm (=) (flip Z.le).
Proof. unfold flip. intros a b ??. lia. Qed.

Section AnalyzerFacts.
Context `{SortValues}.

(** On a table with rows the five insights carry, in order, the habitual
    latecomers, the counts per day, the two rankings, the consistent
    attendees and the invalid attempts of the fetched rows; the last is the
    empty dict when there is no invalid attempt. *)
Lemma generate_insights_data (t : table) :
  t ≠ ∅ →
  let df := _fetch_attendance_data t in
  data <$> generate_insights t
  = [ counts (to_dict KInt (frequent_late df));
      counts (to_dict KStr (day_patterns df));
      [ (KStr "most_attended", Nested (to_dict KStr (most_attended df)));
        (KStr "least_attended", Nested (to_dict KStr (least_attended df))) ];
      counts (to_dict KInt (consistent_students df));
      counts (to_dict KInt (invalid_attempts df)) ].
Proof.
  intros Ht df. apply map_choose in Ht as (k & v & Hkv).
  assert (row_of (k, v) ∈ df) as Hin.
  { apply elem_of_fetch. by destruct k as [[l ts] s]. }
  unfold generate_insights. fold df.
  destruct df as [|r rows] eqn:Hdf; [by apply elem_of_nil in Hin|].
  cbn [fmap list_fmap data]. repeat f_equal.
  by destruct (invalid_attempts (r :: rows)).
Qed.

(** C5. On a table with no rows [generate_insights] returns the empty list
    and raises nothing, and [print_insights] on that list prints the one
    notice that there is no data; on a table with rows there are five
    insights. *)
Theorem no_rows_no_insights :
  generate_insights ∅ = [] ∧
  print_insights (generate_insights ∅)
  = [newline +:+ "No insights available - no attendance data found."] ∧
  ∀ t : table, t ≠ ∅ → length (generate_insights t) = 5%nat.
Proof.
  assert (_fetch_attendance_data ∅ = []) as Hempty.
  { unfold _fetch_attendance_data, cql_select_distinct_lecture.
    by rewrite dom_empty_L, set_map_empty, elements_empty. }
  unfold generate_insights. rewrite Hempty. split_and!; [done..|].
  intros t Ht. apply map_choose in Ht as (k & v & Hkv).
  assert (row_of (k, v) ∈ _fetch_attendance_data t) as Hin.
  { apply elem_of_fetch. by destruct k as [[l ts] s]. }
  destruct (_fetch_attendance_data t); [by apply elem_of_nil in Hin|done].
Qed.


Lemma lecture_attendance_perm df : lecture_attendance df ≡ₚ lecture_tally df.
Proof. apply sort_values_desc_perm. Qed.

Lemma lecture_attendance_sorted df : StronglySorted desc (lecture_attendance df).
Proof. apply Sorted_StronglySorted; [apply _|]. apply sort_values_desc_sorted. Qed.

(** A tally whose counts are 10, 8, 6, 4, 2 in some order comes out of the
    sort with the counts in exactly that order. *)
Lemma lecture_attendance_counts df (l : list Z) :
  Sorted (flip Z.le) l → (lecture_tally df).*2 ≡ₚ l → (lecture_attendance df).*2 = l.
Proof.
  intros Hl Hp. apply (Sorted_unique (flip Z.le)); [|done|].
  - apply (Sorted_fmap snd desc (flip Z.le)); [done|apply sort_values_desc_sorted].
  - by rewrite lecture_attendance_perm.
Qed.

(** C7. The rankings are the first three and the last three entries of the
    tally sorted by descending count. When the counts are 10, 8, 6, 4, 2 the
    most attended have counts 10, 8, 6 and the least attended 6, 4, 2, the
    lecture with count 6 standing in both; with three lectures or fewer both
    lists are the whole sorted tally. *)
Theorem rankings_head_tail df :
  (most_attended df = take 3 (lecture_attendance df) ∧
   least_attended df
   = drop (length (lecture_attendance df) - 3) (lecture_attendance df)) ∧
  ((lecture_tally df).*2 ≡ₚ [10; 8; 6; 4; 2] →
     (most_attended df).*2 = [10; 8; 6] ∧
     (least_attended df).*2 = [6; 4; 2] ∧
     ∃ l, most_attended df !! 2%nat = Some (l, 6) ∧
          least_attended df !! 0%nat = Some (l, 6)) ∧
  ((length (lecture_tally df) ≤ 3)%nat →
     most_attended df = lecture_attendance df ∧
     least_attended df = lecture_attendance df ∧
     lecture_attendance df ≡ₚ lecture_tally df).
Proof.
  split; [done|]. split.
  - intros Hp.
    assert ((lecture_attendance df).*2 = [10; 8; 6; 4; 2]) as Hc.
    { apply lecture_attendance_counts; [|done]. repeat constructor; unfold flip; lia. }
    assert (length (lecture_attendance df) = 5%nat) as Hlen.
    { by rewrite <- (length_fmap snd), Hc. }
    unfold most_attended, least_attended, head, tail. rewrite Hlen.
    rewrite fmap_take, fmap_drop, Hc. split_and!; [done..|].
    destruct (lecture_attendance df !! 2%nat) as [[l c]|] eqn:Hmid.
    + assert (c = 6) as ->.
      { apply (f_equal (fmap snd)) in Hmid. rewrite <- list_lookup_fmap, Hc in Hmid.
        by injection Hmid. }
      exists l. rewrite lookup_take_lt by lia. rewrite lookup_drop. done.
    + apply lookup_ge_None in Hmid. lia.
  - intros Hlen. rewrite <- lecture_attendance_perm in Hlen.
    unfold most_attended, least_attended, head, tail.
    rewrite take_ge by done.
    replace (length (lecture_attendance df) - 3)%nat with 0%nat by lia.
    split_and!; [done..|]. apply lecture_attendance_perm.
Qed.

End AnalyzerFacts.

(** C8 (as amended). Whatever the sort does with ties, the rankings list the
    lectures in descending order of their event counts, each lecture with the
    number of its events: of two lectures with different counts the one with
    more events comes first, in the whole ranking and so in both lists.
    Nothing orders lectures with equal counts. *)
Theorem rankings_order (S : SortValues) df :
  StronglySorted desc (@lecture_attendance S df) ∧
  Sorted desc (@most_attended S df) ∧ Sorted desc (@least_attended S df) ∧
  ∀ l c, (l, c) ∈ @lecture_attendance S df ↔
         c = count_rows (lecture_id <$> df) l ∧ 0 < c.
Proof.
  split_and!.
  - apply lecture_attendance_sorted.
  - apply StronglySorted_Sorted, StronglySorted_take, lecture_attendance_sorted.
  - apply StronglySorted_Sorted, StronglySorted_drop, lecture_attendance_sorted.
  - intros l c. rewrite lecture_attendance_perm. apply elem_of_groupby_size.
Qed.

(** * Further properties of the ingestion pipeline *)

(** ** The timestamp the driver sends *)

(** An integer below [2 ^ 53] in magnitude is a double. *)
Lemma Qred_inject_Z z : Qred (inject_Z z) = inject_Z z.
Proof.
  unfold Qred, inject_Z.
  pose proof (Z.ggcd_gcd z 1) as Hg. pose proof (Z.ggcd_correct_divisors z 1) as Hd.
  destruct (Z.ggcd z 1) as [g [a b]]. cbn [fst] in Hg. rewrite Z.gcd_1_r in Hg.
  subst g. destruct Hd as [-> Hb]. rewrite !Z.mul_1_l in *. by subst b.
Qed.

Lemma round_half_even_1 a : round_half_even a 1 = a.
Proof.
  unfold round_half_even. rewrite Z.mod_1_r, Z.div_1_r. done.
Qed.

Lemma round_double_int z : Z.abs z < 2 ^ 53 → round_double (inject_Z z) = inject_Z z.
Proof.
  intros Hz. unfold round_double. cbn [Qnum Qden inject_Z].
  destruct (Z.eqb_spec (Z.abs z) 0) as [H0|H0].
  { assert (z = 0) as -> by lia. done. }
  change (Z.log2 1) with 0. rewrite Z.sub_0_r.
  set (n := Z.abs z) in *.
  assert (0 < n) as Hn by lia.
  pose proof (Z.log2_spec n Hn) as [Hlo Hhi].
  pose proof (Z.log2_nonneg n) as He.
  assert (Z.log2 n < 53) as He'.
  { apply Z.log2_lt_pow2; lia. }
  rewrite (Z.max_l 0 (- Z.log2 n)) by lia.
  rewrite (Z.max_r 0 (Z.log2 n)) by lia.
  rewrite Z.pow_0_r, Z.mul_1_r, Z.mul_1_l.
  destruct (Z.ltb_spec n (2 ^ Z.log2 n)) as [?|_]; [lia|].
  set (s := Z.log2 n - 52).
  assert (s ≤ 0) as Hs by lia.
  rewrite (Z.max_l 0 s) by lia. rewrite (Z.max_r 0 (- s)) by lia.
  rewrite Z.pow_0_r, round_half_even_1.
  transitivity (Qred (inject_Z z)); [|apply Qred_inject_Z]. apply Qred_complete.
  assert (0 < 2 ^ (- s)) as Hp by (apply Z.pow_pos_nonneg; lia).
  assert (Z.sgn z * n = z) as Hsgn by (unfold n; lia).
  destruct (Z.leb_spec 0 s) as [H0s|H0s].
  - assert (s = 0) as -> by lia. unfold Qeq. cbn. rewrite Z.pow_0_r in *. lia.
  - unfold Qeq. cbn [Qnum Qden inject_Z]. rewrite Z2Pos.id by done. nia.
Qed.

Lemma int_of_float_inject_Z z : int_of_float (inject_Z z) = z.
Proof. unfold int_of_float. cbn. apply Z.quot_1_r. Qed.

(** The encoding of a naive datetime without microseconds whose
    milliseconds since the epoch a double holds exactly. *)
Lemma cql_encode_datetime_seconds (dt : datetime) :
  microsecond dt = 0 → Z.abs (timegm dt * 1000) < 2 ^ 53 →
  cql_encode_datetime dt = inr (timegm dt * 1000).
Proof.
  intros Hus Hb. unfold cql_encode_datetime, timegm_utctimetuple. cbn [utcoffset local naive].
  rewrite Hus. f_equal.
  unfold float_add, float_mul, float_div, float_of_int.
  rewrite (round_double_int (timegm dt)) by lia.
  rewrite <- inject_Z_mult, round_double_int by done.
  change (round_double (inject_Z 0)) with (inject_Z 0).
  change (round_double (inject_Z 0 / inject_Z 1000)) with (inject_Z 0).
  rewrite <- inject_Z_plus, Z.add_0_r, round_double_int by done.
  apply int_of_float_inject_Z.
Qed.

Lemma days_in_month_le y m : 28 ≤ days_in_month y m ≤ 31.
Proof.
  unfold days_in_month.
  destruct (m =? 2); [destruct (is_leap y); lia|].
  destruct ((m =? 4) || (m =? 6) || (m =? 9) || (m =? 11)); lia.
Qed.

Lemma toordinal_bounds y m d :
  1 ≤ y ≤ 9999 → 1 ≤ m ≤ 12 → 1 ≤ d ≤ 31 → 1 ≤ toordinal y m d ≤ 3652135.
Proof.
  intros Hy Hm Hd. unfold toordinal, days_before_year, days_before_month.
  assert (0 ≤ nth (Z.to_nat m)
                [0; 0; 31; 59; 90; 120; 151; 181; 212; 243; 273; 304; 334] 0 ≤ 334) as Hc.
  { assert (m = 1 ∨ m = 2 ∨ m = 3 ∨ m = 4 ∨ m = 5 ∨ m = 6 ∨ m = 7 ∨ m = 8 ∨ m = 9
            ∨ m = 10 ∨ m = 11 ∨ m = 12) as Hcases by lia.
    destruct_or!; subst m; by compute. }
  set (c := nth _ _ _) in *.
  assert (0 ≤ (if (2 <? m) && is_leap y then 1 else 0) ≤ 1) as Hl
    by (destruct ((2 <? m) && is_leap y); lia).
  set (l := if (2 <? m) && is_leap y then 1 else 0) in *.
  clearbody c l. Z.to_euclidean_division_equations.
  lia.
Qed.

Lemma timegm_double (dt : datetime) :
  date_ok dt → time_of_day_ok dt → Z.abs (timegm dt * 1000) < 2 ^ 53.
Proof.
  intros (Hy & Hm & Hd) (Hh & Hmi & Hs & _).
  pose proof (days_in_month_le (year dt) (month dt)).
  pose proof (toordinal_bounds (year dt) (month dt) (day dt) Hy Hm ltac:(lia)).
  unfold timegm. change (2 ^ 53) with 9007199254740992. lia.
Qed.

(** A naive datetime of the calendar without microseconds is sent as its
    seconds since the epoch, times a thousand. *)
Lemma cql_encode_datetime_naive (dt : datetime) :
  date_ok dt → time_of_day_ok dt → microsecond dt = 0 →
  cql_encode_datetime dt = inr (timegm dt * 1000).
Proof.
  intros Hd Ht Hus. apply cql_encode_datetime_seconds; [done|by apply timegm_double].
Qed.

Lemma hour_of_timegm dt :
  time_of_day_ok dt → hour_of (timegm dt * 1000) = hour dt.
Proof.
  intros (Hh & Hm & Hs & Hu).
  unfold hour_of, timegm.
  generalize (toordinal (year dt) (month dt) (day dt) - 719163). intros D.
  assert ((D * 86400 + hour dt * 3600 + minute dt * 60 + second dt) * 1000
          = (D * 24 + hour dt) * 3600000 + (minute dt * 60 + second dt) * 1000) as -> by lia.
  rewrite Z.div_add_l by lia. rewrite (Z.div_small (_ * 1000)) by lia.
  rewrite Z.add_0_r, Z.add_comm, Z.mod_add by lia. apply Z.mod_small. lia.
Qed.

Lemma weekday_of_timegm dt :
  time_of_day_ok dt → weekday_of (timegm dt * 1000) = weekday dt.
Proof.
  intros (Hh & Hm & Hs & Hu).
  unfold weekday_of, weekday, timegm.
  generalize (toordinal (year dt) (month dt) (day dt)). intros o.
  assert (((o - 719163) * 86400 + hour dt * 3600 + minute dt * 60 + second dt) * 1000
          = (o - 719163) * 86400000
            + (hour dt * 3600 + minute dt * 60 + second dt) * 1000) as -> by lia.
  rewrite Z.div_add_l by lia. rewrite (Z.div_small (_ * 1000)) by lia.
  replace (o - 719163 + 0 + 3) with (o + 6 + (-102738) * 7) by lia.
  by rewrite Z.mod_add by lia.
Qed.

Section ProcessorMore.
Context `{Config, IsoFormat, HyperLogLog}.
Local Open Scope M_scope.

Lemma cql_int_Some v z :
  cql_int v = Some z → v = PyInt z ∧ -2147483648 ≤ z ≤ 2147483647.
Proof.
  unfold cql_int. destruct v; try done.
  destruct (Z.leb_spec (-2147483648) z0), (Z.leb_spec z0 2147483647);
    cbn [andb]; try done. intros [= <-]. split; [done|lia].
Qed.

Lemma ingest_storable msg f w z lid ms :
  storable msg z lid ms →
  ingest msg f w =
  match bf_exists_fault f with
  | Some e => (w, inl e)
  | None =>
      let v := bloom w (pretty z) in
      let r := row_for z lid ms v in
      let t1 := trace w ++ [BF_EXISTS BLOOM_FILTER_KEY (pretty z) v] in
      match insert_fault f with
      | Some e => (mk_world (attendance w) (bloom w) (hll w) t1, inl e)
      | None =>
          let a2 := cql_insert r (attendance w) in
          let t2 := t1 ++ [CQL_INSERT r] in
          if v then
            match pfadd_fault f with
            | Some e => (mk_world a2 (bloom w) (hll w) t2, inl e)
            | None =>
                (mk_world a2 (bloom w) (hll_added lid z (hll w))
                   (t2 ++ [PFADD (HLL_KEY_PREFIX +:+ lid) (pretty z)]),
                 inr (PyInt z, true))
            end
          else (mk_world a2 (bloom w) (hll w) t2, inr (PyInt z, false))
      end
  end.
Proof.
  intros [(data & ts & dt' & Hd & Hs & Hl & Ht & Hf & He) [Hr Hne]].
  unfold ingest. rewrite Hd. cbn [json_loads].
  rewrite bind_lift_inr, Hs, bind_lift_inr, Hl, bind_lift_inr, Ht, bind_lift_inr.
  unfold datetime_fromisoformat. rewrite Hf. cbv beta iota. rewrite bind_lift_inr.
  assert ((-2147483648 <=? z) && (z <=? 2147483647) = true) as Hrange.
  { apply andb_true_intro. split; apply Z.leb_le; lia. }
  unfold bf_exists, execute_insert, pfadd, row_for, hll_added, accepted, bind, lift,
    gets, emit, modify.
  cbn [redis_encode cql_int cql_key_text py_format].
  rewrite Hrange, He, (decide_False (P := lid = "")) by done.
  destruct (bf_exists_fault f) as [e|]; [done|].
  cbn [fail_on ret bloom attendance hll trace].
  destruct (insert_fault f) as [e|]; [done|].
  cbn [fail_on ret bloom attendance hll trace].
  destruct (bloom w (pretty z)); [|done].
  destruct (pfadd_fault f) as [e|]; done.
Qed.

Lemma cql_key_text_Some v l : cql_key_text v = Some l → v = PyStr l ∧ l ≠ "".
Proof.
  unfold cql_key_text. destruct v; try done.
  destruct (decide (s = "")); [done|]. by intros [= <-].
Qed.

Lemma execute_insert_range f sid lid dt v w w' u :
  execute_insert f sid lid dt v w = (w', inr u) →
  ∃ z l, sid = PyInt z ∧ -2147483648 ≤ z ≤ 2147483647 ∧ lid = PyStr l ∧ l ≠ "".
Proof.
  unfold execute_insert. intros Hr.
  apply bind_inr in Hr as (? & ? & _ & Hr).
  apply bind_inr in Hr as (? & ? & _ & Hr).
  apply bind_inr in Hr as (z & ? & Hz & Hr).
  apply accepted_inr in Hz as [_ Hz]. apply cql_int_Some in Hz as [-> Hz].
  apply bind_inr in Hr as (l & ? & Hl & _).
  apply accepted_inr in Hl as [_ Hl]. apply cql_key_text_Some in Hl as [-> Hl]. eauto 10.
Qed.

Lemma pfadd_inl_fault f key z w w' e :
  pfadd f key (PyInt z) w = (w', inl e) → pfadd_fault f = Some e.
Proof.
  unfold pfadd. cbn [redis_encode]. rewrite bind_lift_inr. intros Hr.
  apply bind_inl in Hr as [Hr|(? & ? & _ & Hr)].
  - by apply fail_on_inl in Hr as [_ ?].
  - apply bind_inl in Hr as [Hr|(? & ? & _ & Hr)]; by apply modify_inv in Hr as [_ ?].
Qed.

(** Steps 1 to 4 complete only for an event the table can hold. *)
Lemma ingest_completed_storable msg f w w1 r :
  ingest msg f w = (w1, inr r) → ∃ z lid ms, storable msg z lid ms.
Proof.
  intros Hi. destruct r as [sid v].
  unfold ingest in Hi.
  do 5 (apply bind_inr in Hi as (? & ? & Hl & Hi); apply lift_inr in Hl as [-> ?]).
  apply bind_inr in Hi as (? & ? & _ & Hi).
  apply bind_inr in Hi as (? & ? & Hx & Hi).
  pose proof (execute_insert_range _ _ _ _ _ _ _ _ Hx) as (z & l & -> & Hz & -> & Hne).
  apply execute_insert_inr in Hx as (z' & l' & ms & [= <-] & [= <-] & Hms & _ & _).
  match goal with Hd : datetime_fromisoformat _ = _ |- _ =>
    apply datetime_fromisoformat_inr in Hd as (ts & -> & Hiso) end.
  match goal with Hj : json_loads _ = _ |- _ => apply json_loads_inr in Hj end.
  exists z, l, ms. split; [by eexists _, ts, _|done].
Qed.

(** Steps 1 to 4 fail either before anything is stored, or at the
    HyperLogLog update of a valid event whose row is already written. *)
Lemma ingest_failed_storable msg f w w1 e :
  ingest msg f w = (w1, inl e) →
  (attendance w1 = attendance w ∧ bloom w1 = bloom w ∧ hll w1 = hll w)
  ∨ ∃ z lid ms,
      storable msg z lid ms ∧ bf_exists_fault f = None ∧ insert_fault f = None ∧
      pfadd_fault f = Some e ∧ bloom w (pretty z) = true.
Proof.
  intros Hi.
  pose proof (ingest_failed _ _ _ _ _ Hi) as (Hb & Hh & _).
  unfold ingest in Hi.
  do 5 (apply bind_inl in Hi as [Hi|(? & ? & Hl & Hi)];
        [apply lift_inl in Hi as [-> _]; by auto
        |apply lift_inr in Hl as [-> ?]]).
  apply bind_inl in Hi as [Hi|(v & ? & Hx & Hi)].
  { apply bf_exists_inl in Hi as ->. by auto. }
  apply bf_exists_inr in Hx as (arg & Harg & Hbf & Hv & ->).
  apply bind_inl in Hi as [Hi|(? & ? & Hx & Hi)].
  { apply execute_insert_inl in Hi as ->. by auto. }
  pose proof (execute_insert_range _ _ _ _ _ _ _ _ Hx) as (z & lid & -> & Hz & -> & Hne).
  apply execute_insert_inr in Hx as (z' & lid' & ms & [= <-] & [= <-] & Hms & Hins & ->).
  apply bind_inl in Hi as [Hi|(? & ? & _ & Hi)]; [|done].
  destruct v; [|done].
  apply pfadd_inl_fault in Hi.
  injection Harg as <-.
  match goal with Hd : datetime_fromisoformat _ = _ |- _ =>
    apply datetime_fromisoformat_inr in Hd as (ts & -> & Hiso) end.
  match goal with Hj : json_loads _ = _ |- _ => apply json_loads_inr in Hj end.
  right. exists z, lid, ms. split_and!; [|done..].
  split; [|done]. by eexists _, ts, _.
Qed.

(** Whether a message carries an event the table can hold is decided by the
    message alone. *)
Lemma storable_dec msg :
  (∃ z lid ms, storable msg z lid ms) ∨ (∀ z lid ms, ¬ storable msg z lid ms).
Proof.
  destruct (ingest msg no_faults (fresh_world (λ _, false))) as [w1 [e|r]] eqn:Hi.
  - right. intros z lid ms Hs.
    rewrite (ingest_storable _ _ _ _ _ _ Hs) in Hi. done.
  - left. by eapply ingest_completed_storable.
Qed.

(** What a turn of the loop returns: it raises only what
    [negative_acknowledge] raised. *)
Lemma process_message_result msg f w :
  (process_message msg f w).2 =
  match (ingest msg f w).2, acknowledge_fault f, negative_acknowledge_fault f with
  | inr _, None, _ => inr tt
  | _, _, Some e => inl e
  | _, _, None => inr tt
  end.
Proof.
  rewrite process_message_ingest. unfold try_except, bind at 1.
  destruct (ingest msg f w) as [w1 [e|r]]; cbn [snd];
    unfold conclude, on_error, logger_info, logger_error, acknowledge,
      negative_acknowledge, emit, modify, bind, fail_on, raise, ret;
    by destruct (acknowledge_fault f), (negative_acknowledge_fault f).
Qed.

(** The trace after a turn is the trace before it and the turn's events. *)
Lemma process_message_trace msg f w :
  trace (process_message msg f w).1
  = trace w ++ new_events w (process_message msg f w).1.
Proof.
  destruct (process_message_effect msg f w) as (tl & Hw' & _).
  unfold new_events. rewrite Hw'.
  destruct (ingest_effect msg f w) as [(evs & Hw1 & _)|(z & lid & ms & added & _ & _ & _ & Hw1)];
    rewrite Hw1; unfold extend; cbn [trace];
    rewrite <- !app_assoc; by rewrite drop_app_length.
Qed.

Lemma process_message_only_adds msg f w :
  let w' := (process_message msg f w).1 in
  bloom w' = bloom w ∧
  dom (attendance w) ⊆ dom (attendance w') ∧
  dom (hll w) ⊆ dom (hll w') ∧
  trace w `prefix_of` trace w'.
Proof.
  intros w'.
  assert (trace w `prefix_of` trace w') as Ht.
  { unfold w'. rewrite process_message_trace. by eexists. }
  destruct (process_message_cases msg f w)
    as [(Hh & Ha & Hb & _)|(z & lid & ms & added & tl & _ & _ & _ & _ & Ha & Hb & Hh & _)];
    fold w' in Hh, Ha, Hb; rewrite Hh, Ha, Hb.
  - done.
  - split_and!; [done|apply dom_insert_subseteq| |done].
    destruct added; [apply dom_insert_subseteq|done].
Qed.


Lemma receive_loop_only_adds deliveries w :
  let w' := (receive_loop deliveries w).1 in
  bloom w' = bloom w ∧
  dom (attendance w) ⊆ dom (attendance w') ∧
  dom (hll w) ⊆ dom (hll w') ∧
  trace w `prefix_of` trace w'.
Proof.
  revert w. induction deliveries as [|[msg f] rest IH]; intros w; [done|].
  cbn [receive_loop]. unfold bind.
  pose proof (process_message_only_adds msg f w) as (Hb & Ha & Hh & Ht).
  destruct (process_message msg f w) as [w1 [e|[]]]; cbn [fst] in *; [done|].
  destruct (IH w1) as (Hb' & Ha' & Hh' & Ht').
  split_and!; [congruence|by etrans..].
Qed.

(** What one turn records: the events of steps 1 to 4, none of them an
    acknowledgment call, then the log record and the acknowledgment calls. *)
Lemma process_message_events msg f w :
  ∃ evs,
    (∀ ev, ev ∈ evs → is_ack ev = false ∧ is_nack ev = false) ∧
    new_events w (process_message msg f w).1 =
    evs ++ match (ingest msg f w).2 with
           | inl e => [LogError ("Error processing message: " +:+ py_str_exn e);
                       NegativeAcknowledge (message_id msg)]
           | inr r =>
               LogInfo ("Processed attendance for student " +:+ py_format r.1
                        +:+ " (valid: " +:+ py_format (PyBool r.2) +:+ ")")
               :: Acknowledge (message_id msg)
               :: match acknowledge_fault f with
                  | Some e => [LogError ("Error processing message: " +:+ py_str_exn e);
                               NegativeAcknowledge (message_id msg)]
                  | None => []
                  end
           end.
Proof.
  destruct (ingest msg f w) as [w1 [e|r]] eqn:Hi; cbn [snd].
  - rewrite (process_message_failed _ _ _ _ _ Hi).
    apply ingest_failed_events in Hi as (evs & Hevs & Hnone).
    exists evs. split; [done|].
    apply new_events_extend. unfold extend. cbn [trace]. by rewrite Hevs, <- app_assoc.
  - rewrite (process_message_completed _ _ _ _ _ Hi).
    destruct r as [sid v].
    apply ingest_completed in Hi as (z & lid & ms & _ & -> & _ & ->).
    eexists. split; [|apply new_events_extend; unfold extend; cbn [trace];
                      by rewrite <- app_assoc].
    intros ev. destruct v; rewrite !elem_of_cons, elem_of_nil; intros; destruct_or!; by subst.
Qed.


(** X1. [process_attendance] only ever adds: whatever it receives and
    whichever calls fail, it leaves the Bloom filter's answers as they were,
    removes no row key from the table and no HyperLogLog key, and only
    appends to what has been recorded. *)
Theorem processor_only_adds s deliveries w :
  let w' := (process_attendance s deliveries w).1 in
  bloom w' = bloom w ∧
  dom (attendance w) ⊆ dom (attendance w') ∧
  dom (hll w) ⊆ dom (hll w') ∧
  trace w `prefix_of` trace w'.
Proof.
  cbv zeta.
  destruct (process_attendance_world s deliveries w)
    as (evs0 & evs1 & _ & [(-> & _)|(_ & ->)]).
  { unfold extend. cbn [attendance bloom hll trace]. split_and!; [done..|by eexists]. }
  pose proof (receive_loop_only_adds deliveries (extend w evs0)) as (Hb & Ha & Hh & Ht).
  unfold extend at 1. cbn [attendance bloom hll trace].
  split_and!; [done..|].
  etrans; [by exists evs0|]. etrans; [exact Ht|]. by eexists.
Qed.

(** X2. One turn of the loop raises an exception exactly when
    [negative_acknowledge] was called and itself raised, and then it is that
    exception; [negative_acknowledge] is called exactly when a step before
    the acknowledgment raised or the [acknowledge] call did; and every turn
    calls [acknowledge] or [negative_acknowledge] for its message. *)
Theorem turn_raises_only_what_nack_raises msg f w :
  let new := new_events w (process_message msg f w).1 in
  (∀ e, (process_message msg f w).2 = inl e ↔
        negative_acknowledge_fault f = Some e ∧
        NegativeAcknowledge (message_id msg) ∈ new) ∧
  (NegativeAcknowledge (message_id msg) ∈ new ↔
     ¬ completed (ingest msg f w).2 ∨ is_Some (acknowledge_fault f)) ∧
  (Acknowledge (message_id msg) ∈ new ∨ NegativeAcknowledge (message_id msg) ∈ new).
Proof.
  intros new. subst new.
  destruct (process_message_events msg f w) as (evs & Hevs & ->).
  rewrite process_message_result.
  assert (∀ id, NegativeAcknowledge id ∉ evs) as Hn.
  { intros id Hin. by destruct (Hevs _ Hin). }
  assert (∀ id, Acknowledge id ∉ evs) as Ha.
  { intros id Hin. by destruct (Hevs _ Hin). }
  destruct (ingest msg f w).2 as [e0|r]; cbn [completed];
    destruct (acknowledge_fault f) as [ea|], (negative_acknowledge_fault f) as [en|];
    rewrite ?elem_of_app, ?elem_of_cons, ?elem_of_nil;
    (split_and!; [intros e; split|split|]);
    rewrite ?elem_of_app, ?elem_of_cons, ?elem_of_nil, ?is_Some_alt;
    try (intros; destruct_and?; destruct_or?; simplify_eq; by eauto 10).
  all: intros; destruct_and?; destruct_or?; simplify_eq; try done; exfalso; by eapply Hn.
Qed.





(** What [get_attendance_stats] returns when both services answer. *)
Lemma get_attendance_stats_run rf l w :
  pfcount_fault rf = None → select_fault rf = None →
  get_attendance_stats rf l w =
  (w, inr (mk_stats (from_option sketch_count 0 (hll w !! (HLL_KEY_PREFIX +:+ l)))
             ((λ r, (student_id r, timestamp r)) <$> cql_select_lecture l (attendance w)))).
Proof.
  intros Hp Hs. unfold get_attendance_stats, pfcount, execute_select, bind, gets, ret.
  by rewrite Hp, Hs.
Qed.

Lemma elem_of_records (l : string) (t : table) (s ts : Z) :
  (s, ts) ∈ (λ r, (student_id r, timestamp r)) <$> cql_select_lecture l t
  ↔ (l, ts, s) ∈ dom t.
Proof.
  rewrite list_elem_of_fmap, elem_of_dom. split.
  - intros (r & [= -> ->] & [Hr <-]%elem_of_select_lecture). by eexists.
  - intros [v Hv]. exists (mk_row s l ts v). split; [done|].
    by apply elem_of_select_lecture.
Qed.

(** X4. A row written in one turn of the loop is listed by
    [get_attendance_stats] for its lecture after any number of further
    turns: the call leaves the world as it is and returns, as attendance
    records, exactly the (student id, timestamp) pairs of the keys of the
    lecture's partition. *)
Theorem persisted_event_is_listed msg f w rest rf row :
  CQL_INSERT row ∈ new_events w (process_message msg f w).1 →
  pfcount_fault rf = None → select_fault rf = None →
  let w' := (receive_loop rest (process_message msg f w).1).1 in
  ∃ st, get_attendance_stats rf (lecture_id row) w' = (w', inr st) ∧
    (student_id row, timestamp row) ∈ attendance_records st ∧
    ∀ s ts, (s, ts) ∈ attendance_records st ↔ (lecture_id row, ts, s) ∈ dom (attendance w').
Proof.
  intros Hrow Hp Hs w'.
  rewrite (get_attendance_stats_run _ _ _ Hp Hs). eexists. split; [done|].
  cbn [attendance_records]. split; [|intros; apply elem_of_records].
  apply elem_of_records.
  apply written_row in Hrow as (z & lid & ms & _ & _ & Ha).
  pose proof (receive_loop_only_adds rest (process_message msg f w).1) as (_ & Hdom & _).
  apply Hdom. rewrite Ha. unfold cql_insert. rewrite dom_insert_L.
  apply elem_of_union_l, elem_of_singleton. by destruct row.
Qed.

Lemma process_message_same_stores msg f w :
  same_stores (process_message msg f w).1 (ingest msg f w).1.
Proof.
  destruct (process_message_effect msg f w) as (tl & -> & _). done.
Qed.

(** Nothing is stored for a message that carries no storable event. *)
Lemma ingest_not_storable msg f w :
  (∀ z lid ms, ¬ storable msg z lid ms) →
  same_stores (ingest msg f w).1 w ∧ ¬ completed (ingest msg f w).2.
Proof.
  intros Hn. destruct (ingest msg f w) as [w1 [e|r]] eqn:Hi; cbn [fst snd].
  - split; [|by intros []].
    apply ingest_failed_storable in Hi as [?|(z & lid & ms & Hs & _)]; [done|].
    by destruct (Hn _ _ _ Hs).
  - apply ingest_completed_storable in Hi as (z & lid & ms & Hs).
    by destruct (Hn _ _ _ Hs).
Qed.

(** Steps 1 to 4 do not look at the trace: from worlds with the same stores
    they end alike, with the same stores. *)
Lemma ingest_same_stores msg f w wa :
  same_stores w wa →
  same_stores (ingest msg f w).1 (ingest msg f wa).1 ∧
  (completed (ingest msg f w).2 ↔ completed (ingest msg f wa).2).
Proof.
  intros (Ha & Hb & Hh).
  destruct (storable_dec msg) as [(z & lid & ms & Hs)|Hn].
  - rewrite !(ingest_storable _ _ _ _ _ _ Hs). cbv zeta. rewrite <- Ha, <- Hb, <- Hh.
    destruct (bf_exists_fault f); [done|].
    destruct (insert_fault f); [done|].
    destruct (bloom w (pretty z)); [|done].
    destruct (pfadd_fault f); done.
  - destruct (ingest_not_storable msg f w Hn) as [(Ha1 & Hb1 & Hh1) Hc1].
    destruct (ingest_not_storable msg f wa Hn) as [(Ha2 & Hb2 & Hh2) Hc2].
    split; [|tauto]. split_and!; congruence.
Qed.

Lemma hll_added_idemp lid z (h : gmap string sketch) :
  (∀ x s, sketch_add x (sketch_add x s) = sketch_add x s) →
  hll_added lid z (hll_added lid z h) = hll_added lid z h.
Proof.
  intros Hidem. unfold hll_added.
  rewrite lookup_insert_eq, insert_insert_eq. cbn [from_option id]. by rewrite Hidem.
Qed.

(** X5. A second delivery of a message with the three services answering
    leaves the table, the Bloom filter and the HyperLogLog keys as a single
    such delivery does, provided the first delivery did not complete steps 1
    to 4 (the row written before a failed HyperLogLog update is not
    duplicated, the missing update is made) or adding an item to the sketch
    twice is adding it once, as for a HyperLogLog; after a first delivery
    with the services answering the second changes no store at all. *)
Theorem redelivery_leaves_the_stores_of_one_delivery msg f1 f2 w :
  services_answer f2 →
  (¬ completed (ingest msg f1 w).2 ∨
   ∀ x s, sketch_add x (sketch_add x s) = sketch_add x s) →
  same_stores (process_message msg f2 (process_message msg f1 w).1).1
              (process_message msg f2 w).1 ∧
  (services_answer f1 →
   same_stores (process_message msg f2 (process_message msg f1 w).1).1
               (process_message msg f1 w).1).
Proof.
  intros Hf2 Hcase. pose proof Hf2 as (Hbf & Hin & Hpf).
  assert (same_stores (ingest msg f2 (ingest msg f1 w).1).1 (ingest msg f2 w).1) as Hgoal.
  { destruct (storable_dec msg) as [(z & lid & ms & Hs)|Hn].
    - rewrite (ingest_storable msg f2 _ _ _ _ Hs).
      rewrite (ingest_storable msg f2 w _ _ _ Hs).
      rewrite (ingest_storable msg f1 w _ _ _ Hs) in Hcase |- *.
      rewrite Hbf, Hin, Hpf. cbv zeta.
      assert (∀ v (a : table), cql_insert (row_for z lid ms v)
                  (cql_insert (row_for z lid ms v) a)
                = cql_insert (row_for z lid ms v) a) as Hins.
      { intros v a. unfold cql_insert. by rewrite insert_insert_eq. }
      unfold same_stores.
      destruct (bf_exists_fault f1) as [e|]; [|destruct (insert_fault f1) as [e|]];
        cbn [fst snd attendance bloom hll] in *;
        destruct (bloom w (pretty z)) eqn:Hv;
        cbn [fst snd attendance bloom hll] in *; try done.
      + destruct (pfadd_fault f1); cbn [fst snd attendance bloom hll] in *;
          rewrite Hv; cbn [fst snd attendance bloom hll]; rewrite Hins; [done|].
        destruct Hcase as [Hnc|Hidem]; [by destruct Hnc|].
        split_and!; [done..|]. by apply hll_added_idemp.
      + rewrite Hv. cbn [fst snd attendance bloom hll]. by rewrite Hins.
    - destruct (ingest_not_storable msg f1 w Hn) as [Hs1 _].
      by apply ingest_same_stores. }
  assert (same_stores (process_message msg f2 (process_message msg f1 w).1).1
                      (process_message msg f2 w).1) as Hre.
  { destruct (process_message_same_stores msg f2 (process_message msg f1 w).1)
      as (Ha & Hb & Hh).
    destruct (process_message_same_stores msg f2 w) as (Ha' & Hb' & Hh').
    destruct (ingest_same_stores msg f2 _ _ (process_message_same_stores msg f1 w))
      as [(Ha1 & Hb1 & Hh1) _].
    destruct Hgoal as (Ha2 & Hb2 & Hh2).
    split_and!; congruence. }
  split; [done|]. intros Hf1.
  assert (same_stores (ingest msg f2 w).1 (ingest msg f1 w).1) as (Ha2 & Hb2 & Hh2).
  { destruct (storable_dec msg) as [(z & lid & ms & Hs)|Hn].
    - rewrite !(ingest_storable _ _ _ _ _ _ Hs).
      destruct Hf1 as (-> & -> & ->). by rewrite Hbf, Hin, Hpf.
    - destruct (ingest_not_storable msg f1 w Hn) as [(? & ? & ?) _].
      destruct (ingest_not_storable msg f2 w Hn) as [(? & ? & ?) _].
      split_and!; congruence. }
  destruct (process_message_same_stores msg f2 w) as (Ha & Hb & Hh).
  destruct (process_message_same_stores msg f1 w) as (Ha' & Hb' & Hh').
  destruct Hre as (? & ? & ?). split_and!; congruence.
Qed.

(** A turn for a storable event with the three services answering: the
    Bloom filter is asked, the row is written, a valid student is added to
    the lecture's HyperLogLog, and the message is acknowledged. *)
Lemma process_message_answered msg f w z lid ms :
  storable msg z lid ms → services_answer f →
  let v := bloom w (pretty z) in
  new_events w (process_message msg f w).1 =
  BF_EXISTS BLOOM_FILTER_KEY (pretty z) v
  :: CQL_INSERT (row_for z lid ms v)
  :: (if v then [PFADD (HLL_KEY_PREFIX +:+ lid) (pretty z)] else [])
  ++ LogInfo ("Processed attendance for student " +:+ pretty z
              +:+ " (valid: " +:+ py_format (PyBool v) +:+ ")")
  :: Acknowledge (message_id msg)
  :: match acknowledge_fault f with
     | Some e => [LogError ("Error processing message: " +:+ py_str_exn e);
                  NegativeAcknowledge (message_id msg)]
     | None => []
     end.
Proof.
  intros Hs (Hbf & Hin & Hpf) v.
  pose proof (ingest_storable msg f w z lid ms Hs) as Hi.
  rewrite Hbf, Hin, Hpf in Hi. cbv zeta in Hi. fold v in Hi.
  destruct v eqn:Hv;
    rewrite (process_message_completed _ _ _ _ _ Hi);
    apply new_events_extend; unfold extend; cbn [trace fst snd py_format];
    by rewrite <- !app_assoc.
Qed.

(** C3. An event the table can hold, with the three services answering, is
    processed: its row is written with the validity the Bloom filter gives,
    the message is acknowledged, and the student id is added to the
    HyperLogLog of the event's lecture exactly when that validity is true.
    For every processed (acknowledged) event the student id is added to the
    HyperLogLog of the event's lecture if and only if the validity computed
    for the event is true, and to no other key; and a turn in which the
    Bloom filter did not answer true leaves every HyperLogLog key as it was,
    so that every lecture's count is what it was. *)
Theorem estimator_updated_iff_valid msg f w :
  let w' := (process_message msg f w).1 in
  let new := new_events w w' in
  (∀ z lid ms, storable msg z lid ms → services_answer f →
     let v := bloom w (pretty z) in
     CQL_INSERT (row_for z lid ms v) ∈ new ∧
     Acknowledge (message_id msg) ∈ new ∧
     (PFADD (HLL_KEY_PREFIX +:+ lid) (pretty z) ∈ new ↔ v = true) ∧
     hll w' = (if v then hll_added lid z (hll w) else hll w)) ∧
  (∀ row, CQL_INSERT row ∈ new → Acknowledge (message_id msg) ∈ new →
     BF_EXISTS BLOOM_FILTER_KEY (pretty (student_id row)) (is_valid row) ∈ new ∧
     (∀ key item, PFADD key item ∈ new ↔
        is_valid row = true ∧ key = HLL_KEY_PREFIX +:+ lecture_id row ∧
        item = pretty (student_id row)) ∧
     hll w' = (if is_valid row
               then hll_added (lecture_id row) (student_id row) (hll w)
               else hll w)) ∧
  ((∀ key item, BF_EXISTS key item true ∉ new) →
     hll w' = hll w ∧
     (∀ key item, PFADD key item ∉ new) ∧
     ∀ rf lecture,
       (pfcount rf (HLL_KEY_PREFIX +:+ lecture) w').2
       = (pfcount rf (HLL_KEY_PREFIX +:+ lecture) w).2).
Proof.
  intros w' new.
  split; [|exact (estimator_updated_when_acknowledged msg f w)].
  intros z lid ms Hs Hf v.
  pose proof (process_message_answered msg f w z lid ms Hs Hf) as Hnew.
  cbv zeta in Hnew. fold w' new v in Hnew.
  destruct (process_message_same_stores msg f w) as (_ & _ & Hh). fold w' in Hh.
  pose proof (ingest_storable msg f w z lid ms Hs) as Hi.
  destruct Hf as (Hbf & Hin & Hpf). rewrite Hbf, Hin, Hpf in Hi. cbv zeta in Hi.
  fold v in Hi. rewrite Hh, Hi, Hnew.
  destruct v; cbn [fst hll app]; rewrite !elem_of_cons.
  - split_and!; [auto 10|auto 10|split; auto 10|done].
  - split_and!; [auto 10|auto 10| |done].
    split; [|done]. destruct (acknowledge_fault f);
      rewrite ?elem_of_cons, elem_of_nil; intros; destruct_or!; done.
Qed.

(** X6. The row written for an event carries the student id and the
    lecture id of the payload and, as its timestamp, the milliseconds the
    driver encodes the parsed datetime as. For a naive datetime of the
    calendar without microseconds these are its seconds since the epoch
    times a thousand, and the analytics engine reads back the hour and the
    weekday of the datetime in the message. *)
Theorem stored_time_is_event_time msg f w data ts dtz row :
  msg_data msg = Json data →
  py_getitem data "timestamp" = inr (PyStr ts) →
  fromisoformat ts = Some dtz →
  CQL_INSERT row ∈ new_events w (process_message msg f w).1 →
  py_getitem data "student_id" = inr (PyInt (student_id row)) ∧
  py_getitem data "lecture_id" = inr (PyStr (lecture_id row)) ∧
  cql_encode_datetime dtz = inr (timestamp row) ∧
  ∀ dt : datetime,
    dtz = naive dt → date_ok dt → time_of_day_ok dt → microsecond dt = 0 →
    timestamp row = timegm dt * 1000 ∧
    hour_of (timestamp row) = hour dt ∧
    weekday_of (timestamp row) = weekday dt.
Proof.
  intros Hdata Hts Hiso Hrow.
  apply written_row in Hrow as (z & lid & ms & Hd & -> & _).
  destruct Hd as (data' & ts' & dt' & Hdata' & Hs & Hl & Hts' & Hiso' & Hms).
  assert (data' = data) as -> by congruence.
  assert (ts' = ts) as -> by congruence.
  assert (dt' = dtz) as -> by congruence.
  cbn [row_for student_id lecture_id timestamp].
  split_and!; [done..|].
  intros dt -> Hdate Htime Hus.
  rewrite (cql_encode_datetime_naive dt Hdate Htime Hus) in Hms.
  injection Hms as <-.
  split_and!; [done|by apply hour_of_timegm|by apply weekday_of_timegm].
Qed.

End ProcessorMore.

Section ExactCount.
Context `{Config, IsoFormat}.
Local Existing Instance exact_sketch.

Lemma process_message_counted msg f w :
  counted_are_recorded w → counted_are_recorded (process_message msg f w).1.
Proof.
  intros Hinv.
  destruct (process_message_cases msg f w)
    as [(Hh & Ha & _ & _)|(z & lid & ms & added & tl & _ & _ & _ & _ & Ha & _ & Hh & _)];
    intros l s item; rewrite Hh, Ha; [by apply Hinv|].
  unfold cql_insert. setoid_rewrite dom_insert_L.
  assert (∀ s', hll w !! (HLL_KEY_PREFIX +:+ l) = Some s' → item ∈ s' →
     ∃ z0 ts, item = pretty z0 ∧
       (l, ts, z0) ∈ ({[primary_key (row_for z lid ms (bloom w (pretty z)))]} : gset _)
                      ∪ dom (attendance w)) as Hold.
  { intros s' Hs' Hitem. destruct (Hinv l s' item Hs' Hitem) as (z0 & ts & -> & Hk).
    exists z0, ts. split; [done|]. by apply elem_of_union_r. }
  destruct added; [|by apply Hold].
  unfold hll_added. destruct (decide (lid = l)) as [->|Hne].
  - rewrite lookup_insert_eq. intros [= <-] Hitem.
    cbn [sketch_add exact_sketch] in Hitem.
    apply elem_of_union in Hitem as [->%elem_of_singleton|Hitem].
    + exists z, ms. split; [done|].
      apply elem_of_union_l, elem_of_singleton. done.
    + match type of Hitem with
      | context [from_option _ _ ?o] => destruct o as [s'|] eqn:Hs'
      end; cbn in Hitem.
      * by apply (Hold s' Hs').
      * by apply elem_of_empty in Hitem.
  - rewrite lookup_insert_ne; [by apply Hold|].
    intros Heq. by apply String.app_inj in Heq.
Qed.

Lemma receive_loop_counted deliveries w :
  counted_are_recorded w → counted_are_recorded (receive_loop deliveries w).1.
Proof.
  revert w. induction deliveries as [|[msg f] rest IH]; intros w Hinv; [done|].
  cbn [receive_loop]. unfold bind.
  pose proof (process_message_counted msg f w Hinv) as Hinv'.
  destruct (process_message msg f w) as [w1 [e|[]]]; [done|]. by apply IH.
Qed.

Lemma size_list_to_set_le (l : list string) :
  (size (list_to_set l : gset string) ≤ length l)%nat.
Proof.
  induction l as [|x l IH]; [done|].
  cbn [list_to_set foldr length]. rewrite size_union_alt, size_singleton.
  assert (size (list_to_set l ∖ {[x]} : gset string) ≤ size (list_to_set l : gset string))%nat
    by (apply subseteq_size, subseteq_difference_l; done).
  lia.
Qed.

(** X7. With an exact sketch, after any run of the loop from an empty table
    and no HyperLogLog key, [get_attendance_stats] reports for every lecture
    a number of unique attendees between zero and the number of attendance
    records it lists. *)
Theorem unique_attendees_at_most_records known s deliveries rf l :
  pfcount_fault rf = None → select_fault rf = None →
  ∃ st,
    (get_attendance_stats rf l (process_attendance s deliveries (fresh_world known)).1).2
    = inr st ∧
    0 ≤ unique_attendees st ≤ Z.of_nat (length (attendance_records st)).
Proof.
  intros Hp Hs.
  set (w' := (process_attendance s deliveries (fresh_world known)).1).
  assert (counted_are_recorded w') as Hinv.
  { assert (∀ evs, counted_are_recorded (extend (fresh_world known) evs)) as Hw0.
    { intros evs l' s' item Hl. cbn [extend hll fresh_world] in Hl.
      by rewrite lookup_empty in Hl. }
    unfold w'.
    destruct (process_attendance_world s deliveries (fresh_world known))
      as (evs0 & evs1 & _ & [(-> & _)|(_ & ->)]); [done|].
    exact (receive_loop_counted deliveries _ (Hw0 evs0)). }
  rewrite (get_attendance_stats_run _ _ _ Hp Hs). eexists. split; [done|].
  cbn [unique_attendees attendance_records].
  destruct (hll w' !! (HLL_KEY_PREFIX +:+ l)) as [sk|] eqn:Hl;
    cbn [from_option sketch_count exact_sketch]; [|lia].
  split; [lia|]. apply Nat2Z.inj_le.
  set (recs := (λ r, (student_id r, timestamp r)) <$> cql_select_lecture l (attendance w')).
  rewrite <- (length_fmap (λ p : Z * Z, pretty p.1) recs).
  etrans; [|apply size_list_to_set_le]. apply subseteq_size.
  intros item Hitem. apply elem_of_list_to_set.
  destruct (Hinv l sk item Hl Hitem) as (z & ts & -> & Hk).
  apply list_elem_of_fmap. exists (z, ts). split; [done|]. by apply elem_of_records.
Qed.

End ExactCount.

(** * Further properties of the analytics engine *)

(** ** The DataFrame *)

Lemma row_of_inj : Inj (=) (=) row_of.
Proof. intros [[[l t] s] v] [[[l' t'] s'] v'] [= -> -> -> ->]. done. Qed.

Lemma NoDup_select_lecture (t : table) l : NoDup (cql_select_lecture l t).
Proof.
  unfold cql_select_lecture. rewrite merge_sort_Permutation.
  apply NoDup_fmap_2; [apply row_of_inj|apply NoDup_map_to_list].
Qed.

(** The DataFrame is the table, row by row, in the order the partitions
    come back. *)
Lemma fetch_Permutation (t : table) :
  _fetch_attendance_data t ≡ₚ row_of <$> map_to_list t.
Proof.
  apply NoDup_Permutation.
  - unfold _fetch_attendance_data.
    assert (NoDup (cql_select_distinct_lecture t ≫= λ l, cql_select_lecture l t)) as Hnd.
    { apply NoDup_bind.
      - intros l1 l2 r _ _ [_ H1]%elem_of_select_lecture [_ H2]%elem_of_select_lecture.
        congruence.
      - intros; apply NoDup_select_lecture.
      - unfold cql_select_distinct_lecture. apply NoDup_elements. }
    destruct (cql_select_distinct_lecture t); [constructor|].
    destruct (_ ≫= _); [constructor|done].
  - apply NoDup_fmap_2; [apply row_of_inj|apply NoDup_map_to_list].
  - intros r. rewrite elem_of_fetch, list_elem_of_fmap. split.
    + intros Hr. exists (primary_key r, is_valid r). split; [by destruct r|].
      by apply elem_of_map_to_list.
    + intros ([k v] & -> & Hkv%elem_of_map_to_list). by destruct k as [[l ts] s].
Qed.

(** X8. [_fetch_attendance_data] returns every row of the table exactly
    once: no row twice, as many rows as the table holds, and exactly the
    rows stored. *)
Theorem fetch_returns_each_row_once (t : table) :
  NoDup (_fetch_attendance_data t) ∧
  length (_fetch_attendance_data t) = size t ∧
  ∀ r, r ∈ _fetch_attendance_data t ↔ t !! primary_key r = Some (is_valid r).
Proof.
  split_and!.
  - rewrite fetch_Permutation.
    apply NoDup_fmap_2; [apply row_of_inj|apply NoDup_map_to_list].
  - by rewrite fetch_Permutation, length_fmap, length_map_to_list.
  - apply elem_of_fetch.
Qed.

(** ** Tallies *)

Lemma sum_Z_app l1 l2 : sum_Z (l1 ++ l2) = sum_Z l1 + sum_Z l2.
Proof. unfold sum_Z. induction l1 as [|x l1 IH]; cbn [app foldr]; lia. Qed.

Global Instance sum_Z_perm : Proper ((≡ₚ) ==> (=)) sum_Z.
Proof.
  unfold sum_Z. induction 1; cbn [foldr]; lia.
Qed.

Lemma sum_Z_cons x l : sum_Z (x :: l) = x + sum_Z l.
Proof. done. Qed.

Lemma sum_Z_zero {K} (f : K → Z) (keys : list K) :
  (∀ k, k ∈ keys → f k = 0) → sum_Z (f <$> keys) = 0.
Proof.
  induction keys as [|k keys IH]; intros Hz; [done|].
  rewrite fmap_cons, sum_Z_cons, IH, Hz; [done|by left|].
  intros k' Hk'. apply Hz. by right.
Qed.

Lemma sum_Z_indicator {K} `{EqDecision K} (keys : list K) x :
  NoDup keys → x ∈ keys →
  sum_Z ((λ k, if decide (k = x) then 1 else 0) <$> keys) = 1.
Proof.
  induction keys as [|k keys IH]; intros Hnd Hin; [by apply elem_of_nil in Hin|].
  apply NoDup_cons in Hnd as [Hk Hnd]. rewrite fmap_cons, sum_Z_cons.
  destruct (decide (k = x)) as [->|Hne].
  - rewrite sum_Z_zero; [done|]. intros k Hk'. rewrite decide_False; [done|].
    by intros ->.
  - rewrite IH; [done..|]. apply elem_of_cons in Hin as [?|?]; [by subst|done].
Qed.

(** The counts of a column over a duplicate-free list of keys that covers
    the column add up to the length of the column. *)
Lemma sum_count_rows {K} `{EqDecision K} (column keys : list K) :
  NoDup keys → (∀ x, x ∈ column → x ∈ keys) →
  sum_Z (count_rows column <$> keys) = Z.of_nat (length column).
Proof.
  intros Hnd. induction column as [|x column IH]; intros Hin.
  { by apply sum_Z_zero. }
  assert (sum_Z (count_rows (x :: column) <$> keys)
          = sum_Z ((λ k, if decide (k = x) then 1 else 0) <$> keys)
            + sum_Z (count_rows column <$> keys)) as ->.
  { clear. induction keys as [|k keys IHk]; [done|].
    rewrite !fmap_cons, !sum_Z_cons, IHk. unfold count_rows at 1 3.
    destruct (decide (k = x)) as [->|Hne].
    - rewrite filter_cons_True by done. cbn [length]. lia.
    - rewrite filter_cons_False by done. lia. }
  rewrite sum_Z_indicator; [|done|apply Hin; by left].
  rewrite IH; [cbn [length]; lia|]. intros y Hy. apply Hin. by right.
Qed.

Lemma groupby_size_values {K} `{EqDecision K} (le : relation K)
    `{∀ x y, Decision (le x y)} (column : list K) :
  (groupby_size le column).*2 = count_rows column <$> merge_sort le (remove_dups column).
Proof.
  unfold groupby_size. rewrite <- list_fmap_compose. done.
Qed.

(** The counts of a tally add up to the number of rows tallied. *)
Lemma groupby_size_total {K} `{EqDecision K} (le : relation K)
    `{∀ x y, Decision (le x y)} (column : list K) :
  sum_Z (groupby_size le column).*2 = Z.of_nat (length column).
Proof.
  rewrite groupby_size_values. apply sum_count_rows.
  - rewrite merge_sort_Permutation. apply NoDup_remove_dups.
  - intros x Hx. by rewrite merge_sort_Permutation, elem_of_remove_dups.
Qed.

Lemma day_name_is_a_day ms :
  day_name ms ∈ ["Monday"; "Tuesday"; "Wednesday"; "Thursday"; "Friday";
                 "Saturday"; "Sunday"].
Proof.
  unfold day_name. apply nth_elem_of. cbn [length].
  assert (0 ≤ weekday_of ms < 7) by (unfold weekday_of; apply Z.mod_pos_bound; lia).
  lia.
Qed.

(** X9. The per-day counts of Attendance by Day add up to the number of
    rows, each count is positive and each key is one of the seven English
    day names; the per-lecture counts the rankings are cut from add up to
    the number of rows as well, whatever the sort does. *)
Theorem tallies_account_for_every_row df :
  sum_Z (day_patterns df).*2 = Z.of_nat (length df) ∧
  (∀ d n, (d, n) ∈ day_patterns df →
     0 < n ∧
     d ∈ ["Monday"; "Tuesday"; "Wednesday"; "Thursday"; "Friday"; "Saturday"; "Sunday"]) ∧
  ∀ S : SortValues, sum_Z (@lecture_attendance S df).*2 = Z.of_nat (length df).
Proof.
  split_and!.
  - unfold day_patterns. by rewrite groupby_size_total, length_fmap.
  - intros d n [-> Hn]%elem_of_groupby_size. split; [done|].
    apply count_rows_pos in Hn. apply list_elem_of_fmap in Hn as (r & -> & _).
    apply day_name_is_a_day.
  - intros S. unfold lecture_attendance. rewrite sort_values_desc_perm.
    by rewrite groupby_size_total, length_fmap.
Qed.

(** ** Rankings *)

Lemma StronglySorted_strict_NoDup {A} (R : relation A) (l : list A) :
  StronglySorted (strict R) l → NoDup l.
Proof.
  induction 1 as [|x l Hs IH Hx]; constructor; [|done].
  intros Hin. rewrite Forall_forall in Hx. destruct (Hx _ Hin) as [Hr Hn]. by apply Hn.
Qed.

Section RankingFacts.
Context `{SortValues}.

Lemma lecture_attendance_NoDup df : NoDup (lecture_attendance df).*1.
Proof.
  rewrite lecture_attendance_perm.
  eapply StronglySorted_strict_NoDup, groupby_size_index_sorted; apply _.
Qed.

(** X10. Each ranking lists three lectures, or all of them when there are
    fewer; some lecture stands in both rankings exactly when there are
    between one and five lectures. *)
Theorem rankings_share_a_lecture_iff_few df :
  let n := length (lecture_tally df) in
  length (most_attended df) = (3 `min` n)%nat ∧
  length (least_attended df) = (3 `min` n)%nat ∧
  ((∃ l c c', (l, c) ∈ most_attended df ∧ (l, c') ∈ least_attended df)
   ↔ (1 ≤ n < 6)%nat).
Proof.
  intros n. unfold most_attended, least_attended, head, tail.
  assert (length (lecture_attendance df) = n) as Hlen by (by rewrite lecture_attendance_perm).
  pose proof (lecture_attendance_NoDup df) as Hnd.
  set (L := lecture_attendance df) in *. rewrite Hlen.
  split_and!.
  - by rewrite length_take, Hlen.
  - rewrite length_drop, Hlen. lia.
  - split.
    + intros (l & c & c' & Hm & Hl).
      destruct (decide (n = 0)%nat) as [Hz|Hnz].
      { rewrite Hz in Hlen. apply nil_length_inv in Hlen. rewrite Hlen in Hm.
        by apply elem_of_nil in Hm. }
      destruct (decide (n < 6)%nat) as [?|Hge]; [lia|]. exfalso.
      rewrite <- (take_drop 3 L), fmap_app in Hnd.
      apply NoDup_app in Hnd as (_ & Hdisj & _).
      apply (Hdisj l).
      * apply list_elem_of_fmap. by exists (l, c).
      * apply list_elem_of_fmap. exists (l, c'). split; [done|].
        replace (n - 3)%nat with (3 + (n - 6))%nat in Hl by lia.
        rewrite <- drop_drop in Hl. by apply subseteq_drop in Hl.
    + intros Hn.
      destruct (lookup_lt_is_Some_2 L (n - 3)) as [[l c] He]; [lia|].
      exists l, c, c. split.
      * apply (list_elem_of_lookup_2 _ (n - 3)). rewrite lookup_take_lt by lia. done.
      * apply (list_elem_of_lookup_2 _ 0). rewrite lookup_drop.
        by replace (n - 3 + 0)%nat with (n - 3)%nat by lia.
Qed.

End RankingFacts.

(** ** Thresholds *)

Lemma sorted_lookup_le (s : list Z) i j x y :
  StronglySorted Z.le s → (i ≤ j)%nat → s !! i = Some x → s !! j = Some y → x ≤ y.
Proof.
  intros Hs. revert i j. induction Hs as [|a s Hs IH Ha]; intros i j Hij Hi Hj.
  { by rewrite lookup_nil in Hi. }
  destruct i as [|i], j as [|j]; cbn in Hi, Hj; simplify_eq; [lia| |lia|].
  - by apply (Forall_lookup_1 _ _ _ _ Ha Hj).
  - apply (IH i j); [lia|done..].
Qed.

Lemma length_filter_fmap {A B} (f : A → B) (P : B → Prop) `{∀ x, Decision (P x)}
    (l : list A) :
  length (filter (λ x, P (f x)) l) = length (filter P (f <$> l)).
Proof.
  induction l as [|x l IH]; [done|]. rewrite fmap_cons.
  destruct (decide (P (f x))).
  - rewrite !filter_cons_True by done. cbn [length]. by rewrite IH.
  - rewrite !filter_cons_False by done. done.
Qed.

Lemma length_filter_impl {A} (P Q : A → Prop) `{∀ x, Decision (P x)}
    `{∀ x, Decision (Q x)} (l : list A) :
  (∀ x, P x → Q x) → (length (filter P l) ≤ length (filter Q l))%nat.
Proof.
  intros HPQ. induction l as [|x l IH]; [done|].
  destruct (decide (P x)) as [HP|HP].
  - rewrite filter_cons_True by done. rewrite (filter_cons_True Q) by auto.
    cbn [length]. lia.
  - rewrite filter_cons_False by done.
    destruct (decide (Q x)).
    + rewrite (filter_cons_True Q) by done. cbn [length]. lia.
    + by rewrite (filter_cons_False Q) by done.
Qed.

(** The values no greater than the median make up the first half of the
    sorted values, so at most half of the values lie strictly above it. *)
Lemma above_median_at_most_half (vals : list Z) :
  (2 * length (filter (λ c, gt_threshold (median vals) c = true) vals) ≤ length vals)%nat.
Proof.
  set (s := merge_sort Z.le vals).
  assert (vals ≡ₚ s) as Hp by (by unfold s; rewrite merge_sort_Permutation).
  assert (StronglySorted Z.le s) as Hs by (apply StronglySorted_merge_sort; apply _).
  rewrite (filter_Permutation _ _ _ Hp), Hp.
  unfold median. fold s. cbv zeta.
  set (n := length s).
  assert (∀ (m : option Q) k,
            (n ≤ 2 * k)%nat →
            (∀ i x, (i < k)%nat → s !! i = Some x → gt_threshold m x = false) →
            (2 * length (filter (λ c, gt_threshold m c = true) s) ≤ n)%nat) as Hhalf.
  { intros m k Hk Hlow. rewrite <- (take_drop k s) at 1.
    rewrite filter_app, length_app, filter_none.
    - pose proof (length_filter (λ c, gt_threshold m c = true) (drop k s)) as Hle.
      rewrite length_drop in Hle. fold n in Hle. cbn [length]. lia.
    - intros x Hx. apply list_elem_of_lookup_1 in Hx as [i Hi].
      apply lookup_take_Some in Hi as [Hi Hik]. by rewrite (Hlow i x Hik Hi). }
  destruct (Nat.even n) eqn:Heven.
  - apply Nat.even_spec in Heven as [k Hk].
    assert (n / 2 = k)%nat as -> by (rewrite Hk, Nat.mul_comm; by apply Nat.div_mul).
    destruct k as [|k].
    { assert (s = []) as -> by (apply nil_length_inv; fold n; lia). done. }
    replace (S k - 1)%nat with k by lia.
    destruct (lookup_lt_is_Some_2 s k) as [a Ha]; [fold n; lia|].
    destruct (lookup_lt_is_Some_2 s (S k)) as [b Hb]; [fold n; lia|].
    rewrite Ha, Hb. cbn [mbind option_bind].
    apply (Hhalf _ (S k)); [lia|]. intros i x Hi Hx.
    pose proof (sorted_lookup_le s i k x a Hs ltac:(lia) Hx Ha).
    pose proof (sorted_lookup_le s k (S k) a b Hs ltac:(lia) Ha Hb).
    apply not_true_is_false. rewrite gt_threshold_spec.
    unfold Qlt. cbn. lia.
  - assert (Nat.odd n = true) as Hodd by (by rewrite <- Nat.negb_even, Heven).
    apply Nat.odd_spec in Hodd as [k Hk].
    assert (n / 2 = k)%nat as ->.
    { symmetry. apply (Nat.div_unique n 2 k 1); lia. }
    destruct (lookup_lt_is_Some_2 s k) as [a Ha]; [fold n; lia|].
    rewrite Ha. cbn [fmap option_fmap option_map].
    apply (Hhalf _ (S k)); [lia|]. intros i x Hi Hx.
    pose proof (sorted_lookup_le s i k x a Hs ltac:(lia) Hx Ha).
    apply not_true_is_false. rewrite gt_threshold_spec.
    unfold Qlt. cbn. lia.
Qed.

Lemma gt_median_plus_std_above_median vals c :
  gt_median_plus_std vals c = true → gt_threshold (median vals) c = true.
Proof.
  unfold gt_median_plus_std.
  destruct (median vals) as [m|]; [|done]. destruct (var vals) as [v|]; [|done].
  intros [Hd _]%andb_true_iff. apply gt_threshold_spec.
  unfold Qltb in Hd. rewrite negb_true_iff, <- not_true_iff_false, Qle_bool_iff in Hd.
  apply Qnot_le_lt in Hd. by apply Qlt_minus_iff.
Qed.

(** X11. Habitual Latecomers never reports more than half of the students
    with a late event; it reports nobody when at most one student has a late
    event, and nobody when all late counts are equal. *)
Theorem latecomers_are_at_most_half df :
  (2 * length (frequent_late df) ≤ length (late_students df))%nat ∧
  ((length (late_students df) ≤ 1)%nat → frequent_late df = []) ∧
  ((∀ c c', c ∈ (late_students df).*2 → c' ∈ (late_students df).*2 → c = c') →
   frequent_late df = []).
Proof.
  assert (2 * length (frequent_late df) ≤ length (late_students df))%nat as Hhalf.
  { unfold frequent_late. cbv zeta.
    pose proof (length_filter_fmap snd
                  (λ c, gt_threshold (median (late_students df).*2) c = true)
                  (late_students df)) as Hf.
    cbn beta in Hf. rewrite Hf.
    rewrite <- (length_fmap snd (late_students df)). apply above_median_at_most_half. }
  split_and!; [done| |].
  - intros Hle. apply nil_length_inv. lia.
  - intros Hsame. unfold frequent_late. cbv zeta. apply filter_none.
    intros [sid c] Hin. cbn [snd].
    assert (c ∈ (late_students df).*2) as Hc.
    { apply list_elem_of_fmap. by exists (sid, c). }
    set (vals := (late_students df).*2) in *.
    assert (∀ x, x ∈ merge_sort Z.le vals → x = c) as Hall.
    { intros x Hx. rewrite merge_sort_Permutation in Hx. by apply Hsame. }
    unfold median. cbv zeta.
    set (s := merge_sort Z.le vals) in *. set (n := length s).
    destruct (Nat.even n).
    + destruct (s !! (n / 2 - 1)%nat) as [a|] eqn:Ha; [|by cbn].
      destruct (s !! (n / 2)%nat) as [b|] eqn:Hb; [|by cbn].
      apply list_elem_of_lookup_2, Hall in Ha, Hb. subst a b.
      cbn [mbind option_bind]. rewrite gt_threshold_spec. unfold Qlt. cbn. lia.
    + destruct (s !! (n / 2)%nat) as [a|] eqn:Ha; [|by cbn].
      apply list_elem_of_lookup_2, Hall in Ha. subst a.
      cbn [fmap option_fmap option_map]. rewrite gt_threshold_spec. unfold Qlt. cbn. lia.
Qed.

Section ConsistencyFacts.
Context `{SortValues}.

(** X12. Most Consistent Attendees never reports more than half of the
    students, nobody when there is a single student (the standard deviation
    is NaN), and every student reported has an event count strictly above
    the median count. *)
Theorem consistent_students_are_at_most_half df :
  let tally := groupby_size Z.le (student_id <$> df) in
  (2 * length (consistent_students df) ≤ length tally)%nat ∧
  ((length tally ≤ 1)%nat → consistent_students df = []) ∧
  ∀ sid c, (sid, c) ∈ consistent_students df →
    c = count_rows (student_id <$> df) sid ∧
    ∃ m, median tally.*2 = Some m ∧ (m < inject_Z c)%Q.
Proof.
  intros tally.
  assert (2 * length (consistent_students df) ≤ length tally)%nat as Hhalf.
  { unfold consistent_students. cbv zeta. fold tally.
    etrans; [|rewrite <- (length_fmap snd tally); apply above_median_at_most_half].
    apply Nat.mul_le_mono_l.
    pose proof (length_filter_fmap snd (λ c, gt_threshold (median tally.*2) c = true)
                  tally) as Hf.
    cbn beta in Hf. rewrite <- Hf.
    apply length_filter_impl. intros kv. apply gt_median_plus_std_above_median. }
  split_and!; [done| |].
  - intros Hle. apply nil_length_inv. lia.
  - intros sid c. unfold consistent_students. cbv zeta. fold tally.
    rewrite list_elem_of_filter. cbn [snd]. intros [Hgt Hin].
    apply elem_of_groupby_size in Hin as [-> _]. split; [done|].
    apply gt_median_plus_std_above_median in Hgt.
    destruct (median tally.*2) as [m|]; [|done].
    exists m. split; [done|]. by apply gt_threshold_spec.
Qed.

(** X13. On a table with rows the fifth insight is Invalid Attendance
    Attempts; it maps a student id to the number of rows of that student
    stored with [is_valid] false, for exactly the students with such a row,
    and is the empty dict when no row is invalid. *)
Theorem invalid_attempts_are_counted_per_student (t : table) :
  t ≠ ∅ →
  let df := _fetch_attendance_data t in
  ∃ i, generate_insights t !! 4%nat = Some i ∧
    title i = "Invalid Attendance Attempts" ∧
    (∀ sid c, (KInt sid, Count c) ∈ data i ↔
       c = Z.of_nat (length (filter (λ r, is_valid r = false ∧ student_id r = sid) df)) ∧
       0 < c) ∧
    ((∀ r, r ∈ df → is_valid r = true) → data i = []).
Proof.
  intros Ht df.
  pose proof (generate_insights_data t Ht) as Hdata. cbv zeta in Hdata. fold df in Hdata.
  assert (length (generate_insights t) = 5%nat) as Hlen.
  { rewrite <- (length_fmap data), Hdata. done. }
  destruct (lookup_lt_is_Some_2 (generate_insights t) 4) as [i Hi]; [lia|].
  exists i. split; [done|].
  assert (data i = counts (to_dict KInt (invalid_attempts df))) as Hd.
  { apply (f_equal (fmap data)) in Hi. rewrite <- list_lookup_fmap, Hdata in Hi.
    by injection Hi. }
  split_and!.
  - unfold generate_insights in Hi. fold df in Hi.
    destruct df; [done|]. by injection Hi as <-.
  - intros sid c. rewrite Hd. unfold counts, to_dict.
    rewrite <- list_fmap_compose, list_elem_of_fmap. unfold invalid_attempts. split.
    + intros ([sid' c'] & [= -> ->] & Hin).
      apply elem_of_groupby_size in Hin as [-> Hc]. by rewrite count_rows_fmap_filter in *.
    + intros [-> Hc]. exists (sid, count_rows (student_id <$> filter (λ r, is_valid r = false) df) sid).
      rewrite elem_of_groupby_size, count_rows_fmap_filter. done.
  - intros Hall. rewrite Hd. unfold invalid_attempts.
    rewrite filter_none; [done|]. intros r Hr. by rewrite (Hall r Hr).
Qed.

End ConsistencyFacts.

(** * Properties of the data generator *)

Lemma digit_digit_char d : 0 ≤ d ≤ 9 → digit (digit_char d) = Some d.
Proof.
  intros Hd. unfold digit, digit_char.
  rewrite Ascii.nat_ascii_embedding by lia.
  replace (Z.of_nat (48 + Z.to_nat d) - 48) with d by lia.
  destruct (Z.leb_spec 0 d), (Z.leb_spec d 9); try lia. done.
Qed.

Lemma number_pad2 acc n :
  0 ≤ n < 100 →
  number acc [digit_char (n / 10); digit_char (n mod 10)] = Some (acc * 100 + n).
Proof.
  intros Hn. cbn [number].
  assert (0 ≤ n / 10 ≤ 9) as Hhi.
  { assert (n / 10 < 10) by (apply Z.div_lt_upper_bound; lia).
    split; [apply Z.div_pos; lia|lia]. }
  assert (0 ≤ n mod 10 ≤ 9) as Hlo by (pose proof (Z.mod_pos_bound n 10 ltac:(lia)); lia).
  rewrite !digit_digit_char by done.
  cbn [mbind option_bind]. f_equal.
  pose proof (Z.div_mod n 10 ltac:(lia)). lia.
Qed.

Lemma number_pad4 n :
  0 ≤ n < 10000 →
  number 0 [digit_char (n / 100 / 10); digit_char ((n / 100) mod 10);
            digit_char (n mod 100 / 10); digit_char ((n mod 100) mod 10)] = Some n.
Proof.
  intros Hn.
  assert (0 ≤ n / 100 < 100) as Hhi.
  { split; [apply Z.div_pos; lia|apply Z.div_lt_upper_bound; lia]. }
  assert (0 ≤ n mod 100 < 100) as Hlo by (apply Z.mod_pos_bound; lia).
  assert (0 ≤ n / 100 / 10 ≤ 9) as Hd1.
  { assert (n / 100 / 10 < 10) by (apply Z.div_lt_upper_bound; lia).
    split; [apply Z.div_pos; lia|lia]. }
  assert (0 ≤ (n / 100) mod 10 ≤ 9) as Hd2
    by (pose proof (Z.mod_pos_bound (n / 100) 10 ltac:(lia)); lia).
  change (number 0 (?a :: ?b :: ?rest))
    with (d1 ← digit a; d2 ← digit b; number ((0 * 10 + d1) * 10 + d2) rest).
  rewrite !digit_digit_char by done.
  cbn [mbind option_bind].
  rewrite number_pad2 by done. f_equal.
  pose proof (Z.div_mod n 100 ltac:(lia)).
  pose proof (Z.div_mod (n / 100) 10 ltac:(lia)). lia.
Qed.

Lemma isoformat_seconds_isoformat dt :
  1 ≤ year dt ≤ 9999 → 1 ≤ month dt ≤ 12 →
  1 ≤ day dt ≤ days_in_month (year dt) (month dt) →
  time_of_day_ok dt → microsecond dt = 0 →
  isoformat_seconds (isoformat dt) = Some dt.
Proof.
  intros Hy Hm Hd (Hh & Hmi & Hs & _) Hus.
  unfold isoformat_seconds, isoformat. rewrite Hus. cbn [Z.eqb].
  unfold pad4, pad2. cbv beta iota fix delta [String.append]. cbn [chars].
  rewrite decide_True by done.
  rewrite number_pad4 by lia. cbn [mbind option_bind].
  assert (day dt ≤ 31) as Hd31.
  { pose proof (days_in_month_le (year dt) (month dt)). lia. }
  rewrite !(number_pad2 0) by lia. cbn [mbind option_bind].
  change (0 * 100) with 0. rewrite !Z.add_0_l.
  assert ((1 <=? year dt) && (1 <=? month dt) && (month dt <=? 12) && (1 <=? day dt)
          && (day dt <=? days_in_month (year dt) (month dt)) && (hour dt <? 24)
          && (minute dt <? 60) && (second dt <? 60) = true) as ->.
  { repeat (apply andb_true_intro; split); try apply Z.leb_le; try apply Z.ltb_lt; lia. }
  destruct dt. cbn in *. by subst.
Qed.

(** X14. The timestamp text the generator sends parses back to the datetime
    it was made from: [fromisoformat] inverts [isoformat] on every datetime
    without microseconds, whose text has 19 characters. *)
Theorem fromisoformat_inverts_isoformat dt :
  1 ≤ year dt ≤ 9999 → 1 ≤ month dt ≤ 12 →
  1 ≤ day dt ≤ days_in_month (year dt) (month dt) →
  time_of_day_ok dt → microsecond dt = 0 →
  @fromisoformat generator_isoformat (isoformat dt) = Some (naive dt) ∧
  String.length (isoformat dt) = 19%nat.
Proof.
  intros Hy Hm Hd Hok Hus. split.
  - cbn [fromisoformat generator_isoformat].
    by rewrite isoformat_seconds_isoformat.
  - unfold isoformat. by rewrite Hus.
Qed.

Lemma entry_time_sendable punctual d :
  day_draws_ok punctual d → sendable (entry_time d) ∧ 8 ≤ hour (entry_time d) ≤ 11.
Proof.
  intros (Hc & Hh & Hm & _). unfold sendable, time_of_day_ok, entry_time, replace_time.
  cbn [year month day hour minute second microsecond].
  destruct punctual; split_and!; try done; lia.
Qed.

Lemma exit_time_sendable punctual d :
  day_draws_ok punctual d →
  sendable (exit_time d) ∧
  year (exit_time d) = year (on_day d) ∧ month (exit_time d) = month (on_day d) ∧
  day (exit_time d) = day (on_day d) ∧
  11 ≤ hour (exit_time d) ≤ 16 ∧
  hour (exit_time d) * 60 + minute (exit_time d)
  = (entry_hour d + stay_hours d) * 60 + entry_minute d + stay_minutes d ∧
  second (exit_time d) = 0.
Proof.
  intros (Hc & Hh & Hm & Hsh & Hsm & _).
  unfold sendable, time_of_day_ok, exit_time, add_timedelta, entry_time, replace_time.
  cbn [year month day hour minute second microsecond].
  set (total := (entry_hour d + stay_hours d) * 60 + entry_minute d + stay_minutes d).
  assert (660 ≤ total < 1440) as Ht by (unfold total; destruct punctual; lia).
  destruct (Z.ltb_spec total 1440) as [_|?]; [|lia].
  cbn [year month day hour minute second microsecond].
  assert (11 ≤ total / 60 < 24) as Hq.
  { split; [apply Z.div_le_lower_bound; lia|apply Z.div_lt_upper_bound; lia]. }
  assert (total / 60 ≤ 16) as Hq'.
  { assert (total / 60 < 17); [|lia]. apply Z.div_lt_upper_bound; [lia|].
    unfold total. destruct punctual; lia. }
  rewrite (Z.mod_small (total / 60)) by lia.
  pose proof (Z.mod_pos_bound total 60 ltac:(lia)).
  pose proof (Z.div_mod total 60 ltac:(lia)).
  split_and!; try done; lia.
Qed.

Lemma pad2_inj a b r r' :
  0 ≤ a < 100 → 0 ≤ b < 100 → pad2 a r = pad2 b r' → a = b ∧ r = r'.
Proof.
  intros Ha Hb. unfold pad2. intros [= H1 H2 ->].
  assert (∀ n, 0 ≤ n < 100 → number 0 [digit_char (n / 10); digit_char (n mod 10)] = Some n)
    as Hn by (intros n Hn; rewrite number_pad2 by done; f_equal; lia).
  split; [|done]. apply (inj Some). rewrite <- (Hn a), <- (Hn b) by done.
  by rewrite H1, H2.
Qed.

Section GeneratorFacts.
Context `{Config, HyperLogLog}.
Local Existing Instance generator_isoformat.

Lemma attendance_record_storable id sid t flag ev :
  sendable t → -2147483648 ≤ sid ≤ 2147483647 →
  storable (mk_message id (Json (attendance_record sid t flag ev)))
    sid ("LECTURE_" +:+ strftime_Ymd t) (timegm t * 1000).
Proof.
  intros ((Hy & Hm & Hd) & Hok & Hus) Hsid. split; [|done].
  exists (attendance_record sid t flag ev), (isoformat t), (naive t).
  split_and!; [done..| |].
  - cbn [fromisoformat generator_isoformat].
    rewrite isoformat_seconds_isoformat; [done|lia|done..].
  - apply cql_encode_datetime_naive; [|done..]. split_and!; first [done|lia].
Qed.

(** Every message body the generator sends is a record of a student id in
    the valid or the invalid range at a sendable time. *)
Lemma generated_shape students standalone v :
  Forall student_draws_ok students → Forall standalone_draws_ok standalone →
  v ∈ generate_student_data students standalone →
  ∃ sid t flag ev,
    v = attendance_record sid t flag ev ∧ sendable t ∧
    8 ≤ hour t ≤ 17 ∧
    (if flag then 10000 ≤ sid ≤ 99999 else 100000 ≤ sid ≤ 999999) ∧
    (flag = true → sid ∈ the_student <$> students).
Proof.
  intros Hst Hsa. unfold generate_student_data. rewrite elem_of_app.
  intros [Hv|Hv].
  - apply list_elem_of_bind in Hv as (s & Hv & Hs).
    apply list_elem_of_bind in Hv as (d & Hv & Hd).
    rewrite Forall_forall in Hst. destruct (Hst s Hs) as [Hid Hdays].
    rewrite Forall_forall in Hdays. pose proof (Hdays d Hd) as Hok.
    destruct (entry_time_sendable _ _ Hok) as [Hen Henh].
    destruct (exit_time_sendable _ _ Hok) as (Hex & _ & _ & _ & Hexh & _ & _).
    unfold day_messages in Hv. rewrite elem_of_app, !elem_of_cons, elem_of_nil in Hv.
    destruct Hv as [[->|[->|[]]]|Hv].
    + eexists _, _, _, _. split; [done|].
      split_and!; try first [done|lia]. intros _. apply list_elem_of_fmap. by exists s.
    + eexists _, _, _, _. split; [done|].
      split_and!; try first [done|lia]. intros _. apply list_elem_of_fmap. by exists s.
    + destruct (invalid_attempt d) as [i|] eqn:Hi; [|by apply elem_of_nil in Hv].
      apply list_elem_of_singleton in Hv as ->.
      assert (100000 ≤ i ≤ 999999) by (by apply Hok).
      eexists _, _, _, _. split; [done|]. split_and!; first [done|lia].
  - apply list_elem_of_fmap in Hv as (a & -> & Ha).
    rewrite Forall_forall in Hsa. destruct (Hsa a Ha) as (Hid & Hc & Hh & Hm).
    eexists _, _, _, _. split; [done|].
    unfold sendable, time_of_day_ok, replace_time.
    cbn [year month day hour minute second microsecond].
    split_and!; try done; lia.
Qed.

(** X15. Every message [generate_student_data] sends is processed without
    error when the services answer: the turn returns normally, acknowledges
    the message and never negatively acknowledges it, and writes a row with
    the message's student id and lecture id, the validity the Bloom filter
    gives, and a timestamp between 8 and 17 o'clock. *)
Theorem generated_messages_are_acknowledged students standalone v id f w :
  Forall student_draws_ok students → Forall standalone_draws_ok standalone →
  v ∈ generate_student_data students standalone →
  services_answer f → acknowledge_fault f = None →
  let new := new_events w (process_message (mk_message id (Json v)) f w).1 in
  (process_message (mk_message id (Json v)) f w).2 = inr tt ∧
  Acknowledge id ∈ new ∧ (NegativeAcknowledge id ∉ new) ∧
  ∃ row, CQL_INSERT row ∈ new ∧
    py_getitem v "student_id" = inr (PyInt (student_id row)) ∧
    py_getitem v "lecture_id" = inr (PyStr (lecture_id row)) ∧
    is_valid row = bloom w (pretty (student_id row)) ∧
    8 ≤ hour_of (timestamp row) ≤ 17.
Proof.
  intros Hst Hsa Hv Hf Hack new.
  destruct (generated_shape _ _ _ Hst Hsa Hv)
    as (sid & t & flag & ev & -> & Ht & Hh & Hsid & _).
  assert (storable (mk_message id (Json (attendance_record sid t flag ev)))
            sid ("LECTURE_" +:+ strftime_Ymd t) (timegm t * 1000)) as Hs.
  { apply attendance_record_storable; [done|]. destruct flag; lia. }
  unfold new. rewrite (process_message_answered _ _ _ _ _ _ Hs Hf). cbv zeta.
  rewrite Hack. cbn [message_id].
  rewrite process_message_result, Hack.
  pose proof (ingest_storable _ f w _ _ _ Hs) as Hi.
  destruct Hf as (Hbf & Hin & Hpf). rewrite Hbf, Hin, Hpf in Hi. cbv zeta in Hi.
  split_and!.
  - rewrite Hi. by destruct (bloom w (pretty sid)).
  - rewrite !elem_of_cons, elem_of_app, !elem_of_cons. tauto.
  - rewrite !elem_of_cons, elem_of_app, !elem_of_cons, elem_of_nil.
    destruct (bloom w (pretty sid)); rewrite ?elem_of_cons, elem_of_nil;
      intros ?; destruct_or!; done.
  - eexists. split; [right; by left|].
    cbn [row_for student_id lecture_id timestamp is_valid].
    destruct Ht as (_ & Hok & _).
    split_and!; try done; rewrite hour_of_timegm by done; lia.
Qed.

Lemma bf_add_answer positions item bits :
  bf_answer positions (bf_add positions item bits) item = true.
Proof.
  unfold bf_answer, bf_add. apply bool_decide_eq_true, Forall_forall.
  intros i Hi. apply elem_of_union_l, elem_of_list_to_set. done.
Qed.

Lemma bf_answer_mono positions bits bits' item :
  bits ⊆ bits' → bf_answer positions bits item = true →
  bf_answer positions bits' item = true.
Proof.
  unfold bf_answer. rewrite !bool_decide_eq_true, !Forall_forall. auto.
Qed.

(** The filter has no false negatives: it answers true for every id that
    was added. *)
Lemma add_valid_ids_answer positions ids bits z :
  z ∈ ids → bf_answer positions (add_valid_ids positions ids bits) (pretty z) = true.
Proof.
  induction ids as [|x ids IH]; intros Hz; [by apply elem_of_nil in Hz|].
  cbn [add_valid_ids foldr]. fold (add_valid_ids positions ids bits).
  apply elem_of_cons in Hz as [->|Hz]; [apply bf_add_answer|].
  eapply bf_answer_mono; [|by apply IH]. unfold bf_add. apply union_subseteq_r.
Qed.

(** X16. After the generator added the valid student ids to the Bloom
    filter, every message it sends with [is_valid] true is persisted with
    [is_valid] true and its student is added to the lecture's HyperLogLog,
    whatever the filter's hash functions: a Bloom filter has no false
    negatives. *)
Theorem events_flagged_valid_are_persisted_valid positions bits
    students standalone v id f w :
  Forall student_draws_ok students → Forall standalone_draws_ok standalone →
  v ∈ generate_student_data students standalone →
  py_getitem v "is_valid" = inr (PyBool true) →
  bloom w = bf_answer positions (add_valid_ids positions (the_student <$> students) bits) →
  services_answer f →
  let new := new_events w (process_message (mk_message id (Json v)) f w).1 in
  ∃ row, CQL_INSERT row ∈ new ∧
    py_getitem v "student_id" = inr (PyInt (student_id row)) ∧
    is_valid row = true ∧
    PFADD (HLL_KEY_PREFIX +:+ lecture_id row) (pretty (student_id row)) ∈ new.
Proof.
  intros Hst Hsa Hv Hflag Hbloom Hf new.
  destruct (generated_shape _ _ _ Hst Hsa Hv)
    as (sid & t & flag & ev & -> & Ht & Hh & Hsid & Hin).
  assert (flag = true) as -> by (by injection Hflag).
  assert (storable (mk_message id (Json (attendance_record sid t true ev)))
            sid ("LECTURE_" +:+ strftime_Ymd t) (timegm t * 1000)) as Hs.
  { apply attendance_record_storable; [done|]. lia. }
  assert (bloom w (pretty sid) = true) as Hvalid.
  { rewrite Hbloom. apply add_valid_ids_answer. by apply Hin. }
  unfold new. rewrite (process_message_answered _ _ _ _ _ _ Hs Hf). cbv zeta.
  rewrite Hvalid. eexists. split; [right; by left|].
  cbn [row_for student_id lecture_id timestamp is_valid].
  split_and!; [done..|]. right. right. by left.
Qed.

End GeneratorFacts.

Lemma sendable_encoded t :
  sendable t → cql_encode_datetime t = inr (timegm t * 1000).
Proof.
  intros ((Hy & Hm & Hd) & Hok & Hus).
  apply cql_encode_datetime_naive; [|done..]. split_and!; first [done|lia].
Qed.

(** X17. For every attendance day the generator draws, the rows stored for
    the entry and the exit message lie in the same lecture, the exit later
    than the entry and in an hour from 11 to 16, the entry in the hour
    drawn. The analytics engine does not read the event type: whatever else
    a table holds, it counts a student whose exit row the table holds among
    those arriving at or after 9 o'clock, at least once. *)
Theorem exit_events_count_as_late punctual d sid v :
  day_draws_ok punctual d →
  ∃ ms_in ms_out,
    cql_encode_datetime (entry_time d) = inr ms_in ∧
    cql_encode_datetime (exit_time d) = inr ms_out ∧
    let arrival := row_for sid ("LECTURE_" +:+ strftime_Ymd (entry_time d)) ms_in v in
    let departure := row_for sid ("LECTURE_" +:+ strftime_Ymd (exit_time d)) ms_out v in
    lecture_id departure = lecture_id arrival ∧
    timestamp arrival < timestamp departure ∧
    11 ≤ hour_of (timestamp departure) ≤ 16 ∧
    hour_of (timestamp arrival) = entry_hour d ∧
    (late_threshold ≤ hour_of (timestamp arrival) ↔ 9 ≤ entry_hour d) ∧
    ∀ t : table,
      t !! primary_key departure = Some v →
      ∃ c, (sid, c) ∈ late_students (_fetch_attendance_data t) ∧ 1 ≤ c.
Proof.
  intros Hok.
  destruct (entry_time_sendable _ _ Hok) as [Hen Henh].
  destruct (exit_time_sendable _ _ Hok) as (Hex & Hy & Hm & Hd & Hexh & Htot & Hsec).
  pose proof Hok as (_ & _ & _ & Hsh & Hsm & _).
  exists (timegm (entry_time d) * 1000), (timegm (exit_time d) * 1000).
  split; [by apply sendable_encoded|]. split; [by apply sendable_encoded|].
  intros arrival departure.
  assert (hour_of (timestamp departure) = hour (exit_time d)) as Hhd
    by (apply hour_of_timegm, Hex).
  assert (hour_of (timestamp arrival) = entry_hour d) as Hha
    by (apply (hour_of_timegm (entry_time d)), Hen).
  unfold late_threshold.
  split_and!.
  - unfold departure, arrival, row_for, strftime_Ymd. cbn [lecture_id].
    rewrite Hy, Hm, Hd. done.
  - unfold departure, arrival, row_for, timegm. cbn [timestamp].
    rewrite Hy, Hm, Hd.
    change (year (entry_time d)) with (year (on_day d)).
    change (month (entry_time d)) with (month (on_day d)).
    change (day (entry_time d)) with (day (on_day d)).
    change (hour (entry_time d)) with (entry_hour d).
    change (minute (entry_time d)) with (entry_minute d).
    rewrite Hsec.
    change (second (entry_time d)) with 0. lia.
  - lia.
  - lia.
  - done.
  - lia.
  - intros t Hdep.
    set (late := student_id <$> filter (λ r, 9 ≤ hour_of (timestamp r))
                                  (_fetch_attendance_data t)).
    assert (0 < count_rows late sid) as Hpos.
    { apply count_rows_pos, list_elem_of_fmap. exists departure. split; [done|].
      apply list_elem_of_filter. split; [lia|]. by apply elem_of_fetch. }
    exists (count_rows late sid). split; [|lia].
    unfold late_students. by apply elem_of_groupby_size.
Qed.

Lemma one_day_ok : day_draws_ok true one_day.
Proof.
  unfold day_draws_ok, calendar_day, one_day. cbn.
  split_and!; try lia. intros ? [= <-]. lia.
Qed.

Lemma one_student_ok : Forall student_draws_ok one_student.
Proof.
  apply Forall_cons. split; [|constructor].
  split; [cbn; lia|]. apply Forall_cons. split; [apply one_day_ok|constructor].
Qed.

(** * Worked examples *)

(** C2 at the example entry, delivered twice to an empty table. *)
Lemma redelivery_is_idempotent_witness :
  dom (attendance (run (mk_message 1 (Json generated_entry))
                     (run (mk_message 1 (Json generated_entry)) demo_world)))
  = dom (attendance (run (mk_message 1 (Json generated_entry)) demo_world)) ∧
  length (filter (λ r, primary_key r = primary_key demo_row)
            (cql_select_lecture "LECTURE_20240304"
               (attendance (run (mk_message 1 (Json generated_entry))
                              (run (mk_message 1 (Json generated_entry)) demo_world)))))
  = 1%nat.
Proof.
  pose proof (@redelivery_is_idempotent demo_config generator_isoformat exact_sketch
                (mk_message 1 (Json generated_entry)) no_faults no_faults
                known_students demo_world demo_row) as Hw.
  cbv zeta in Hw.
  destruct Hw as (Hdom & Hone & _).
  - vm_compute. right. left.
  - split; [exact Hdom|exact Hone].
Defined.

(** C4 at the example entry with and without the producer's flag. *)
Lemma validity_is_computed_witness :
  @process_message demo_config generator_isoformat exact_sketch
    (mk_message 1 (Json generated_entry)) no_faults demo_world
  = @process_message demo_config generator_isoformat exact_sketch
      (mk_message 1 (Json entry_without_flag)) no_faults demo_world.
Proof.
  apply (@validity_is_computed demo_config generator_isoformat exact_sketch
           1%nat generated_entry entry_without_flag no_faults demo_world);
    reflexivity.
Defined.

(** C10 for the day after the one lecture that received an event. *)
Lemma stats_of_unseen_lecture_witness :
  (@get_attendance_stats demo_config exact_sketch (mk_read_faults None None)
     "LECTURE_20240305"
     (@process_attendance demo_config generator_isoformat exact_sketch interrupted
        [(mk_message 1 (Json generated_entry), no_faults)]
        (fresh_world known_students)).1).2
  = inr (mk_stats 0 []).
Proof.
  apply (@stats_of_unseen_lecture demo_config generator_isoformat exact_sketch);
    [|reflexivity..].
  intros msg f Hin data Hdata.
  apply list_elem_of_singleton in Hin. injection Hin as -> ->.
  injection Hdata as <-. vm_compute. discriminate.
Defined.

(** C9. A payload without [event_type] is persisted, counted and
    acknowledged like any other: the field is never read. *)
Lemma missing_event_type_is_acknowledged :
  py_getitem entry_without_event_type "event_type" = inl (KeyError "event_type") ∧
  (@process_message demo_config generator_isoformat exact_sketch
     (mk_message 1 (Json entry_without_event_type)) no_faults demo_world).2 = inr tt ∧
  trace (run (mk_message 1 (Json entry_without_event_type)) demo_world)
  = [BF_EXISTS "valid_students" "12345" true;
     CQL_INSERT demo_row;
     PFADD "attendance:hll:LECTURE_20240304" "12345";
     LogInfo "Processed attendance for student 12345 (valid: True)";
     Acknowledge 1].
Proof. split_and!; vm_compute; reflexivity. Qed.

(** C6. With late counts 5, 5 and 1 nobody is reported: the two subjects
    with count 5 do not exceed the median 5. *)
Lemma latecomers_5_5_1_reports_nobody :
  late_students (_fetch_attendance_data late_5_5_1) = [(101, 5); (102, 5); (103, 1)] ∧
  median [5; 5; 1] = Some (inject_Z 5) ∧
  frequent_late (_fetch_attendance_data late_5_5_1) = [] ∧
  (λ i, (title i, description i, data i)) <$> take 1 (@generate_insights stable_sort_values late_5_5_1)
  = [("Habitual Latecomers", "Found 0 students who frequently arrive after 9:00 AM", [])].
Proof. split_and!; vm_compute; reflexivity. Qed.

(** C8. Four lectures with 1, 1, 2 and 2 events, tallied in [lecture_id]
    order as L0, L1, L2, L3. A sort within the contract of [sort_values]
    ranks them L3, L2, L1, L0, which is how pandas' default sort, numpy's
    quicksort run on the reversed counts and read backwards, leaves them
    where numpy sorts a short array with its vectorised sorting network:
    the two lectures with two events and the two with one event stand in
    descending [lecture_id] order in both lists. *)
Lemma tied_lectures_come_reversed :
  lecture_tally four_lectures = [("L0", 1); ("L1", 1); ("L2", 2); ("L3", 2)] ∧
  ∃ S : SortValues,
    @lecture_attendance S four_lectures = [("L3", 2); ("L2", 2); ("L1", 1); ("L0", 1)] ∧
    @most_attended S four_lectures = [("L3", 2); ("L2", 2); ("L1", 1)] ∧
    @least_attended S four_lectures = [("L2", 2); ("L1", 1); ("L0", 1)] ∧
    ¬ ties_by_lecture_id (@most_attended S four_lectures) ∧
    ¬ ties_by_lecture_id (@least_attended S four_lectures).
Proof.
  split; [by vm_compute|]. exists reversed_sort_values.
  assert (@most_attended reversed_sort_values four_lectures
          = [("L3", 2); ("L2", 2); ("L1", 1)]) as Hm by (vm_compute; reflexivity).
  assert (@least_attended reversed_sort_values four_lectures
          = [("L2", 2); ("L1", 1); ("L0", 1)]) as Hl by (vm_compute; reflexivity).
  split_and!; [by vm_compute|done|done|rewrite Hm|rewrite Hl]; unfold ties_by_lecture_id.
  - intros [Hba _]%StronglySorted_cons. apply Forall_cons in Hba as [Hba _].
    destruct (Hba eq_refl) as [Hle _]. vm_compute in Hle. done.
  - intros [_ [Hba _]%StronglySorted_cons]%StronglySorted_cons.
    apply Forall_cons in Hba as [Hba _].
    destruct (Hba eq_refl) as [Hle _]. vm_compute in Hle. done.
Qed.

(** C7 at five lectures with 10, 8, 6, 4 and 2 events. *)
Lemma rankings_head_tail_witness :
  (@most_attended stable_sort_values five_lectures).*2 = [10; 8; 6] ∧
  (@least_attended stable_sort_values five_lectures).*2 = [6; 4; 2].
Proof.
  destruct (@rankings_head_tail stable_sort_values five_lectures) as (_ & H5 & _).
  destruct H5 as (Hmost & Hleast & _); [by vm_compute|].
  split; [exact Hmost|exact Hleast].
Defined.


(** With Redis unreachable the probe raises, and [process_attendance] with
    it, before a message is received or a client closed. *)
Lemma redis_down_stops_before_receiving :
  @process_attendance demo_config generator_isoformat exact_sketch
    (mk_session (Some (DriverError "ConnectionError" "Connection refused"))
       None None None None None)
    [(mk_message 1 (Json generated_entry), no_faults)] demo_world
  = (extend demo_world [LogInfo "Starting attendance processing..."],
     inl (DriverError "ConnectionError" "Connection refused")).
Proof. reflexivity. Qed.

(** A filter that exists already is not reserved again; the three clients
    are closed also when [receive] raises, and its exception escapes. *)
Lemma receive_raises_after_cleanup :
  @process_attendance demo_config generator_isoformat exact_sketch
    (mk_session (Some (ResponseError "unknown command"))
       (Some (ResponseError "ERR item already exists"))
       (Some (DriverError "Interrupted" "Pulsar error")) None None None)
    [] demo_world
  = (extend demo_world [LogInfo "Starting attendance processing...";
                        Closed "pulsar_client"; Closed "redis_client";
                        Closed "cassandra_cluster"],
     inl (DriverError "Interrupted" "Pulsar error")).
Proof. by vm_compute. Qed.

(** X5 at the example entry, first delivered while the HyperLogLog update
    fails. *)
Lemma redelivery_leaves_the_stores_of_one_delivery_witness :
  @same_stores exact_sketch
    (run (mk_message 1 (Json generated_entry))
       (@process_message demo_config generator_isoformat exact_sketch
          (mk_message 1 (Json generated_entry)) pfadd_down demo_world).1)
    (run (mk_message 1 (Json generated_entry)) demo_world).
Proof.
  destruct (@redelivery_leaves_the_stores_of_one_delivery demo_config generator_isoformat
              exact_sketch (mk_message 1 (Json generated_entry)) pfadd_down no_faults
              demo_world) as [Hsame _].
  - repeat split.
  - left. vm_compute. intros [].
  - exact Hsame.
Defined.

(** X4 at the example entry. *)
Lemma persisted_event_is_listed_witness :
  ∃ st,
    (@get_attendance_stats demo_config exact_sketch (mk_read_faults None None)
       "LECTURE_20240304" (run (mk_message 1 (Json generated_entry)) demo_world)).2
    = inr st ∧
    (12345, 1709543700000) ∈ attendance_records st.
Proof.
  destruct (@persisted_event_is_listed demo_config generator_isoformat exact_sketch
              (mk_message 1 (Json generated_entry)) no_faults demo_world []
              (mk_read_faults None None) demo_row) as (st & Hst & Hin & _).
  - vm_compute. right. left.
  - reflexivity.
  - reflexivity.
  - exists st. split; [|exact Hin].
    cbn [lecture_id demo_row receive_loop ret fst] in Hst. unfold run. by rewrite Hst.
Defined.

(** X7 for the lecture of the example entry. *)
Lemma unique_attendees_at_most_records_witness :
  ∃ st,
    (@get_attendance_stats demo_config exact_sketch (mk_read_faults None None)
       "LECTURE_20240304"
       (@process_attendance demo_config generator_isoformat exact_sketch interrupted
          [(mk_message 1 (Json generated_entry), no_faults)]
          (fresh_world known_students)).1).2 = inr st ∧
    0 ≤ unique_attendees st ≤ Z.of_nat (length (attendance_records st)).
Proof.
  apply (@unique_attendees_at_most_records demo_config generator_isoformat);
    reflexivity.
Defined.

(** X6 at the example entry: 9 o'clock on a Monday. *)
Lemma stored_time_is_event_time_witness :
  timestamp demo_row = timegm monday_morning * 1000 ∧
  hour_of (timestamp demo_row) = hour monday_morning ∧
  weekday_of (timestamp demo_row) = weekday monday_morning.
Proof.
  destruct (@stored_time_is_event_time demo_config generator_isoformat exact_sketch
              (mk_message 1 (Json generated_entry)) no_faults demo_world
              generated_entry "2024-03-04T09:15:00" (naive monday_morning) demo_row)
    as (_ & _ & _ & Hnaive).
  - reflexivity.
  - reflexivity.
  - reflexivity.
  - vm_compute. right. left.
  - apply (Hnaive monday_morning eq_refl).
    + unfold date_ok, monday_morning. cbn. lia.
    + unfold time_of_day_ok, monday_morning. cbn. lia.
    + reflexivity.
Defined.

(** What the driver sends for a datetime before 1970 with microseconds (the
    float is truncated toward zero), for the last microsecond of the year
    9999 (the float sum is rounded up), for 09:15 five hours east of UTC
    (stored as 04:15), and for the first hour of the year 1 five hours east
    of UTC (the UTC time is out of range). *)
Lemma cql_encode_datetime_examples :
  cql_encode_datetime (mk_datetime 1969 12 31 23 59 59 999999) = inr 0 ∧
  cql_encode_datetime (mk_datetime 9999 12 31 23 59 59 999999) = inr 253402300800000 ∧
  cql_encode_datetime (mk_datetime_tz monday_morning (Some 18000000000))
  = inr 1709525700000 ∧
  hour_of 1709525700000 = 4 ∧
  cql_encode_datetime (mk_datetime_tz (mk_datetime 1 1 1 0 0 0 0) (Some 18000000000))
  = inl (OverflowError "date value out of range").
Proof. split_and!; by vm_compute. Qed.

(** X13 on a table without invalid rows. *)
Lemma invalid_attempts_are_counted_per_student_witness :
  ∃ i, @generate_insights stable_sort_values late_5_5_1 !! 4%nat = Some i ∧
       title i = "Invalid Attendance Attempts" ∧ data i = [].
Proof.
  destruct (@invalid_attempts_are_counted_per_student stable_sort_values late_5_5_1)
    as (i & Hi & Ht & _ & Hnone).
  - intros Heq. apply (f_equal size) in Heq. vm_compute in Heq. discriminate.
  - exists i. split_and!; [exact Hi|exact Ht|].
    apply Hnone. apply Forall_forall. vm_compute. repeat constructor.
Defined.

(** X14 at 2024-03-04T09:15:00. *)
Lemma fromisoformat_inverts_isoformat_witness :
  @fromisoformat generator_isoformat (isoformat monday_morning)
  = Some (naive monday_morning) ∧
  String.length (isoformat monday_morning) = 19%nat.
Proof.
  apply fromisoformat_inverts_isoformat; unfold time_of_day_ok, monday_morning; cbn; lia.
Defined.

(** X15 at the exit message of the example day. *)
Lemma generated_messages_are_acknowledged_witness :
  (@process_message demo_config generator_isoformat exact_sketch
     (mk_message 1 (Json (attendance_record 12345 (exit_time one_day) true "exit")))
     no_faults demo_world).2 = inr tt ∧
  Acknowledge 1 ∈
    new_events demo_world
      (run (mk_message 1 (Json (attendance_record 12345 (exit_time one_day) true "exit")))
         demo_world).
Proof.
  destruct (@generated_messages_are_acknowledged demo_config exact_sketch
              one_student []
              (attendance_record 12345 (exit_time one_day) true "exit")
              1%nat no_faults demo_world) as (Hr & Hack & _).
  - apply one_student_ok.
  - constructor.
  - vm_compute. right. left.
  - repeat split.
  - reflexivity.
  - split; [exact Hr|exact Hack].
Defined.

(** X16 at the entry message of the example day. *)
Lemma events_flagged_valid_are_persisted_valid_witness :
  ∃ r,
    CQL_INSERT r ∈
      new_events
        (@fresh_world exact_sketch (bf_answer by_length (add_valid_ids by_length [12345] ∅)))
        (@process_message demo_config generator_isoformat exact_sketch
           (mk_message 1 (Json (attendance_record 12345 (entry_time one_day) true "entry")))
           no_faults
           (@fresh_world exact_sketch
              (bf_answer by_length (add_valid_ids by_length [12345] ∅)))).1 ∧
    is_valid r = true.
Proof.
  destruct (@events_flagged_valid_are_persisted_valid demo_config exact_sketch
              by_length ∅ one_student []
              (attendance_record 12345 (entry_time one_day) true "entry")
              1%nat no_faults
              (@fresh_world exact_sketch
                 (bf_answer by_length (add_valid_ids by_length [12345] ∅))))
    as (r & Hr & _ & Hv & _).
  - apply one_student_ok.
  - constructor.
  - vm_compute. left.
  - reflexivity.
  - reflexivity.
  - repeat split.
  - exists r. split; [exact Hr|exact Hv].
Defined.

(** X17 at the example day: in at 09:15, out at 12:45. *)
Lemma exit_events_count_as_late_witness :
  ∃ ms_in ms_out,
    cql_encode_datetime (entry_time one_day) = inr ms_in ∧
    cql_encode_datetime (exit_time one_day) = inr ms_out ∧
    ms_in < ms_out ∧ 11 ≤ hour_of ms_out ≤ 16.
Proof.
  destruct (exit_events_count_as_late true one_day 12345 true one_day_ok)
    as (ms_in & ms_out & Hin & Hout & Hrest).
  cbv zeta in Hrest. destruct Hrest as (_ & Hlt & Hlate & _).
  exists ms_in, ms_out. split_and!; [exact Hin|exact Hout|exact Hlt|apply Hlate..].
Defined.

(** C3 at the example entry: the known student is added to the lecture's
    HyperLogLog. *)
Lemma estimator_updated_iff_valid_witness :
  PFADD "attendance:hll:LECTURE_20240304" "12345"
    ∈ new_events demo_world (run (mk_message 1 (Json generated_entry)) demo_world) ∧
  hll (run (mk_message 1 (Json generated_entry)) demo_world)
  = @hll_added demo_config exact_sketch "LECTURE_20240304" 12345 (hll demo_world).
Proof.
  destruct (@estimator_updated_iff_valid demo_config generator_isoformat exact_sketch
              (mk_message 1 (Json generated_entry)) no_faults demo_world) as (Hfwd & _).
  cbv zeta in Hfwd.
  destruct (Hfwd 12345 "LECTURE_20240304" 1709543700000) as (_ & _ & Hadd & Hh).
  - split; [|split; [lia|discriminate]]. eexists _, _, _. split_and!; reflexivity.
  - repeat split.
  - split; [apply Hadd; reflexivity|exact Hh].
Defined.
